(** * EME chatbot: session engine

    A shallow embedding of the conversation engine of the EME Monaco chatbot
    (TypeScript): the input validator and the sanitisation helpers, the error
    handler, the chat API client with its retry loop, the storage manager over
    [localStorage] and the part of the container that sequences them.

    JavaScript strings are sequences of UTF-16 code units ([list N]); regular
    expressions are syntax trees run by a backtracking matcher; the records
    kept in [localStorage] are JSON values. *)

From Stdlib Require Import Ascii String DecimalString.
From Stdlib Require Import List NArith ZArith Bool Arith Lia.
Import ListNotations.

Set Implicit Arguments.
Set Warnings "-register-all".

(* ================================================================== *)
(** * JavaScript strings *)
(* ================================================================== *)

Module JS.

(** A string is its sequence of UTF-16 code units. *)
Definition jsstring := list N.

(** Code units of a literal written in this file (UTF-8 bytes): one unit per
    code point of the basic plane, a surrogate pair above it. *)
Fixpoint utf16 (bs : list N) : jsstring :=
  match bs with
  | [] => []
  | b :: t =>
      if (b <? 128)%N then b :: utf16 t
      else if (b <? 224)%N then
        match t with
        | c :: t1 => ((b mod 32) * 64 + c mod 64)%N :: utf16 t1
        | [] => [b]
        end
      else if (b <? 240)%N then
        match t with
        | c :: d :: t2 =>
            ((b mod 16) * 4096 + (c mod 64) * 64 + d mod 64)%N :: utf16 t2
        | _ => [b]
        end
      else
        match t with
        | c :: d :: e :: t3 =>
            let cp := ((b mod 8) * 262144 + (c mod 64) * 4096
                       + (d mod 64) * 64 + e mod 64 - 65536)%N in
            (55296 + cp / 1024)%N :: (56320 + cp mod 1024)%N :: utf16 t3
        | _ => [b]
        end
  end.

Definition lit (s : string) : jsstring :=
  utf16 (map N_of_ascii (list_ascii_of_string s)).

(** Decimal digits of a number, as [String(n)] prints an integer. *)
Definition decimal (z : Z) : jsstring :=
  lit (NilZero.string_of_int (Z.to_int z)).

(** [WhiteSpace] and [LineTerminator] of the language: what [trim] strips
    and what [\s] matches. *)
Definition is_space (c : N) : bool :=
  ((9 <=? c) && (c <=? 13) || (c =? 32) || (c =? 160) || (c =? 5760)
   || (8192 <=? c) && (c <=? 8202) || (c =? 8232) || (c =? 8233)
   || (c =? 8239) || (c =? 8287) || (c =? 12288) || (c =? 65279))%N.

(** [\w]: ASCII letters, digits and the underscore. *)
Definition is_word (c : N) : bool :=
  ((48 <=? c) && (c <=? 57) || (65 <=? c) && (c <=? 90)
   || (97 <=? c) && (c <=? 122) || (c =? 95))%N.

(** Canonical form of a code unit under the [i] flag without the [u] flag:
    for the ASCII patterns of this program only the ASCII letters fold, since
    a unit above 127 never folds onto one below 128. *)
Definition canon (c : N) : N :=
  if ((97 <=? c) && (c <=? 122))%N then (c - 32)%N else c.

Fixpoint dropWhile (p : N -> bool) (s : jsstring) : jsstring :=
  match s with
  | [] => []
  | c :: t => if p c then dropWhile p t else s
  end.

Definition trimStart (s : jsstring) : jsstring := dropWhile is_space s.
Definition trimEnd (s : jsstring) : jsstring := rev (dropWhile is_space (rev s)).
Definition trim (s : jsstring) : jsstring := trimEnd (trimStart s).

(** [s.substring(0, n)]. *)
Definition substring0 (n : nat) (s : jsstring) : jsstring := firstn n s.

Fixpoint startsWith (p s : jsstring) : bool :=
  match p, s with
  | [], _ => true
  | _ :: _, [] => false
  | a :: p', b :: s' => (a =? b)%N && startsWith p' s'
  end.

(** [s.includes(p)]. *)
Fixpoint includes (s p : jsstring) : bool :=
  startsWith p s || match s with [] => false | _ :: t => includes t p end.

Fixpoint str_eqb (a b : jsstring) : bool :=
  match a, b with
  | [], [] => true
  | x :: a', y :: b' => (x =? y)%N && str_eqb a' b'
  | _, _ => false
  end.

(** [s.split(sep)] for a one-unit separator, and [parts.join(sep)]. *)
Fixpoint split (sep : N) (s : jsstring) : list jsstring :=
  match s with
  | [] => [[]]
  | c :: t =>
      if (c =? sep)%N then [] :: split sep t
      else match split sep t with
           | l :: ls => (c :: l) :: ls
           | [] => [[c]]
           end
  end.

Fixpoint join (sep : jsstring) (parts : list jsstring) : jsstring :=
  match parts with
  | [] => []
  | [l] => l
  | l :: ls => l ++ sep ++ join sep ls
  end.

(** [a.slice(-n)] on an array: its last [n] elements. *)
Definition slice_last {A} (n : nat) (l : list A) : list A :=
  skipn (length l - n) l.

End JS.
Import JS.

(* ================================================================== *)
(** * Regular expressions *)
(* ================================================================== *)

Module Regex.

Inductive regex : Type :=
| Eps
| Chr (c : N)                 (* a literal unit, folded under the [i] flag *)
| Cls (p : N -> bool)         (* a class: [\w], [\s], [[^<]], ... *)
| Seq (r1 r2 : regex)
| Alt (r1 r2 : regex)
| Star (r : regex)            (* greedy [r*] *)
| NotAhead (r : regex)        (* [(?!r)] *)
| Bound.                      (* [\b] *)

Definition Plus (r : regex) : regex := Seq r (Star r).

Fixpoint Rep (n : nat) (r : regex) : regex :=
  match n with
  | O => Eps
  | S n' => Seq r (Rep n' r)
  end.

(** [r{n,}] *)
Definition AtLeast (n : nat) (r : regex) : regex := Seq (Rep n r) (Star r).

Definition Str (s : jsstring) : regex := fold_right (fun c r => Seq (Chr c) r) Eps s.

Definition seqs (rs : list regex) : regex := fold_right Seq Eps rs.

Definition unit_eqb (ic : bool) (c x : N) : bool :=
  if ic then (canon c =? canon x)%N else (c =? x)%N.

Definition word_at (o : option N) : bool :=
  match o with Some c => is_word c | None => false end.

(** The backtracking matcher, in continuation-passing style: [prev] is the
    unit before the current position (for [\b]), [s] the rest of the input,
    [k] what remains to be matched after [r].  The result is that of the
    first alternative that succeeds, in the priority order of the language
    (a greedy star tries one more iteration before it tries to stop). *)
Fixpoint rx (A : Type) (ic : bool) (r : regex)
    (k : option N -> jsstring -> option A)
    (prev : option N) (s : jsstring) {struct r} : option A :=
  match r with
  | Eps => k prev s
  | Chr c =>
      match s with
      | x :: s' => if unit_eqb ic c x then k (Some x) s' else None
      | [] => None
      end
  | Cls p =>
      match s with
      | x :: s' => if p x then k (Some x) s' else None
      | [] => None
      end
  | Seq r1 r2 => rx ic r1 (fun p' s' => rx ic r2 k p' s') prev s
  | Alt r1 r2 =>
      match rx ic r1 k prev s with
      | Some a => Some a
      | None => rx ic r2 k prev s
      end
  | Star r1 =>
      (fix loop (n : nat) (prev : option N) (s : jsstring) : option A :=
         match n with
         | O => k prev s
         | S n' =>
             match rx ic r1
                     (fun p' s' =>
                        if (length s' <? length s)%nat then loop n' p' s'
                        else None) prev s with
             | Some a => Some a
             | None => k prev s
             end
         end) (length s) prev s
  | NotAhead r1 =>
      match rx ic r1 (fun _ _ => Some tt) prev s with
      | Some _ => None
      | None => k prev s
      end
  | Bound =>
      if xorb (word_at prev) (word_at (hd_error s)) then k prev s else None
  end.

(** A match of [r] starting exactly here: the unit before the end of the
    match and the input left after it. *)
Definition match_here (ic : bool) (r : regex) (prev : option N) (s : jsstring)
  : option (option N * jsstring) :=
  rx ic r (fun p' s' => Some (p', s')) prev s.

(** [r.test(s)] for a regular expression whose [lastIndex] is 0: is there a
    match starting at some position? *)
Fixpoint search (ic : bool) (r : regex) (prev : option N) (s : jsstring) : bool :=
  match match_here ic r prev s with
  | Some _ => true
  | None =>
      match s with
      | [] => false
      | c :: t => search ic r (Some c) t
      end
  end.

Definition test (ic : bool) (r : regex) (s : jsstring) : bool :=
  search ic r None s.

(** [s.replace(r, repl)] with the [g] flag and a replacement text without
    [$]: the matches are taken leftmost first, without overlap; after an
    empty match the search moves one unit on. *)
Fixpoint replace_loop (fuel : nat) (ic : bool) (r : regex) (repl : jsstring)
    (prev : option N) (s : jsstring) : jsstring :=
  match fuel with
  | O => s
  | S fuel' =>
      match match_here ic r prev s with
      | Some (p', s') =>
          if (length s' <? length s)%nat
          then repl ++ replace_loop fuel' ic r repl p' s'
          else match s with
               | [] => repl
               | c :: t => repl ++ c :: replace_loop fuel' ic r repl (Some c) t
               end
      | None =>
          match s with
          | [] => []
          | c :: t => c :: replace_loop fuel' ic r repl (Some c) t
          end
      end
  end.

Definition replace_all (ic : bool) (r : regex) (repl : jsstring) (s : jsstring)
  : jsstring :=
  replace_loop (S (length s)) ic r repl None s.

(** [(s.match(r) || []).length] with the [g] flag. *)
Fixpoint count_loop (fuel : nat) (ic : bool) (r : regex)
    (prev : option N) (s : jsstring) : nat :=
  match fuel with
  | O => 0
  | S fuel' =>
      match match_here ic r prev s with
      | Some (p', s') =>
          if (length s' <? length s)%nat
          then S (count_loop fuel' ic r p' s')
          else match s with
               | [] => 1
               | c :: t => S (count_loop fuel' ic r (Some c) t)
               end
      | None =>
          match s with
          | [] => 0
          | c :: t => count_loop fuel' ic r (Some c) t
          end
      end
  end.

Definition count_matches (ic : bool) (r : regex) (s : jsstring) : nat :=
  count_loop (S (length s)) ic r None s.

End Regex.
Import Regex.

(* ================================================================== *)
(** * JSON values *)
(* ================================================================== *)

Module Json.

(** The values [JSON.parse] produces.  Numbers are the integers of this
    program (timestamps in milliseconds, counters); an object lists its
    properties in the order in which they are enumerated. *)
Inductive json : Type :=
| JNull
| JBool (b : bool)
| JNum (z : Z)
| JStr (s : jsstring)
| JArr (items : list json)
| JObj (fields : list (jsstring * json)).

Fixpoint lookup (k : jsstring) (fields : list (jsstring * json)) : option json :=
  match fields with
  | [] => None
  | (k', v) :: rest => if str_eqb k k' then Some v else lookup k rest
  end.

(** [v.k] on a value that is not [null]: [None] is [undefined]. *)
Definition get (k : string) (v : json) : option json :=
  match v with
  | JObj fields => lookup (lit k) fields
  | _ => None
  end.

(** [k in v] for the keys this program asks about. *)
Definition has_key (k : string) (v : json) : bool :=
  match get k v with Some _ => true | None => false end.

(** [obj[k] = v]: an existing key keeps its place, a new one goes last. *)
Fixpoint assign (k : jsstring) (v : json) (fields : list (jsstring * json))
  : list (jsstring * json) :=
  match fields with
  | [] => [(k, v)]
  | (k', v') :: rest =>
      if str_eqb k k' then (k', v) :: rest else (k', v') :: assign k v rest
  end.

Definition truthy (v : json) : bool :=
  match v with
  | JNull => false
  | JBool b => b
  | JNum z => negb (z =? 0)%Z
  | JStr s => match s with [] => false | _ => true end
  | JArr _ | JObj _ => true
  end.

(** Truth value of a property that may be [undefined]. *)
Definition truthy_opt (o : option json) : bool :=
  match o with Some v => truthy v | None => false end.

(** [o || d] *)
Definition or_else (o : option json) (d : json) : json :=
  match o with
  | Some v => if truthy v then v else d
  | None => d
  end.

Definition is_string (o : option json) : bool :=
  match o with Some (JStr _) => true | _ => false end.

(** ** [JSON.stringify] *)

Definition hex_digit (d : N) : N :=
  if (d <? 10)%N then (48 + d)%N else (87 + d)%N.

Definition uescape (c : N) : jsstring :=
  [92; 117; hex_digit (c / 4096 mod 16); hex_digit (c / 256 mod 16);
   hex_digit (c / 16 mod 16); hex_digit (c mod 16)]%N.

Definition is_high (c : N) : bool := ((55296 <=? c) && (c <=? 56319))%N.
Definition is_low (c : N) : bool := ((56320 <=? c) && (c <=? 57343))%N.

Fixpoint quote_units (s : jsstring) : jsstring :=
  match s with
  | [] => []
  | c :: t =>
      if (c =? 34)%N then 92%N :: 34%N :: quote_units t
      else if (c =? 92)%N then 92%N :: 92%N :: quote_units t
      else if (c =? 8)%N then 92%N :: 98%N :: quote_units t
      else if (c =? 12)%N then 92%N :: 102%N :: quote_units t
      else if (c =? 10)%N then 92%N :: 110%N :: quote_units t
      else if (c =? 13)%N then 92%N :: 114%N :: quote_units t
      else if (c =? 9)%N then 92%N :: 116%N :: quote_units t
      else if (c <? 32)%N then uescape c ++ quote_units t
      else if is_high c then
        match t with
        | d :: t' =>
            if is_low d then c :: d :: quote_units t'
            else uescape c ++ quote_units t
        | [] => uescape c
        end
      else if is_low c then uescape c ++ quote_units t
      else c :: quote_units t
  end.

Definition quote (s : jsstring) : jsstring := 34%N :: quote_units s ++ [34%N].

Fixpoint JSON_stringify (v : json) : jsstring :=
  match v with
  | JNull => lit "null"
  | JBool true => lit "true"
  | JBool false => lit "false"
  | JNum z => decimal z
  | JStr s => quote s
  | JArr items => 91%N :: join [44%N] (map JSON_stringify items) ++ [93%N]
  | JObj fields =>
      123%N :: join [44%N]
        (map (fun kv : jsstring * json => let (k, x) := kv in quote k ++ 58%N :: JSON_stringify x)
             fields) ++ [125%N]
  end.

End Json.
Import Json.

(* ================================================================== *)
(** * Content sanitisation (utils/sanitization) *)
(* ================================================================== *)

Module Sanitization.

(** The options object handed to [DOMPurify.sanitize]. *)
Record PurifyConfig : Type := {
  ALLOWED_TAGS : list jsstring;
  ALLOWED_ATTR : list jsstring;
  ALLOW_DATA_ATTR : bool;
  FORBID_TAGS : list jsstring;
  FORBID_ATTR : list jsstring;
  KEEP_CONTENT : bool;
  RETURN_DOM : bool;
  RETURN_DOM_FRAGMENT : bool;
  RETURN_DOM_IMPORT : bool;
  SANITIZE_DOM : bool;
  WHOLE_DOCUMENT : bool;
  FORCE_BODY : bool
}.

(** DOMPurify is a dependency of the program, not part of it: the program
    is modelled over any implementation of its one entry point. *)
Class DOMPurify : Type := { sanitize : jsstring -> PurifyConfig -> jsstring }.

Definition configureDOMPurify : PurifyConfig :=
  {| ALLOWED_TAGS := map lit
       ["p"; "br"; "strong"; "em"; "u"; "i"; "b";
        "ul"; "ol"; "li"; "blockquote"; "code"; "pre";
        "h1"; "h2"; "h3"; "h4"; "h5"; "h6";
        "a"; "span"; "div"]%string;
     ALLOWED_ATTR := map lit ["href"; "title"; "class"; "id"; "target"; "rel"]%string;
     ALLOW_DATA_ATTR := false;
     FORBID_TAGS := map lit ["script"; "object"; "embed"; "form"; "input"; "button"]%string;
     FORBID_ATTR := map lit ["onerror"; "onload"; "onclick"; "onmouseover"; "style"]%string;
     KEEP_CONTENT := true;
     RETURN_DOM := false;
     RETURN_DOM_FRAGMENT := false;
     RETURN_DOM_IMPORT := false;
     SANITIZE_DOM := true;
     WHOLE_DOCUMENT := false;
     FORCE_BODY := false |}.

(** [{ ...config, ALLOWED_TAGS: tags, ALLOWED_ATTR: attrs }] *)
Definition with_allowed (config : PurifyConfig) (tags attrs : list jsstring)
  : PurifyConfig :=
  {| ALLOWED_TAGS := tags;
     ALLOWED_ATTR := attrs;
     ALLOW_DATA_ATTR := ALLOW_DATA_ATTR config;
     FORBID_TAGS := FORBID_TAGS config;
     FORBID_ATTR := FORBID_ATTR config;
     KEEP_CONTENT := KEEP_CONTENT config;
     RETURN_DOM := RETURN_DOM config;
     RETURN_DOM_FRAGMENT := RETURN_DOM_FRAGMENT config;
     RETURN_DOM_IMPORT := RETURN_DOM_IMPORT config;
     SANITIZE_DOM := SANITIZE_DOM config;
     WHOLE_DOCUMENT := WHOLE_DOCUMENT config;
     FORCE_BODY := FORCE_BODY config |}.

(** The configuration [sanitizeUserInput] passes on. *)
Definition user_config : PurifyConfig :=
  with_allowed configureDOMPurify (map lit ["p"; "br"]%string) [].

(** [[\u0000-\u001F\u007F-\u009F]] *)
Definition is_control (c : N) : bool :=
  ((c <=? 31) || (127 <=? c) && (c <=? 159))%N.

Definition re_javascript : regex := Str (lit "javascript:").
Definition re_data : regex := Str (lit "data:").
Definition re_vbscript : regex := Str (lit "vbscript:").

(** First pass of [sanitizeUserInput]: trim, drop the control characters,
    then each of the three scheme names, one [replace] after the other. *)
Definition strip_schemes (input : jsstring) : jsstring :=
  replace_all true re_vbscript []
    (replace_all true re_data []
       (replace_all true re_javascript []
          (replace_all false (Cls is_control) [] (trim input)))).

Definition sanitizeUserInput `{DOMPurify} (input : jsstring) : jsstring :=
  match input with
  | [] => []
  | _ => sanitize (strip_schemes input) user_config
  end.

Definition not_lt (c : N) : bool := negb (c =? 60)%N.

(** The ten patterns of [detectXSSPatterns], all with the flags [gi]. *)
Definition re_script : regex :=
  seqs [Str (lit "<script"); Bound; Star (Cls not_lt);
        Star (seqs [NotAhead (Str (lit "</script>")); Chr 60; Star (Cls not_lt)]);
        Str (lit "</script>")].
Definition re_handler : regex :=
  seqs [Str (lit "on"); Plus (Cls is_word); Star (Cls is_space); Chr 61].
Definition re_iframe : regex := Seq (Str (lit "<iframe")) Bound.
Definition re_object : regex := Seq (Str (lit "<object")) Bound.
Definition re_embed : regex := Seq (Str (lit "<embed")) Bound.
Definition re_form : regex := Seq (Str (lit "<form")) Bound.
Definition re_expression : regex :=
  seqs [Str (lit "expression"); Star (Cls is_space); Chr 40].
Definition re_url : regex := seqs [Str (lit "url"); Star (Cls is_space); Chr 40].
Definition re_import : regex :=
  seqs [Str (lit "import"); Star (Cls is_space); Chr 40].

Definition xssPatterns : list regex :=
  [re_script; re_javascript; re_handler; re_iframe; re_object; re_embed;
   re_form; re_expression; re_url; re_import].

(** The patterns are literals of the function body, so every call tests them
    from [lastIndex] 0. *)
Definition detectXSSPatterns (content : jsstring) : bool :=
  match content with
  | [] => false
  | _ => existsb (fun pattern => test true pattern content) xssPatterns
  end.

(** ** Integrity of the stored record *)

(** One element of [data.messages] as the loop of [validateStorageData]
    judges it; reading a property of [null] throws, which the function
    catches and answers [false]. *)
Definition message_ok (message : json) : bool :=
  match message with
  | JNull => false
  | _ =>
      truthy_opt (get "id" message) && truthy_opt (get "timestamp" message)
      && truthy_opt (get "role" message) && is_string (get "content" message)
  end.

Definition validateStorageData (data : json) : bool :=
  match data with
  | JObj _ =>
      forallb (fun field => has_key field data) ["version"; "sessionId"; "messages"]%string
      && match get "messages" data with
         | Some (JArr messages) => forallb message_ok messages
         | _ => false
         end
  | _ => false   (* falsy, not an object, or an array: no required key *)
  end.

(** The own enumerable properties a spread copies from a value. *)
Fixpoint indexed (i : nat) (items : list json) : list (jsstring * json) :=
  match items with
  | [] => []
  | x :: rest => (decimal (Z.of_nat i), x) :: indexed (S i) rest
  end.

Definition spread (v : json) : list (jsstring * json) :=
  match v with
  | JObj fields => fields
  | JArr items => indexed 0 items
  | JStr s => indexed 0 (map (fun c => JStr [c]) s)
  | _ => []
  end.

(** [{ ...message, content: sanitizeUserInput(message.content) }]; [None]
    when reading [message.content] throws ([message] is [null]). *)
Definition sanitize_message `{DOMPurify} (message : json) : option json :=
  match message with
  | JNull => None
  | _ =>
      let content :=
        match get "content" message with
        | Some (JStr c) => sanitizeUserInput c
        | _ => []        (* not a string: [sanitizeUserInput] answers [''] *)
        end in
      Some (JObj (assign (lit "content") (JStr content) (spread message)))
  end.

Fixpoint map_throwing {A B} (f : A -> option B) (l : list A) : option (list B) :=
  match l with
  | [] => Some []
  | x :: rest =>
      match f x with
      | Some y =>
          match map_throwing f rest with
          | Some ys => Some (y :: ys)
          | None => None
          end
      | None => None
      end
  end.

(** [sanitizeStorageData]: [{ ...data, messages: data.messages?.map(...) || [] }];
    [None] is its [null], returned for a value that is no object and when
    the body throws. *)
Definition sanitizeStorageData `{DOMPurify} (data : json) : option json :=
  match data with
  | JObj fields =>
      match lookup (lit "messages") fields with
      | Some (JArr ms) =>
          match map_throwing sanitize_message ms with
          | Some ms' => Some (JObj (assign (lit "messages") (JArr ms') fields))
          | None => None
          end
      | None | Some JNull =>
          Some (JObj (assign (lit "messages") (JArr []) fields))
      | Some _ => None      (* no [map] method: the call throws *)
      end
  | JArr items =>
      Some (JObj (assign (lit "messages") (JArr []) (indexed 0 items)))
  | _ => None
  end.

End Sanitization.
Import Sanitization.

(* ================================================================== *)
(** * Input validation (services/InputValidator) *)
(* ================================================================== *)

Module InputValidator.

Record ValidationResult : Type := {
  isValid : bool;
  errors : list jsstring;
  warnings : list jsstring;
  characterCount : nat;
  canSend : bool
}.

Record InputValidator : Type := {
  maxLength : nat;
  warningThreshold : nat;
  criticalThreshold : nat
}.

(** [new InputValidator(maxLength = 4000)]; the thresholds are
    [Math.floor(maxLength * 0.875)] and [Math.floor(maxLength * 0.95)]
    (3500 and 3800 for the default; they only grade warnings). *)
Definition create (maxLength : nat) : InputValidator :=
  {| maxLength := maxLength;
     warningThreshold := maxLength * 875 / 1000;
     criticalThreshold := maxLength * 95 / 100 |}.

Definition default : InputValidator := create 4000.

Definition isEmpty (input : jsstring) : bool :=
  match input with
  | [] => true
  | _ => (length (trim input) =? 0)%nat
  end.

Definition isWhitespaceOnly (input : jsstring) : bool :=
  (0 <? length input)%nat && (length (trim input) =? 0)%nat.

Definition hasExcessiveWhitespace (input : jsstring) : bool :=
  if test false (AtLeast 4 (Cls is_space)) input then true
  else if test false (AtLeast 3 (Chr 10)) input then true
  else
    let whitespaceCount := count_matches false (Cls is_space) input in
    (* whitespaceCount / input.length > 0.3 *)
    (3 * length input <? 10 * whitespaceCount)%nat.

Definition hasVeryLongLines (input : jsstring) : bool :=
  existsb (fun line => (200 <? length line)%nat) (split 10 input).

Definition is_blank (c : N) : bool := ((c =? 32) || (c =? 9))%N.

Definition normalizeWhitespace (input : jsstring) : jsstring :=
  trim
    (join [10%N]
       (map trim
          (split 10
             (replace_all false (AtLeast 3 (Chr 10)) [10; 10]%N
                (replace_all false (Plus (Cls is_blank)) [32%N] input))))).

Definition count_of (n : nat) : jsstring := decimal (Z.of_nat n).

Definition validate (v : InputValidator) (input : jsstring) : ValidationResult :=
  match input with
  | [] =>
      {| isValid := false;
         errors := [lit "Input must be a valid string"];
         warnings := [];
         characterCount := 0;
         canSend := false |}
  | _ =>
      let characterCount := length input in
      let errors :=
        (if isEmpty input then [lit "Message cannot be empty"] else [])
        ++ (if (maxLength v <? characterCount)%nat
            then [lit "Message exceeds maximum length of "
                    ++ count_of (maxLength v) ++ lit " characters"]
            else [])
        ++ (if detectXSSPatterns input
            then [lit "Message contains potentially unsafe content"]
            else []) in
      let warnings :=
        (if (maxLength v <? characterCount)%nat then []
         else if (criticalThreshold v <=? characterCount)%nat
         then [lit "Approaching character limit (" ++ count_of characterCount
                 ++ lit "/" ++ count_of (maxLength v) ++ lit ")"]
         else if (warningThreshold v <=? characterCount)%nat
         then [lit "Character limit warning (" ++ count_of characterCount
                 ++ lit "/" ++ count_of (maxLength v) ++ lit ")"]
         else [])
        ++ (if hasExcessiveWhitespace input
            then [lit "Message contains excessive whitespace"] else [])
        ++ (if hasVeryLongLines input
            then [lit "Message contains very long lines that may be difficult to read"]
            else []) in
      let isValid := (length errors =? 0)%nat in
      {| isValid := isValid;
         errors := errors;
         warnings := warnings;
         characterCount := characterCount;
         canSend := isValid && negb (isEmpty input) |}
  end.

Definition canSendInput (v : InputValidator) (input : jsstring) : bool :=
  canSend (validate v input).

Definition prepareInput `{DOMPurify} (v : InputValidator) (input : jsstring)
  : jsstring :=
  match input with
  | [] => []
  | _ =>
      let prepared := normalizeWhitespace (sanitizeUserInput input) in
      if (maxLength v <? length prepared)%nat
      then trim (substring0 (maxLength v) prepared)
      else prepared
  end.

End InputValidator.

(* ================================================================== *)
(** * Errors and their classification (services/ErrorHandler) *)
(* ================================================================== *)

Module Errors.

(** What a [catch] clause can receive: an [Error] object (with the [status]
    the API client may have bolted on) or any other thrown value. *)
Record JsError : Type := {
  name : jsstring;
  message : jsstring;
  status : option Z
}.

Inductive thrown : Type :=
| ErrorObject (e : JsError)
| OtherValue.

Definition plain_error (msg : jsstring) : JsError :=
  {| name := lit "Error"; message := msg; status := None |}.

Inductive ErrorType : Type := network | timeout | server | validation | storage.

Record ErrorState : Type := {
  type : ErrorType;
  text : jsstring;                  (* the field [message] *)
  code : option jsstring;
  timestamp : Z;
  retryable : bool
}.

Definition is_abort (e : JsError) : bool := str_eqb (name e) (lit "AbortError").

(** [status >= 400 && status < 500] *)
Definition is_client_status (st : Z) : bool := ((400 <=? st) && (st <? 500))%Z.

Definition createErrorState (now : Z) (error : thrown) : ErrorState :=
  match error with
  | OtherValue =>
      {| type := network; text := lit "Une erreur inattendue s'est produite";
         code := None; timestamp := now; retryable := true |}
  | ErrorObject e =>
      let m := message e in
      if is_abort e then
        {| type := network; text := lit "Requête annulée";
           code := None; timestamp := now; retryable := false |}
      else if includes m (lit "timeout") || includes m (lit "Request timeout") then
        {| type := timeout; text := lit "La demande a pris trop de temps";
           code := None; timestamp := now; retryable := true |}
      else if includes m (lit "Network error") || includes m (lit "fetch") then
        {| type := network; text := lit "Problème de connexion réseau";
           code := None; timestamp := now; retryable := true |}
      else if includes m (lit "validation") || includes m (lit "invalid") then
        {| type := validation; text := lit "Données invalides";
           code := None; timestamp := now; retryable := false |}
      else if includes m (lit "storage") || includes m (lit "localStorage") then
        {| type := storage; text := lit "Erreur de stockage local";
           code := None; timestamp := now; retryable := false |}
      else
        match status e with
        | Some st =>
            let '(msg, retry) :=
              if is_client_status st then
                if (st =? 401)%Z then (lit "Authentification requise", false)
                else if (st =? 403)%Z then (lit "Accès non autorisé", false)
                else if (st =? 404)%Z then (lit "Service non trouvé", false)
                else if (st =? 429)%Z
                then (lit "Trop de demandes, veuillez patienter", true)
                else (lit "Erreur de requête", false)
              else if (500 <=? st)%Z then (lit "Erreur du serveur EME", true)
              else (m, true) in
            {| type := server; text := msg; code := Some (decimal st);
               timestamp := now; retryable := retry |}
        | None =>
            {| type := network; text := m; code := None;
               timestamp := now; retryable := true |}
        end
  end.

Definition baseMessages (ty : ErrorType) : jsstring :=
  match ty with
  | network => lit "Problème de connexion. Vérifiez votre réseau et réessayez."
  | timeout => lit "La demande a pris trop de temps. Veuillez réessayer."
  | server =>
      lit "Service EME temporairement indisponible. Réessayez dans quelques instants."
  | validation =>
      lit "Votre message contient des données invalides. Veuillez le modifier."
  | storage =>
      lit "Problème de stockage local. Votre historique pourrait ne pas être sauvegardé."
  end.

Definition code_is (st : ErrorState) (c : string) : bool :=
  match code st with Some x => str_eqb x (lit c) | None => false end.

Definition nl2 : jsstring := [10; 10]%N.

Definition getUserFriendlyMessage (st : ErrorState) : jsstring :=
  let message0 := baseMessages (type st) in
  let message1 :=
    match type st with
    | network =>
        message0 ++ nl2 ++ lit "💡 Vérifiez votre connexion internet et réessayez."
    | timeout =>
        message0 ++ nl2
        ++ lit "💡 Le service EME met plus de temps que d'habitude à répondre."
    | server =>
        (if code_is st "429"
         then lit "Trop de demandes simultanées. Attendez quelques secondes avant de réessayer."
         else if code_is st "503"
         then lit "Service EME en maintenance. Réessayez dans quelques minutes."
         else message0)
        ++ nl2 ++ lit "💡 Si le problème persiste, contactez le support EME."
    | validation =>
        message0 ++ nl2
        ++ lit "💡 Vérifiez que votre message ne contient pas de caractères spéciaux."
    | storage =>
        message0 ++ nl2
        ++ lit "💡 Libérez de l'espace de stockage ou utilisez un navigateur récent."
    end in
  if retryable st
  then message1 ++ nl2 ++ lit "🔄 Vous pouvez réessayer votre demande."
  else message1.

(** ** The handler object: its log *)

Record ErrorHandler : Type := {
  errorLog : list ErrorState;
  maxLogSize : nat
}.

Definition create : ErrorHandler := {| errorLog := []; maxLogSize := 100 |}.

(** [logError]: push, then keep the last [maxLogSize] entries.  The console
    and beacon reports leave the handler untouched. *)
Definition logError (st : ErrorState) (h : ErrorHandler) : ErrorHandler :=
  let pushed := errorLog h ++ [st] in
  {| errorLog :=
       if (maxLogSize h <? length pushed)%nat
       then slice_last (maxLogSize h) pushed
       else pushed;
     maxLogSize := maxLogSize h |}.

Definition handleChatError (now : Z) (error : thrown) (h : ErrorHandler)
  : jsstring * ErrorHandler :=
  let errorState := createErrorState now error in
  (getUserFriendlyMessage errorState, logError errorState h).

Definition handleValidationError (now : Z) (field msg : jsstring) (h : ErrorHandler)
  : jsstring * ErrorHandler :=
  let errorState :=
    {| type := validation;
       text := lit "Erreur de validation: " ++ field ++ lit " - " ++ msg;
       code := None; timestamp := now; retryable := false |} in
  (lit "Erreur dans le champ " ++ [34%N] ++ field ++ [34%N] ++ lit ": " ++ msg,
   logError errorState h).

Definition handleStorageError (now : Z) (operation : jsstring) (h : ErrorHandler)
  : jsstring * ErrorHandler :=
  let errorState :=
    {| type := storage;
       text := lit "Erreur de stockage lors de: " ++ operation;
       code := None; timestamp := now; retryable := false |} in
  (if str_eqb operation (lit "save")
   then lit "Impossible de sauvegarder la conversation. Votre historique pourrait être perdu."
   else if str_eqb operation (lit "load")
   then lit "Impossible de charger l'historique précédent. Une nouvelle session a été créée."
   else lit "Problème de stockage local détecté.",
   logError errorState h).

Definition handleConnectivityError (now : Z) (isOnline : bool) (h : ErrorHandler)
  : jsstring * ErrorHandler :=
  if isOnline then (lit "Connexion internet rétablie.", h)
  else
    let errorState :=
      {| type := network; text := lit "Connexion internet perdue";
         code := None; timestamp := now; retryable := true |} in
    (lit "Connexion internet perdue. Vos messages seront envoyés une fois la connexion rétablie.",
     logError errorState h).

Definition clearErrorLog (h : ErrorHandler) : ErrorHandler :=
  {| errorLog := []; maxLogSize := maxLogSize h |}.

Definition type_eqb (a b : ErrorType) : bool :=
  match a, b with
  | network, network | timeout, timeout | server, server
  | validation, validation | storage, storage => true
  | _, _ => false
  end.

Record ErrorStats : Type := {
  total : nat;
  byType : ErrorType -> nat;
  recent : nat
}.

Definition getErrorStats (now : Z) (h : ErrorHandler) : ErrorStats :=
  let oneHourAgo := (now - 60 * 60 * 1000)%Z in
  {| total := length (errorLog h);
     byType := fun ty => length (filter (fun e => type_eqb (type e) ty) (errorLog h));
     recent := length (filter (fun e => (oneHourAgo <? timestamp e)%Z) (errorLog h)) |}.

Definition type_name (ty : ErrorType) : jsstring :=
  match ty with
  | network => lit "network" | timeout => lit "timeout" | server => lit "server"
  | validation => lit "validation" | storage => lit "storage"
  end.

(** The array [exportErrorLog] hands to [JSON.stringify]: every entry of the
    log with its timestamp rewritten by [toISOString] (the calendar
    conversion of the platform, taken as given). *)
Definition exportErrorLog (toISOString : Z -> jsstring) (h : ErrorHandler) : json :=
  JArr (map (fun e =>
               JObj ([(lit "type", JStr (type_name (type e)));
                      (lit "message", JStr (text e))]
                     ++ match code e with
                        | Some c => [(lit "code", JStr c)]
                        | None => []
                        end
                     ++ [(lit "timestamp", JStr (toISOString (timestamp e)));
                         (lit "retryable", JBool (retryable e))]))
            (errorLog h)).

Definition isRetryable (now : Z) (error : thrown) : bool :=
  retryable (createErrorState now error).

End Errors.

(* ================================================================== *)
(** * The chat API client (services/ChatAPI) *)
(* ================================================================== *)

Module ChatAPI.
Import Errors.

Record ChatAPIConfig : Type := {
  baseUrl : jsstring;
  timeout_ms : Z;
  maxRetries : nat
}.

(** What [response.json()] settles with. *)
Inductive body_result : Type :=
| Parsed (data : json)
| Unreadable (error_name error_message : jsstring).   (* it rejects *)

(** What the platform does with one [fetch] raced against the timer. *)
Record Response : Type := {
  resp_status : Z;
  statusText : jsstring;
  body : body_result
}.

Inductive net_result : Type :=
| NetResponse (r : Response)
| NetTimeout                          (* the timer settles first *)
| NetTypeError (msg : jsstring)       (* [fetch] rejects with a [TypeError] *)
| NetAbort (msg : jsstring).          (* [fetch] rejects: the signal was aborted *)

Inductive result (A : Type) : Type :=
| Returned (a : A)
| Thrown (e : JsError).
Arguments Returned {A} a.
Arguments Thrown {A} e.

(** [response.ok] *)
Definition ok (r : Response) : bool :=
  ((200 <=? resp_status r) && (resp_status r <=? 299))%Z.

Definition typeof_string (o : option json) : bool :=
  match o with Some (JStr _) => true | _ => false end.
Definition typeof_number (o : option json) : bool :=
  match o with Some (JNum _) => true | _ => false end.
(** [typeof x === 'object']: objects, arrays and [null]. *)
Definition typeof_object (o : option json) : bool :=
  match o with Some (JObj _) | Some (JArr _) | Some JNull => true | _ => false end.

Definition isValidResponse (data : json) : bool :=
  match data with
  | JObj _ | JArr _ =>
      typeof_string (get "response" data) && typeof_string (get "requestId" data)
      && typeof_number (get "processingTime" data)
      && typeof_object (get "metadata" data)
  | _ => false
  end.

(** [String(v)], which [new Error(v)] applies to its argument. *)
Fixpoint to_text (v : json) : jsstring :=
  match v with
  | JNull => lit "null"
  | JBool true => lit "true"
  | JBool false => lit "false"
  | JNum z => decimal z
  | JStr s => s
  | JArr items =>
      join [44%N]
        (map (fun x => match x with JNull => [] | _ => to_text x end) items)
  | JObj _ => lit "[object Object]"
  end.

(** The [message] of [parseErrorResponse]:
    [data.error || data.message || 'Unknown server error'], or the generic
    line when the body cannot be read (or is [null], whose properties cannot
    be). *)
Definition parseErrorResponse (r : Response) : json :=
  match body r with
  | Parsed JNull | Unreadable _ _ =>
      JStr (lit "Server error: " ++ decimal (resp_status r) ++ lit " " ++ statusText r)
  | Parsed data =>
      or_else (get "error" data)
        (or_else (get "message" data) (JStr (lit "Unknown server error")))
  end.

(** The message of the error thrown for a response that is not [ok]:
    [errorData.message || `HTTP ${status}: ${statusText}`]. *)
Definition http_error_message (r : Response) : jsstring :=
  let m := parseErrorResponse r in
  to_text (if truthy m then m
           else JStr (lit "HTTP " ++ decimal (resp_status r) ++ lit ": "
                      ++ statusText r)).

(** The [catch] block of [makeRequest]. *)
Definition rethrow (e : JsError) : JsError :=
  if str_eqb (name e) (lit "TypeError") && includes (message e) (lit "fetch")
  then plain_error (lit "Network error: Unable to connect to EME services")
  else if str_eqb (message e) (lit "Request timeout")
  then plain_error (lit "Request timed out. Please try again.")
  else e.

Definition makeRequest (net : net_result) : result json :=
  match net with
  | NetTimeout => Thrown (rethrow (plain_error (lit "Request timeout")))
  | NetTypeError msg =>
      Thrown (rethrow {| name := lit "TypeError"; message := msg; status := None |})
  | NetAbort msg =>
      Thrown (rethrow {| name := lit "AbortError"; message := msg; status := None |})
  | NetResponse r =>
      if negb (ok r) then
        Thrown (rethrow {| name := lit "Error"; message := http_error_message r;
                           status := Some (resp_status r) |})
      else
        match body r with
        | Unreadable n m =>
            Thrown (rethrow {| name := n; message := m; status := None |})
        | Parsed data =>
            if isValidResponse data then Returned data
            else Thrown (rethrow (plain_error (lit "Invalid response format from server")))
        end
  end.

(** What [sendMessage] does, in order. *)
Inductive event : Type :=
| Attempt (n : nat)
| Wait (ms : Z).

(** [Math.min(1000 * Math.pow(2, attempt - 1), 10000)] *)
Definition backoff (attempt : nat) : Z :=
  Z.min (1000 * 2 ^ (Z.of_nat attempt - 1)) 10000.

(** The retry loop of [sendMessage], from [attempt] with [remaining] turns
    left; [net n] is what the platform answers to the [n]-th request. *)
Fixpoint attempts (config : ChatAPIConfig) (net : nat -> net_result)
    (remaining attempt : nat) (lastError : option JsError)
  : result json * list event :=
  match remaining with
  | O =>
      (Thrown match lastError with
              | Some e => e
              | None => plain_error (lit "Failed to send message after retries")
              end, [])
  | S remaining' =>
      match makeRequest (net attempt) with
      | Returned response => (Returned response, [Attempt attempt])
      | Thrown error =>
          if is_abort error then (Thrown error, [Attempt attempt])
          else if match status error with
                  | Some st => is_client_status st
                  | None => false
                  end
          then (Thrown error, [Attempt attempt])
          else
            let wait :=
              if (attempt <? maxRetries config)%nat then [Wait (backoff attempt)]
              else [] in
            let (r, rest) :=
              attempts config net remaining' (S attempt) (Some error) in
            (r, Attempt attempt :: wait ++ rest)
      end
  end.

Definition sendMessage (config : ChatAPIConfig) (net : nat -> net_result)
  : result json * list event :=
  attempts config net (maxRetries config) 1 None.

Definition attempts_made (trace : list event) : nat :=
  length (filter (fun ev => match ev with Attempt _ => true | Wait _ => false end) trace).

Definition waits (trace : list event) : list Z :=
  flat_map (fun ev => match ev with Wait ms => [ms] | Attempt _ => [] end) trace.

End ChatAPI.

(* ================================================================== *)
(** * The platform: [localStorage], the clock, [uuidv4] *)
(* ================================================================== *)

Module Platform.

(** The text kept under the storage key, together with what [JSON.parse]
    makes of it ([None]: it throws; a text that parses is not empty).
    [JSON.parse (JSON.stringify v)] is [v] for the values of [json]. *)
Record item : Type := {
  item_text : jsstring;
  parsed : option json
}.

Definition stringify (v : json) : item :=
  {| item_text := JSON_stringify v; parsed := Some v |}.

Record World : Type := {
  storage : option item;       (* the one key of this program *)
  quota : N;                   (* longest text a write accepts *)
  clock : Z;                   (* [Date.now()] *)
  uuids : nat -> jsstring;     (* the values [uuidv4()] returns, in order *)
  uuid_next : nat;
  reduced_motion : bool;       (* [prefers-reduced-motion: reduce] matches *)
  userAgent : jsstring         (* [navigator.userAgent] *)
}.

Definition with_storage (s : option item) (w : World) : World :=
  {| storage := s; quota := quota w; clock := clock w; uuids := uuids w;
     uuid_next := uuid_next w; reduced_motion := reduced_motion w;
     userAgent := userAgent w |}.

(** Computations that read and change the platform. *)
Definition M (A : Type) : Type := World -> A * World.

Definition ret {A} (a : A) : M A := fun w => (a, w).
Definition bind {A B} (c : M A) (k : A -> M B) : M B :=
  fun w => let (a, w') := c w in k a w'.

Declare Scope js_scope.
Delimit Scope js_scope with js.
Notation "x <- c ;; k" := (bind c (fun x => k))
  (at level 61, c at next level, right associativity) : js_scope.
Notation "c ;;; k" := (bind c (fun _ => k))
  (at level 61, right associativity) : js_scope.

Definition getItem : M (option item) := fun w => (storage w, w).

(** [localStorage.setItem]: [false] when it throws (the quota is exceeded). *)
Definition setItem (it : item) : M bool :=
  fun w =>
    if (N.of_nat (length (item_text it)) <=? quota w)%N
    then (true, with_storage (Some it) w)
    else (false, w).

Definition removeItem : M unit := fun w => (tt, with_storage None w).

Definition Date_now : M Z := fun w => (clock w, w).

Definition uuidv4 : M jsstring :=
  fun w =>
    (uuids w (uuid_next w),
     {| storage := storage w; quota := quota w; clock := clock w;
        uuids := uuids w; uuid_next := S (uuid_next w);
        reduced_motion := reduced_motion w; userAgent := userAgent w |}).

Definition prefersReducedMotion : M bool := fun w => (reduced_motion w, w).

Definition navigator_userAgent : M jsstring := fun w => (userAgent w, w).

(** Time passing between two events. *)
Definition advance_clock (now : Z) : M unit :=
  fun w =>
    (tt, {| storage := storage w; quota := quota w; clock := now;
            uuids := uuids w; uuid_next := uuid_next w;
            reduced_motion := reduced_motion w; userAgent := userAgent w |}).

End Platform.
Import Platform.

(* ================================================================== *)
(** * The storage manager (services/StorageManager) *)
(* ================================================================== *)

Module StorageManager.
Local Open Scope js_scope.

Inductive MessageRole : Type := user | assistant | system | error.

Definition role_name (r : MessageRole) : jsstring :=
  match r with
  | user => lit "user" | assistant => lit "assistant"
  | system => lit "system" | error => lit "error"
  end.

(** A message as the interfaces of the program type it. *)
Record ChatMessage : Type := {
  id : jsstring;
  timestamp : Z;
  role : MessageRole;
  content : jsstring;
  metadata : option json
}.

(** The object such a message is at run time. *)
Definition message_json (m : ChatMessage) : json :=
  JObj ([(lit "id", JStr (id m)); (lit "timestamp", JNum (timestamp m));
         (lit "role", JStr (role_name (role m)));
         (lit "content", JStr (content m))]
        ++ match metadata m with
           | Some md => [(lit "metadata", md)]
           | None => []
           end).

(** The session in memory.  Its fields hold the values the program put
    there or read back from the store. *)
Record ChatState : Type := {
  messages : list json;
  sessionId : json;
  lastActivity : json;
  version : jsstring;
  userPreferences : json
}.

Definition currentVersion : jsstring := lit "1.0".
Definition maxStorageSize : N := 5 * 1024 * 1024.

Definition generateSessionId : M jsstring := uuidv4.

Definition default_preferences (reduce : bool) : json :=
  JObj [(lit "theme", JStr (lit "light"));
        (lit "fontSize", JStr (lit "medium"));
        (lit "autoScroll", JBool true);
        (lit "soundEnabled", JBool false);
        (lit "animationsEnabled", JBool (negb reduce));
        (lit "language", JStr (lit "fr"));
        (lit "accessibilityMode", JBool false)].

Definition getDefaultPreferences : M json :=
  reduce <- prefersReducedMotion ;;
  ret (default_preferences reduce).

Definition createInitialState : M ChatState :=
  sid <- generateSessionId ;;
  now <- Date_now ;;
  prefs <- getDefaultPreferences ;;
  ret {| messages := []; sessionId := JStr sid; lastActivity := JNum now;
         version := currentVersion; userPreferences := prefs |}.

Definition clearChat : M unit := removeItem.

(** [stored ? JSON.parse(stored) : null], [null] too when parsing throws. *)
Definition getStoredData : M (option json) :=
  stored <- getItem ;;
  ret match stored with
      | Some it => match item_text it with [] => None | _ => parsed it end
      | None => None
      end.

(** [msg.content.length] for a message of the session: its content is a
    string, as the program creates it and as [validateStorageData] demands
    of what it loads.  [None]: the read throws. *)
Definition content_length (msg : json) : option Z :=
  match get "content" msg with
  | Some (JStr s) => Some (Z.of_nat (length s))
  | _ => None
  end.

Fixpoint totalCharacters (msgs : list json) : option Z :=
  match msgs with
  | [] => Some 0%Z
  | m :: rest =>
      match content_length m, totalCharacters rest with
      | Some n, Some k => Some (n + k)%Z
      | _, _ => None
      end
  end.

Definition role_is (msg : json) (r : MessageRole) : bool :=
  match get "role" msg with
  | Some (JStr s) => str_eqb s (role_name r)
  | _ => false
  end.

Definition timestamp_of (msg : json) : option Z :=
  match get "timestamp" msg with Some (JNum z) => Some z | _ => None end.

(** The response times [calculateAverageResponseTime] collects: for each
    user message directly followed by an assistant message, the difference
    of their timestamps when it lies strictly between 0 and a minute. *)
Fixpoint responseTimes (msgs : list json) : list Z :=
  match msgs with
  | prevMessage :: (currentMessage :: _) as rest =>
      (if role_is prevMessage user && role_is currentMessage assistant then
         match timestamp_of currentMessage, timestamp_of prevMessage with
         | Some c, Some p =>
             let responseTime := (c - p)%Z in
             if ((0 <? responseTime) && (responseTime <? 60000))%Z
             then [responseTime] else []
         | _, _ => []
         end
       else [])
      ++ responseTimes rest
  | _ => []
  end.

(** The average, cut to its integer part. *)
Definition calculateAverageResponseTime (msgs : list json) : Z :=
  match responseTimes msgs with
  | [] => 0
  | times => (fold_left Z.add times 0 / Z.of_nat (length times))%Z
  end.

Definition messages_of (data : json) : list json :=
  match get "messages" data with
  | Some (JArr ms) => ms
  | _ => []
  end.

(** [cleanOldMessages]: keep the last 50 messages, recount. *)
Definition cleanOldMessages (data : json) : option json :=
  match data with
  | JObj fields =>
      let ms := messages_of data in
      let ms := if (50 <? length ms)%nat then slice_last 50 ms else ms in
      match totalCharacters ms, lookup (lit "metadata") fields with
      | Some chars, Some (JObj md) =>
          Some (JObj (assign (lit "metadata")
                        (JObj (assign (lit "totalCharacters") (JNum chars)
                                 (assign (lit "totalMessages")
                                    (JNum (Z.of_nat (length ms))) md)))
                        (assign (lit "messages") (JArr ms) fields)))
      | _, _ => None
      end
  | _ => None
  end.

(** The shape of the stored record. *)
Definition record (version sessionId created lastModified messages
                     userPreferences metadata : json) : json :=
  JObj [(lit "version", version);
        (lit "sessionId", sessionId);
        (lit "created", created);
        (lit "lastModified", lastModified);
        (lit "messages", messages);
        (lit "userPreferences", userPreferences);
        (lit "metadata", metadata)].

Definition summary (msgs : list json) (chars : Z) : json :=
  JObj [(lit "totalMessages", JNum (Z.of_nat (length msgs)));
        (lit "totalCharacters", JNum chars);
        (lit "averageResponseTime", JNum (calculateAverageResponseTime msgs))].

(** [this.getStoredData()?.created || Date.now()] *)
Definition created_or (stored : option json) (now : Z) : json :=
  or_else match stored with
          | Some d => get "created" d
          | None => None
          end (JNum now).

(** The record [saveChat] builds; [None] when counting the characters
    throws. *)
Definition build_record (state : ChatState) (stored : option json) (now : Z)
  : option json :=
  match totalCharacters (messages state) with
  | None => None
  | Some chars =>
      Some (record (JStr currentVersion) (sessionId state)
              (created_or stored now) (JNum now)
              (JArr (messages state)) (userPreferences state)
              (summary (messages state) chars))
  end.

(** [serialized.length > this.maxStorageSize] *)
Definition exceeds (data : json) : bool :=
  (maxStorageSize <? N.of_nat (length (JSON_stringify data)))%N.

Definition saveChat `{DOMPurify} (state : ChatState) : M bool :=
  stored <- getStoredData ;;
  now <- Date_now ;;
  match build_record state stored now with
  | None => ret false
  | Some data =>
      match sanitizeStorageData data with
      | None => ret false
      | Some sanitizedData =>
          if exceeds sanitizedData then
            match cleanOldMessages sanitizedData with
            | Some cleaned => setItem (stringify cleaned)
            | None => ret false
            end
          else setItem (stringify sanitizedData)
      end
  end.

Definition content_length_or_0 (msg : json) : Z :=
  match get "content" msg with
  | Some (JStr s) => Z.of_nat (length s)
  | _ => 0
  end.

(** [o || c()]: the right operand runs only when the left one is falsy. *)
Definition or_compute (o : option json) (c : M json) : M json :=
  match o with
  | Some v => if truthy v then ret v else c
  | None => c
  end.

Definition new_session_id : M json := s <- generateSessionId ;; ret (JStr s).
Definition now_number : M json := n <- Date_now ;; ret (JNum n).

(** A message whose [content] the sum of [migrateData] can count: it is not
    [null] and its [content] is a string, or has no [length] at all (it is
    missing, [null], a number or a boolean) and counts for 0. *)
Definition countable (msg : json) : bool :=
  match msg with
  | JNull => false
  | _ =>
      match get "content" msg with
      | Some (JArr _) | Some (JObj _) => false
      | _ => true
      end
  end.

(** The records [migrateData] can rewrite without throwing: the record is not
    [null] and its [messages], if truthy, are an array of such messages.
    ([loadChat] calls [migrateData] after [validateStorageData] only, so on
    such records.) *)
Definition migratable (data : json) : bool :=
  match data with
  | JNull => false
  | _ =>
      match get "messages" data with
      | Some (JArr ms) => forallb countable ms
      | Some v => negb (truthy v)
      | None => true
      end
  end.

(** The record written for data that has no version, [data] being
    [migratable]. *)
Definition migrated (data sid created prefs : json) (now : Z) : json :=
  record (JStr currentVersion) sid created (JNum now)
    (JArr (messages_of data)) prefs
    (JObj [(lit "totalMessages", JNum (Z.of_nat (length (messages_of data))));
           (lit "totalCharacters",
            JNum (fold_left (fun sum msg => sum + content_length_or_0 msg)%Z
                    (messages_of data) 0%Z));
           (lit "averageResponseTime", JNum 0)]).

Definition is_current (data : json) : bool :=
  match get "version" data with
  | Some (JStr s) => str_eqb s currentVersion
  | _ => false
  end.

(** [migrateData], for the records it is called on (a record with a truthy
    version is returned as it is; one without is rebuilt, which takes a
    [migratable] record); a write that throws is logged and nothing more. *)
Definition migrateData (data : json) : M json :=
  if negb (truthy_opt (get "version" data)) || negb (is_current data) then
    data' <-
      (if negb (truthy_opt (get "version" data)) then
         sid <- or_compute (get "sessionId" data) new_session_id ;;
         created <- or_compute (get "created" data) now_number ;;
         now <- Date_now ;;
         prefs <- or_compute (get "userPreferences" data) getDefaultPreferences ;;
         ret (migrated data sid created prefs now)
       else ret data) ;;
    setItem (stringify data') ;;;
    ret data'
  else ret data.

(** [loadChat]; [None] is its [null]. *)
Definition loadChat : M (option ChatState) :=
  stored <- getItem ;;
  match stored with
  | None => ret None
  | Some it =>
      match item_text it with
      | [] => ret None
      | _ =>
          match parsed it with
          | None => clearChat ;;; ret None         (* [JSON.parse] throws *)
          | Some data =>
              if negb (validateStorageData data)
              then clearChat ;;; ret None
              else
                migratedData <- migrateData data ;;
                sid <- or_compute (get "sessionId" migratedData) new_session_id ;;
                last <- or_compute (get "lastModified" migratedData) now_number ;;
                prefs <- or_compute (get "userPreferences" migratedData)
                           getDefaultPreferences ;;
                ret (Some {| messages := messages_of migratedData;
                             sessionId := sid;
                             lastActivity := last;
                             version := currentVersion;
                             userPreferences := prefs |})
          end
      end
  end.

End StorageManager.

(* ================================================================== *)
(** * The container (components/ChatbotContainer) *)
(* ================================================================== *)

Module ChatbotContainer.
Import Errors ChatAPI StorageManager.
Local Open Scope js_scope.

(** A call of [chatAPI.sendMessage] that has not settled yet, with the
    state of the [AbortController] it was started under. *)
Record Pending : Type := {
  request : json;
  aborted : bool
}.

Record Container : Type := {
  chatState : ChatState;
  isLoading : bool;
  shown : list json;            (* the bubbles of the message container *)
  inflight : list Pending;
  errorHandler : ErrorHandler;
  api_config : ChatAPIConfig
}.

Definition set_state (s : ChatState) (c : Container) : Container :=
  {| chatState := s; isLoading := isLoading c; shown := shown c;
     inflight := inflight c; errorHandler := errorHandler c;
     api_config := api_config c |}.

Definition setLoading (loading : bool) (c : Container) : Container :=
  {| chatState := chatState c; isLoading := loading; shown := shown c;
     inflight := inflight c; errorHandler := errorHandler c;
     api_config := api_config c |}.

Definition loadInitialState : M ChatState :=
  stored <- loadChat ;;
  match stored with
  | Some s => ret s
  | None => createInitialState
  end.

(** [new ChatbotContainer(config)]: [maxRetries || 3], [requestTimeout || 30000]. *)
Definition create (apiUrl : jsstring) (maxRetries : nat) (requestTimeout : Z)
  : M Container :=
  s <- loadInitialState ;;
  ret {| chatState := s; isLoading := false; shown := []; inflight := [];
         errorHandler := Errors.create;
         api_config :=
           {| baseUrl := apiUrl;
              timeout_ms := if (requestTimeout =? 0)%Z then 30000%Z else requestTimeout;
              maxRetries := match maxRetries with O => 3 | n => n end |} |}.

Definition addMessage `{DOMPurify} (message : json) (c : Container) : M Container :=
  now <- Date_now ;;
  let s := chatState c in
  let s' := {| messages := messages s ++ [message];
               sessionId := sessionId s;
               lastActivity := JNum now;
               version := version s;
               userPreferences := userPreferences s |} in
  saveChat s' ;;;
  ret {| chatState := s'; isLoading := isLoading c;
         shown := shown c ++ [message]; inflight := inflight c;
         errorHandler := errorHandler c; api_config := api_config c |}.

Definition welcome_text : jsstring :=
  lit "Bonjour ! Je suis l'assistant numérique d'Extended Monaco Entreprises (EME).

Je peux vous aider avec :
• **Diagnostics de maturité numérique** - Évaluez la maturité digitale de votre entreprise
• **Annuaire professionnel** - Trouvez des prestataires certifiés
• **Opportunités de financement** - Découvrez les aides disponibles
• **FlashLearn IA 2026** - Informations sur notre programme d'intégration IA

Comment puis-je vous aider aujourd'hui ?".

Definition new_message (r : MessageRole) (text : jsstring) (md : option json)
  : M json :=
  i <- uuidv4 ;;
  now <- Date_now ;;
  ret (message_json {| id := i; timestamp := now; role := r; content := text;
                       metadata := md |}).

Definition showWelcomeMessage `{DOMPurify} (c : Container) : M Container :=
  m <- new_message assistant welcome_text None ;;
  addMessage m c.

Definition showSystemMessage `{DOMPurify} (text : jsstring) (r : MessageRole)
    (c : Container) : M Container :=
  m <- new_message r text None ;;
  addMessage m c.

(** [initialize]: the stored conversation is shown again; a new session is
    greeted. *)
Definition initialize `{DOMPurify} (c : Container) : M Container :=
  let c := {| chatState := chatState c; isLoading := isLoading c;
              shown := shown c ++ messages (chatState c);
              inflight := inflight c; errorHandler := errorHandler c;
              api_config := api_config c |} in
  match messages (chatState c) with
  | [] => showWelcomeMessage c
  | _ => ret c
  end.

Definition getRecentMessages (count : nat) (c : Container) : list json :=
  slice_last count (messages (chatState c)).

(** The request handed to [chatAPI.sendMessage]. *)
Definition build_request (trimmed : jsstring) (c : Container) (now : Z)
    (agent : jsstring) : json :=
  JObj [(lit "message", JStr trimmed);
        (lit "sessionId", sessionId (chatState c));
        (lit "context",
         JObj [(lit "userType", JStr (lit "business"));
               (lit "previousMessages", JArr (getRecentMessages 5 c));
               (lit "language", JStr (lit "fr"))]);
        (lit "metadata",
         JObj [(lit "clientVersion", JStr (lit "1.0.0"));
               (lit "timestamp", JNum now);
               (lit "userAgent", JStr agent)])].

(** [handleUserMessage] up to its [await]: the guard, the user's message,
    the loading state, and the call of [sendMessage], which aborts the
    controller of the call before it and starts its own. *)
Definition handleUserMessage `{DOMPurify} (message : jsstring) (c : Container)
  : M Container :=
  match trim message with
  | [] => ret c
  | trimmed =>
      if isLoading c then ret c
      else
        (* the production branch: [import.meta.env.DEV] is false *)
        userMessage <- new_message user trimmed None ;;
        c <- addMessage userMessage c ;;
        let c := setLoading true c in
        now <- Date_now ;;
        agent <- navigator_userAgent ;;
        let req := build_request trimmed c now agent in
        ret {| chatState := chatState c; isLoading := isLoading c;
               shown := shown c;
               inflight :=
                 map (fun p => {| request := request p; aborted := true |})
                     (inflight c)
                 ++ [{| request := req; aborted := false |}];
               errorHandler := errorHandler c; api_config := api_config c |}
  end.

Definition response_metadata (response : json) : json :=
  JObj (flat_map (fun k => match get k response with
                           | Some v => [(lit k, v)]
                           | None => []
                           end)
                 ["requestId"; "processingTime"; "confidence"; "sources"]%string).

Definition response_text (response : json) : jsstring :=
  match get "response" response with Some (JStr s) => s | _ => [] end.

(** [handleUserMessage] from its [await] on: the reply becomes an assistant
    message, a failure an error message; either way loading ends. *)
Definition resume `{DOMPurify} (r : result json) (c : Container) : M Container :=
  c <- match r with
       | Returned response =>
           m <- new_message assistant (response_text response)
                  (Some (response_metadata response)) ;;
           addMessage m c
       | Thrown e =>
           now <- Date_now ;;
           let (errorMessage, h) :=
             handleChatError now (ErrorObject e) (errorHandler c) in
           let c := {| chatState := chatState c; isLoading := isLoading c;
                       shown := shown c; inflight := inflight c;
                       errorHandler := h; api_config := api_config c |} in
           showSystemMessage errorMessage error c
       end ;;
  ret (setLoading false c).

Definition abort_error : JsError :=
  {| name := lit "AbortError"; message := lit "The user aborted a request.";
     status := None |}.

Fixpoint remove_nth {A} (n : nat) (l : list A) : list A :=
  match n, l with
  | _, [] => []
  | O, _ :: t => t
  | S n', x :: t => x :: remove_nth n' t
  end.

(** The [n]-th pending call settles: with what [sendMessage] makes of the
    platform's answers, or with the abort error if its controller was
    aborted meanwhile. *)
Definition settle `{DOMPurify} (n : nat) (net : nat -> net_result) (c : Container)
  : M Container :=
  match nth_error (inflight c) n with
  | None => ret c
  | Some p =>
      let r := if aborted p then Thrown abort_error
               else fst (sendMessage (api_config c) net) in
      resume r {| chatState := chatState c; isLoading := isLoading c;
                  shown := shown c; inflight := remove_nth n (inflight c);
                  errorHandler := errorHandler c; api_config := api_config c |}
  end.

Definition handleClearChat `{DOMPurify} (confirmed : bool) (c : Container)
  : M Container :=
  if confirmed then
    clearChat ;;;
    s <- createInitialState ;;
    showWelcomeMessage
      {| chatState := s; isLoading := isLoading c; shown := [];
         inflight := inflight c; errorHandler := errorHandler c;
         api_config := api_config c |}
  else ret c.

(** What can happen to a container. *)
Inductive event : Type :=
| Submit (text : jsstring)
| Settle (n : nat) (net : nat -> net_result)
| ClearChat (confirmed : bool)
| Tick (now : Z).

Definition step `{DOMPurify} (ev : event) (c : Container) : M Container :=
  match ev with
  | Submit text => handleUserMessage text c
  | Settle n net => settle n net c
  | ClearChat confirmed => handleClearChat confirmed c
  | Tick now => advance_clock now ;;; ret c
  end.

Fixpoint run `{DOMPurify} (evs : list event) (c : Container) : M Container :=
  match evs with
  | [] => ret c
  | ev :: rest => c' <- step ev c ;; run rest c'
  end.

End ChatbotContainer.

(* ================================================================== *)
(** * What is assumed of DOMPurify *)
(* ================================================================== *)

Module Purify.

Definition has_lt (s : jsstring) : bool := existsb (N.eqb 60) s.

(** Every [<] of [out] opens or closes a tag whose name starts with one of
    the [allowed] names. *)
Definition tags_within (allowed : list jsstring) (out : jsstring) : Prop :=
  forall pre post, out = pre ++ 60%N :: post ->
    exists tag, In tag allowed
                /\ (startsWith tag post = true
                    \/ startsWith (47%N :: tag) post = true).

(** The call answers a string of markup for a fragment: no DOM node is asked
    for, nor a whole document. *)
Definition returns_markup (cfg : PurifyConfig) : bool :=
  negb (RETURN_DOM cfg) && negb (RETURN_DOM_FRAGMENT cfg)
  && negb (WHOLE_DOCUMENT cfg).

(** The two facts about [DOMPurify.sanitize] the proofs rest on, for a call
    that answers markup: a text without [<] comes back as it is (the library
    returns early when there is nothing to parse), and the markup it returns
    has elements of the allowed tags only, any other [<] being escaped. *)
Class DOMPurifyContract (P : DOMPurify) : Prop := {
  sanitize_plain :
    forall s cfg, returns_markup cfg = true -> has_lt s = false ->
                  sanitize s cfg = s;
  sanitize_tags :
    forall s cfg, returns_markup cfg = true ->
                  tags_within (ALLOWED_TAGS cfg) (sanitize s cfg)
}.

(** A sanitiser that allows no markup at all: it escapes every [<]. *)
Definition escape_lt (s : jsstring) : jsstring :=
  flat_map (fun c => if (c =? 60)%N then lit "&lt;" else [c]) s.

Definition escaping : DOMPurify := {| sanitize := fun s _ => escape_lt s |}.

End Purify.
Import Purify.

Arguments lit : simpl never.
Arguments decimal : simpl never.

(* ================================================================== *)
(** * Strings: basic facts *)
(* ================================================================== *)

Section StringFacts.

Lemma str_eqb_eq (a b : jsstring) : str_eqb a b = true <-> a = b.
Proof.
  revert b; induction a as [|x a IH]; intros [|y b]; simpl; split;
    try congruence; try reflexivity.
  - intros H. apply andb_true_iff in H as [H1 H2].
    apply N.eqb_eq in H1. apply IH in H2. congruence.
  - intros H. injection H as -> ->. rewrite N.eqb_refl. simpl. now apply IH.
Qed.

Lemma str_eqb_refl (a : jsstring) : str_eqb a a = true.
Proof. now apply str_eqb_eq. Qed.

Lemma dropWhile_length (p : N -> bool) (s : jsstring) :
  length (dropWhile p s) <= length s.
Proof.
  induction s as [|c s IH]; simpl; [lia|].
  destruct (p c); simpl; lia.
Qed.

Lemma trimEnd_length (s : jsstring) : length (trimEnd s) <= length s.
Proof.
  unfold trimEnd. rewrite length_rev.
  pose proof (dropWhile_length is_space (rev s)) as H.
  rewrite length_rev in H. exact H.
Qed.

Lemma trim_length (s : jsstring) : length (trim s) <= length s.
Proof.
  unfold trim, trimStart.
  pose proof (trimEnd_length (dropWhile is_space s)).
  pose proof (dropWhile_length is_space s). lia.
Qed.

Lemma escape_lt_plain (s : jsstring) : has_lt s = false -> escape_lt s = s.
Proof.
  unfold has_lt, escape_lt.
  induction s as [|c s IH]; cbn [existsb flat_map]; [reflexivity|].
  rewrite (N.eqb_sym 60 c). destruct (c =? 60)%N; cbn [orb]; [discriminate|].
  intros H. cbn [app]. now rewrite IH.
Qed.

Lemma escape_lt_free (s : jsstring) : has_lt (escape_lt s) = false.
Proof.
  unfold has_lt, escape_lt.
  induction s as [|c s IH]; cbn [existsb flat_map]; [reflexivity|].
  destruct (c =? 60)%N eqn:E.
  - rewrite existsb_app, IH. reflexivity.
  - cbn [app existsb]. rewrite (N.eqb_sym 60 c), E. exact IH.
Qed.

Lemma has_lt_app (a b : jsstring) : has_lt (a ++ b) = has_lt a || has_lt b.
Proof. apply existsb_app. Qed.

End StringFacts.

#[export] Instance escaping_contract : DOMPurifyContract escaping.
Proof.
  split.
  - intros s cfg _ H. simpl. now apply escape_lt_plain.
  - intros s cfg _ pre post E. simpl in E.
    pose proof (escape_lt_free s) as F. rewrite E, has_lt_app in F.
    simpl in F. rewrite orb_true_r in F. discriminate.
Qed.

(* ================================================================== *)
(** * Validation (C2) *)
(* ================================================================== *)

Section Validation.
Import InputValidator.

Lemma isEmpty_spec (s : jsstring) :
  isEmpty s = false <-> 0 < length (trim s).
Proof.
  destruct s as [|c s]; simpl.
  - split; [discriminate | intros H; inversion H].
  - destruct (length (trim (c :: s))) eqn:E; simpl; split;
      try discriminate; try lia; reflexivity.
Qed.

(** C2: for every string [s], [validate(s).canSend] is true if and only if
    the trimmed form of [s] has positive length, the length of [s] (not
    trimmed) is at most the maximum (4000 for the default validator), and
    [detectXSSPatterns] finds no unsafe pattern in [s]. *)
Theorem validate_canSend_iff (v : InputValidator) (s : jsstring) :
  canSend (validate v s) = true
  <-> 0 < length (trim s) /\ length s <= maxLength v
      /\ detectXSSPatterns s = false.
Proof.
  rewrite <- isEmpty_spec.
  destruct s as [|c s].
  - simpl. split; [discriminate | intros (H & _); discriminate].
  - unfold validate. cbv zeta.
    set (x := c :: s).
    cbn [canSend isValid errors].
    destruct (Nat.ltb_spec (maxLength v) (length x)) as [E2|E2];
      destruct (isEmpty x) eqn:E1;
      destruct (detectXSSPatterns x) eqn:E3;
      cbn [app length Nat.eqb negb andb].
    all: split; [try discriminate | try (intros (A & B & C); try discriminate; lia)].
    intros _. repeat split; auto.
Qed.

(** The default validator is the one of the input field: 4000 characters. *)
Corollary canSend_default (s : jsstring) :
  canSendInput default s = true
  <-> 0 < length (trim s) /\ length s <= 4000 /\ detectXSSPatterns s = false.
Proof. apply (validate_canSend_iff default). Qed.

End Validation.

(* ================================================================== *)
(** * The error log (C10) *)
(* ================================================================== *)

Module ErrorLog.
Import Errors.

(** The calls a client can make on the handler. *)
Inductive call : Type :=
| HandleChatError (now : Z) (error : thrown)
| HandleValidationError (now : Z) (field msg : jsstring)
| HandleStorageError (now : Z) (operation : jsstring)
| HandleConnectivityError (now : Z) (isOnline : bool)
| ClearErrorLog.

Definition perform (c : call) (h : ErrorHandler) : ErrorHandler :=
  match c with
  | HandleChatError now error => snd (handleChatError now error h)
  | HandleValidationError now field msg => snd (handleValidationError now field msg h)
  | HandleStorageError now operation => snd (handleStorageError now operation h)
  | HandleConnectivityError now isOnline => snd (handleConnectivityError now isOnline h)
  | ClearErrorLog => clearErrorLog h
  end.

(** The handler after a sequence of calls, the oldest first. *)
Definition after (calls : list call) : ErrorHandler :=
  fold_left (fun h c => perform c h) calls Errors.create.

(** The handler keeps its bound, and its log within it. *)
Definition bounded (h : ErrorHandler) : Prop :=
  maxLogSize h = 100 /\ length (errorLog h) <= 100.

Lemma slice_last_length {A} (n : nat) (l : list A) :
  length (slice_last n l) = Nat.min n (length l).
Proof. unfold slice_last. rewrite length_skipn. lia. Qed.

Lemma slice_last_suffix {A} (n : nat) (l : list A) :
  firstn (length l - n) l ++ slice_last n l = l.
Proof. unfold slice_last. apply firstn_skipn. Qed.

Lemma logError_length (st : ErrorState) (h : ErrorHandler) :
  length (errorLog (logError st h)) <= Nat.max (maxLogSize h) (length (errorLog h)).
Proof.
  unfold logError. cbn [errorLog].
  destruct (Nat.ltb_spec (maxLogSize h) (length (errorLog h ++ [st]))) as [H|H].
  - rewrite slice_last_length. lia.
  - lia.
Qed.

Lemma logError_bounded (st : ErrorState) (h : ErrorHandler) :
  bounded h -> bounded (logError st h).
Proof.
  intros [Hm Hl]. split; [exact Hm|].
  unfold logError. cbn [errorLog]. rewrite Hm.
  destruct (Nat.ltb_spec 100 (length (errorLog h ++ [st]))) as [H|H].
  - rewrite slice_last_length. lia.
  - exact H.
Qed.

Lemma perform_bounded (c : call) (h : ErrorHandler) :
  bounded h -> bounded (perform c h).
Proof.
  intros Hb. destruct c as [now e|now f m|now o|now b|]; cbn [perform].
  - apply logError_bounded, Hb.
  - apply logError_bounded, Hb.
  - unfold handleStorageError. cbn [snd]. apply logError_bounded, Hb.
  - unfold handleConnectivityError. destruct b; cbn [snd].
    + exact Hb.
    + apply logError_bounded, Hb.
  - destruct Hb as [Hm _]. split; [exact Hm | cbn; lia].
Qed.

Lemma after_bounded_from (calls : list call) (h : ErrorHandler) :
  bounded h -> bounded (fold_left (fun h c => perform c h) calls h).
Proof.
  revert h. induction calls as [|c calls IH]; intros h Hb; cbn [fold_left].
  - exact Hb.
  - apply IH, perform_bounded, Hb.
Qed.

(** [logError] keeps the most recent entries: what it leaves is the end of
    the log with the new entry pushed. *)
Lemma logError_recent (st : ErrorState) (h : ErrorHandler) :
  exists dropped, errorLog h ++ [st] = dropped ++ errorLog (logError st h).
Proof.
  unfold logError. cbn [errorLog].
  destruct (maxLogSize h <? length (errorLog h ++ [st])).
  - eexists. symmetry. apply slice_last_suffix.
  - now exists [].
Qed.

(** C10: in every execution the error log holds at most 100 entries.  Every
    logging call ([handleChatError], [handleValidationError],
    [handleStorageError], [handleConnectivityError]) appends through
    [logError], which cuts the log to its most recent 100 entries, so that
    [getErrorStats] and [exportErrorLog] never see more than 100 records. *)
Theorem errorLog_at_most_100 (calls : list call) :
  length (errorLog (after calls)) <= 100
  /\ (forall now, total (getErrorStats now (after calls)) <= 100)
  /\ (forall toISOString,
        exists records, exportErrorLog toISOString (after calls) = JArr records
                        /\ length records <= 100)
  /\ (forall st, exists dropped,
        errorLog (after calls) ++ [st]
        = dropped ++ errorLog (logError st (after calls))
        /\ length (errorLog (logError st (after calls))) <= 100).
Proof.
  assert (Hb : bounded (after calls)).
  { apply after_bounded_from. split; [reflexivity | cbn; lia]. }
  pose proof Hb as [Hm Hl].
  repeat split.
  - exact Hl.
  - intros now. exact Hl.
  - intros iso. eexists. split; [reflexivity|]. now rewrite length_map.
  - intros st. destruct (logError_recent st (after calls)) as [d Hd].
    exists d. split; [exact Hd|]. apply (logError_bounded st Hb).
Qed.

End ErrorLog.

(* ================================================================== *)
(** * Retry and backoff (C3), invalid responses (C7) *)
(* ================================================================== *)

Module Retry.
Import Errors ChatAPI.

(** An error after which the loop of [sendMessage] goes on: neither an
    abort nor one that carries a status from 400 to 499. *)
Definition retried (e : JsError) : bool :=
  negb (is_abort e)
  && negb match status e with
          | Some st => is_client_status st
          | None => false
          end.

Definition goes_on (r : result json) : bool :=
  match r with
  | Thrown e => retried e
  | Returned _ => false
  end.

(** The failures the loop takes for transient: a timeout, a network error,
    a response with a status of 500 or more. *)
Definition transient (x : net_result) : bool :=
  match x with
  | NetTimeout => true
  | NetTypeError _ => true
  | NetResponse r => (500 <=? resp_status r)%Z
  | NetAbort _ => false
  end.

(** A response with a status from 400 to 499, 429 included (apart from one
    whose error text is the very line the timer rejects with, which the
    [catch] block of [makeRequest] takes for a timeout). *)
Definition client_failure (x : net_result) : bool :=
  match x with
  | NetResponse r =>
      is_client_status (resp_status r)
      && negb (str_eqb (http_error_message r) (lit "Request timeout"))
  | _ => false
  end.

(** [k] attempts, each but the last followed by its wait. *)
Fixpoint schedule_from (attempt k : nat) : list event :=
  match k with
  | O => []
  | S O => [Attempt attempt]
  | S k' => Attempt attempt :: Wait (backoff attempt) :: schedule_from (S attempt) k'
  end.

Definition schedule (k : nat) : list event := schedule_from 1 k.

Lemma rethrow_cases (e : JsError) :
  rethrow e = e
  \/ rethrow e = plain_error (lit "Network error: Unable to connect to EME services")
  \/ rethrow e = plain_error (lit "Request timed out. Please try again.").
Proof.
  unfold rethrow.
  destruct (str_eqb (name e) (lit "TypeError") && includes (message e) (lit "fetch"));
    [right; left; reflexivity|].
  destruct (str_eqb (message e) (lit "Request timeout"));
    [right; right; reflexivity | left; reflexivity].
Qed.

Lemma rethrow_retried (e : JsError) : retried e = true -> retried (rethrow e) = true.
Proof.
  intros H. destruct (rethrow_cases e) as [-> | [-> | ->]];
    [exact H | vm_compute; reflexivity | vm_compute; reflexivity].
Qed.

Lemma transient_goes_on (x : net_result) :
  transient x = true -> goes_on (makeRequest x) = true.
Proof.
  destruct x as [r| |msg|msg]; cbn [transient makeRequest]; intros H.
  - assert (Hok : ok r = false).
    { unfold ok. apply Z.leb_le in H.
      apply andb_false_iff. right. apply Z.leb_gt. lia. }
    rewrite Hok. cbn [negb goes_on]. apply rethrow_retried.
    unfold retried, is_client_status. cbn [name status]. apply Z.leb_le in H.
    replace (resp_status r <? 500)%Z with false by (symmetry; apply Z.ltb_ge; lia).
    now rewrite andb_false_r.
  - vm_compute. reflexivity.
  - cbn [goes_on]. apply rethrow_retried. vm_compute. reflexivity.
  - discriminate.
Qed.

Lemma client_failure_stops (x : net_result) :
  client_failure x = true -> goes_on (makeRequest x) = false.
Proof.
  destruct x as [r| |msg|msg]; cbn [client_failure]; try discriminate.
  intros H. apply andb_true_iff in H as [Hc Hm].
  apply negb_true_iff in Hm.
  assert (Hok : ok r = false).
  { unfold ok. unfold is_client_status in Hc.
    apply andb_true_iff in Hc as [Hc _]. apply Z.leb_le in Hc.
    apply andb_false_iff. right. apply Z.leb_gt. lia. }
  cbn [makeRequest]. rewrite Hok. cbn [negb goes_on].
  unfold rethrow. cbn [name message]. rewrite Hm.
  replace (str_eqb (lit "Error") (lit "TypeError")) with false
    by (vm_compute; reflexivity).
  cbn [andb]. unfold retried. cbn [status]. rewrite Hc.
  now rewrite andb_false_r.
Qed.

(** The loop, from any turn: it runs until the first attempt whose outcome
    does not go on, or until its turns are used up; it answers with the
    outcome of its last attempt. *)
Lemma attempts_spec (config : ChatAPIConfig) (net : nat -> net_result) (k : nat) :
  forall remaining attempt lastError,
    attempt + remaining = S (maxRetries config) ->
    k < remaining ->
    (forall j, j < k -> goes_on (makeRequest (net (attempt + j))) = true) ->
    goes_on (makeRequest (net (attempt + k))) = false \/ S k = remaining ->
    attempts config net remaining attempt lastError
    = (makeRequest (net (attempt + k)), schedule_from attempt (S k)).
Proof.
  induction k as [|k IH]; intros remaining attempt lastError Hinv Hk Hgo Hstop.
  - destruct remaining as [|rem]; [lia|]. rewrite Nat.add_0_r in *.
    cbn [attempts schedule_from].
    destruct (makeRequest (net attempt)) as [response|e]; [reflexivity|].
    cbn [goes_on] in Hstop. unfold retried in Hstop.
    destruct (is_abort e); [reflexivity|].
    destruct (match status e with Some st => is_client_status st | None => false end);
      [reflexivity|].
    destruct Hstop as [Hstop|Hstop]; [discriminate|].
    injection Hstop as <-.
    replace (attempt <? maxRetries config) with false
      by (symmetry; apply Nat.ltb_ge; lia).
    reflexivity.
  - destruct remaining as [|rem]; [lia|].
    cbn [attempts].
    pose proof (Hgo 0 ltac:(lia)) as H0. rewrite Nat.add_0_r in H0.
    destruct (makeRequest (net attempt)) as [response|e]; [discriminate|].
    cbn [goes_on] in H0. unfold retried in H0.
    apply andb_true_iff in H0 as [Ha Hc].
    apply negb_true_iff in Ha. apply negb_true_iff in Hc. rewrite Ha, Hc.
    replace (attempt <? maxRetries config) with true
      by (symmetry; apply Nat.ltb_lt; lia).
    rewrite (IH rem (S attempt) (Some e)).
    + replace (S attempt + k) with (attempt + S k) by lia. reflexivity.
    + lia.
    + lia.
    + intros j Hj. replace (S attempt + j) with (attempt + S j) by lia.
      apply Hgo. lia.
    + replace (S attempt + k) with (attempt + S k) by lia.
      destruct Hstop as [Hs|Hs]; [now left | right; lia].
Qed.

Lemma attempts_made_schedule (k : nat) :
  forall attempt, attempts_made (schedule_from attempt k) = k.
Proof.
  induction k as [|[|k] IH]; intros attempt; try reflexivity.
  change (attempts_made (schedule_from attempt (S (S k))))
    with (S (attempts_made (schedule_from (S attempt) (S k)))).
  now rewrite IH.
Qed.

Lemma waits_schedule (k : nat) :
  forall attempt, waits (schedule_from attempt (S k)) = map backoff (seq attempt k).
Proof.
  induction k as [|k IH]; intros attempt; [reflexivity|].
  change (waits (schedule_from attempt (S (S k))))
    with (backoff attempt :: waits (schedule_from (S attempt) (S k))).
  now rewrite IH.
Qed.

Lemma backoff_step (n : nat) :
  1 <= n ->
  (backoff n <= backoff (S n) <= 10000)%Z
  /\ (backoff n < backoff (S n) \/ backoff n = 10000%Z)%Z.
Proof.
  intros Hn. unfold backoff.
  replace (Z.of_nat (S n) - 1)%Z with (Z.succ (Z.of_nat n - 1)) by lia.
  rewrite Z.pow_succ_r by lia.
  assert (0 < 2 ^ (Z.of_nat n - 1))%Z by (apply Z.pow_pos_nonneg; lia).
  lia.
Qed.

(** 429 is a client status for [sendMessage], whatever the error handler
    says of it: the call below makes one attempt out of three. *)
Definition too_many_requests : net_result :=
  NetResponse {| resp_status := 429; statusText := lit "Too Many Requests";
                 body := Parsed (JObj [(lit "error", JStr (lit "Rate limit"))]) |}.

Definition three_attempts : ChatAPIConfig :=
  {| baseUrl := lit "https://eme.example/api"; timeout_ms := 30000; maxRetries := 3 |}.

Lemma status_429_is_not_retried :
  exists e,
    sendMessage three_attempts (fun _ => too_many_requests) = (Thrown e, [Attempt 1])
    /\ status e = Some 429%Z
    /\ isRetryable 0 (ErrorObject e) = true.
Proof.
  eexists. split; [vm_compute; reflexivity|].
  split; vm_compute; reflexivity.
Qed.

(** C3, as the loop has it: failures taken for transient (a timeout, a
    network error, a status of 500 or more) are retried until the configured
    number of attempts (3 by default) is used up, with the delay
    [min(1000 * 2^(attempt-1), 10000)] ms after each attempt but the last,
    delays that grow strictly until they stay at the cap; a response with a
    status from 400 to 499 (429 included, as is 404) ends the call at once,
    with no further attempt. *)
Theorem sendMessage_retry_policy (config : ChatAPIConfig) (net : nat -> net_result) :
  (1 <= maxRetries config ->
   (forall n, 1 <= n <= maxRetries config -> transient (net n) = true) ->
   sendMessage config net
   = (makeRequest (net (maxRetries config)), schedule (maxRetries config)))
  /\ (forall k, 1 <= k <= maxRetries config ->
       (forall n, 1 <= n < k -> transient (net n) = true) ->
       client_failure (net k) = true ->
       sendMessage config net = (makeRequest (net k), schedule k))
  /\ (forall k, 1 <= k ->
       attempts_made (schedule k) = k
       /\ waits (schedule k) = map backoff (seq 1 (k - 1)))
  /\ (forall n, 1 <= n ->
       backoff n = Z.min (1000 * 2 ^ (Z.of_nat n - 1)) 10000
       /\ (backoff n <= backoff (S n) <= 10000)%Z
       /\ (backoff n < backoff (S n) \/ backoff n = 10000%Z)%Z).
Proof.
  repeat split.
  - intros Hmax Hall. unfold sendMessage, schedule.
    assert (Em : maxRetries config = S (maxRetries config - 1)) by lia.
    rewrite (@attempts_spec config net (maxRetries config - 1)
               (maxRetries config) 1 None).
    + cbn [Nat.add]. now rewrite <- Em.
    + lia.
    + lia.
    + intros j Hj. apply transient_goes_on, Hall. lia.
    + right. lia.
  - intros k Hk Hbefore Hclient. unfold sendMessage, schedule.
    destruct k as [|k]; [lia|].
    rewrite (@attempts_spec config net k (maxRetries config) 1 None).
    + reflexivity.
    + lia.
    + lia.
    + intros j Hj. apply transient_goes_on, Hbefore. lia.
    + left. now apply client_failure_stops.
  - apply attempts_made_schedule.
  - destruct k as [|k]; [lia|]. unfold schedule. rewrite waits_schedule.
    now replace (S k - 1) with k by lia.
  - apply (backoff_step H).
  - apply (backoff_step H).
  - apply (backoff_step H).
Qed.

(** The default configuration against a server that is down, then against
    one that answers 404 on the second request. *)
Definition unavailable : net_result :=
  NetResponse {| resp_status := 503; statusText := lit "Service Unavailable";
                 body := Unreadable (lit "SyntaxError") (lit "Unexpected end of JSON input") |}.

Definition not_found : net_result :=
  NetResponse {| resp_status := 404; statusText := lit "Not Found";
                 body := Parsed (JObj [(lit "message", JStr (lit "No such route"))]) |}.

Lemma sendMessage_retry_policy_witness :
  sendMessage three_attempts (fun _ => unavailable)
  = (makeRequest unavailable,
     [Attempt 1; Wait 1000; Attempt 2; Wait 2000; Attempt 3])
  /\ sendMessage three_attempts
       (fun n => match n with 2 => not_found | _ => NetTimeout end)
     = (makeRequest not_found, [Attempt 1; Wait 1000; Attempt 2]).
Proof.
  destruct (sendMessage_retry_policy three_attempts (fun _ => unavailable))
    as (Hall & _).
  destruct (sendMessage_retry_policy three_attempts
              (fun n => match n with 2 => not_found | _ => NetTimeout end))
    as (_ & Hstop & _).
  split.
  - apply Hall; [cbn; lia | intros n _; vm_compute; reflexivity].
  - apply (Hstop 2); [cbn; lia | | vm_compute; reflexivity].
    intros n Hn. assert (n = 1) as -> by lia. vm_compute. reflexivity.
Defined.

(** A reply without its required fields is turned into an error whose text
    is ['Invalid response format from server']; the error handler knows no
    rule for that text and files it under its default, a network failure. *)
Definition empty_reply : net_result :=
  NetResponse {| resp_status := 200; statusText := lit "OK"; body := Parsed (JObj []) |}.

Lemma invalid_reply_is_filed_as_network :
  exists e,
    makeRequest empty_reply = Thrown e
    /\ type (createErrorState 0 (ErrorObject e)) = network
    /\ type (createErrorState 0 (ErrorObject e)) <> server.
Proof.
  eexists. split; [vm_compute; reflexivity|].
  split; vm_compute; [reflexivity | discriminate].
Qed.

Definition invalid_format : JsError :=
  plain_error (lit "Invalid response format from server").

(** C7, as the code has it: a reply (status 200 to 299) in whose body
    [response] is no string, [requestId] is no string, [processingTime] is
    no number, or [metadata] is not of type ['object'] (it is absent, or a
    string, a number or a boolean; [null] and arrays are of that type, and
    pass) is never returned: [makeRequest] throws ['Invalid response format
    from server'].  [createErrorState] files that error as a [network]
    failure that can be retried (its default), not as a [server] one, and
    [sendMessage] goes on to its next attempt. *)
Theorem invalid_response_rejected (r : Response) (data : json) (now : Z) :
  ok r = true ->
  body r = Parsed data ->
  typeof_string (get "response" data) = false
  \/ typeof_string (get "requestId" data) = false
  \/ typeof_number (get "processingTime" data) = false
  \/ typeof_object (get "metadata" data) = false ->
  makeRequest (NetResponse r) = Thrown invalid_format
  /\ createErrorState now (ErrorObject invalid_format)
     = {| type := network; text := lit "Invalid response format from server";
          code := None; timestamp := now; retryable := true |}
  /\ goes_on (makeRequest (NetResponse r)) = true.
Proof.
  intros Hok Hbody Hmiss.
  assert (Hinv : isValidResponse data = false).
  { unfold isValidResponse.
    destruct Hmiss as [H | [H | [H | H]]]; rewrite H;
      destruct data; try reflexivity;
      rewrite ?andb_false_r; reflexivity. }
  assert (Hre : rethrow invalid_format = invalid_format)
    by (vm_compute; reflexivity).
  assert (Hreq : makeRequest (NetResponse r) = Thrown invalid_format).
  { cbn [makeRequest]. rewrite Hok, Hbody, Hinv. cbn [negb].
    fold invalid_format. now rewrite Hre. }
  split; [exact Hreq|]. split.
  - unfold createErrorState.
    replace (is_abort invalid_format) with false by (vm_compute; reflexivity).
    unfold invalid_format at 1. unfold plain_error at 1. cbn [message].
    repeat match goal with
    | |- context [includes ?a ?b] =>
        let v := eval vm_compute in (includes a b) in
        replace (includes a b) with v by (vm_compute; reflexivity)
    end.
    reflexivity.
  - rewrite Hreq. vm_compute. reflexivity.
Qed.

(** The check on [metadata] is [typeof data.metadata === 'object'], which
    holds of [null] and of arrays: a reply with such a [metadata] is
    returned as it is. *)
Definition reply_with_metadata (metadata : json) : json :=
  JObj [(lit "response", JStr (lit "Bonjour"));
        (lit "requestId", JStr (lit "r-1"));
        (lit "processingTime", JNum 512);
        (lit "metadata", metadata)].

Lemma null_metadata_is_returned (metadata : json) :
  metadata = JNull \/ metadata = JArr [] ->
  makeRequest (NetResponse {| resp_status := 200; statusText := lit "OK";
                              body := Parsed (reply_with_metadata metadata) |})
  = Returned (reply_with_metadata metadata).
Proof. intros [-> | ->]; vm_compute; reflexivity. Qed.

Lemma invalid_response_rejected_witness :
  makeRequest empty_reply = Thrown invalid_format
  /\ createErrorState 7 (ErrorObject invalid_format)
     = {| type := network; text := lit "Invalid response format from server";
          code := None; timestamp := 7; retryable := true |}
  /\ goes_on (makeRequest empty_reply) = true.
Proof.
  apply (@invalid_response_rejected
           {| resp_status := 200; statusText := lit "OK"; body := Parsed (JObj []) |}
           (JObj []) 7).
  - vm_compute. reflexivity.
  - reflexivity.
  - left. vm_compute. reflexivity.
Defined.

End Retry.

(* ================================================================== *)
(** * Loading (C6) and migrating (C9) the stored record *)
(* ================================================================== *)

Module Loading.
Import StorageManager.

(** ** What the specification calls a malformed record *)

Definition lacks (k : string) (v : json) : Prop := get k v = None.

Definition not_a_string (o : option json) : Prop :=
  forall s, o <> Some (JStr s).

Definition message_malformed (m : json) : Prop :=
  lacks "id" m \/ lacks "timestamp" m \/ lacks "role" m
  \/ not_a_string (get "content" m).

Definition malformed (data : json) : Prop :=
  lacks "version" data \/ lacks "sessionId" data \/ lacks "messages" data
  \/ (exists v, get "messages" data = Some v /\ forall ms, v <> JArr ms)
  \/ (exists ms m, get "messages" data = Some (JArr ms) /\ In m ms
                   /\ message_malformed m).

Lemma message_malformed_not_ok (m : json) :
  message_malformed m -> message_ok m = false.
Proof.
  unfold message_malformed, lacks, message_ok.
  intros [H | [H | [H | H]]]; destruct m; try reflexivity.
  all: try (rewrite H; cbn [truthy_opt andb]; rewrite ?andb_false_r; reflexivity).
  all: destruct (get "content" _) as [[]|] eqn:E; cbn [is_string];
    rewrite ?andb_false_r; try reflexivity.
  all: exfalso; eapply H; reflexivity.
Qed.

Lemma malformed_invalid (data : json) :
  malformed data -> validateStorageData data = false.
Proof.
  unfold malformed, lacks. intros H.
  destruct data as [| | | | |fields]; try reflexivity.
  unfold validateStorageData. cbn [forallb]. unfold has_key.
  destruct H as [H | [H | [H | [(v & H & Hv) | (ms & m & H & Hin & Hm)]]]];
    rewrite H; cbn [andb]; rewrite ?andb_false_r; try reflexivity.
  - destruct v; rewrite ?andb_false_r; try reflexivity.
    exfalso. eapply Hv. reflexivity.
  - replace (forallb message_ok ms) with false; [now rewrite ?andb_false_r|].
    symmetry. apply not_true_is_false. intros F.
    rewrite forallb_forall in F. specialize (F m Hin).
    rewrite (message_malformed_not_ok Hm) in F. discriminate.
Qed.

Lemma loadChat_absent (w : World) :
  storage w = None -> loadChat w = (None, w).
Proof. intros H. unfold loadChat, bind, getItem. now rewrite H. Qed.

Lemma loadChat_unparseable (w : World) (it : item) :
  storage w = Some it -> item_text it <> [] -> parsed it = None ->
  loadChat w = (None, with_storage None w).
Proof.
  intros Hs Ht Hp. unfold loadChat, bind, getItem. rewrite Hs.
  destruct (item_text it); [congruence|]. now rewrite Hp.
Qed.

Lemma loadChat_invalid (w : World) (it : item) (data : json) :
  storage w = Some it -> item_text it <> [] -> parsed it = Some data ->
  validateStorageData data = false ->
  loadChat w = (None, with_storage None w).
Proof.
  intros Hs Ht Hp Hv. unfold loadChat, bind, getItem. rewrite Hs.
  destruct (item_text it); [congruence|]. now rewrite Hp, Hv.
Qed.

(** C6: [load()] returns [null] when no durable record exists; and for every
    stored record that is malformed (missing [version], [sessionId] or
    [messages], [messages] not a sequence, or a message lacking [id],
    [timestamp], [role] or a string [content]) [load()] clears the durable
    store and returns [null] rather than the corrupted state. *)
Theorem loadChat_fails_closed (w : World) :
  (storage w = None -> loadChat w = (None, w))
  /\ (forall it data,
        storage w = Some it -> item_text it <> [] -> parsed it = Some data ->
        malformed data ->
        loadChat w = (None, with_storage None w)
        /\ storage (snd (loadChat w)) = None).
Proof.
  split.
  - apply loadChat_absent.
  - intros it data Hs Ht Hp Hm.
    rewrite (loadChat_invalid w Hs Ht Hp (malformed_invalid Hm)).
    split; reflexivity.
Qed.

(** A world whose store holds a record without [version]. *)
Definition no_uuids : nat -> jsstring := fun n => lit "uuid-" ++ decimal (Z.of_nat n).

Definition world_with (it : option item) : World :=
  {| storage := it; quota := 5242880; clock := 1700000000000;
     uuids := no_uuids; uuid_next := 0; reduced_motion := false;
     userAgent := lit "Mozilla/5.0" |}.

Definition unversioned : json :=
  JObj [(lit "sessionId", JStr (lit "s-1"));
        (lit "messages",
         JArr [JObj [(lit "id", JStr (lit "m-1")); (lit "timestamp", JNum 5);
                     (lit "role", JStr (lit "user"));
                     (lit "content", JStr (lit "bonjour"))]])].

Lemma loadChat_fails_closed_witness :
  loadChat (world_with None) = (None, world_with None)
  /\ loadChat (world_with (Some (stringify unversioned)))
     = (None, world_with None)
  /\ storage (snd (loadChat (world_with (Some (stringify unversioned))))) = None.
Proof.
  destruct (loadChat_fails_closed (world_with None)) as [Habsent _].
  destruct (loadChat_fails_closed (world_with (Some (stringify unversioned))))
    as [_ Hbad].
  split; [apply Habsent; reflexivity|].
  apply (Hbad (stringify unversioned) unversioned).
  - reflexivity.
  - vm_compute. discriminate.
  - reflexivity.
  - left. vm_compute. reflexivity.
Defined.

(** ** Migration *)

Section RecordFields.
Variables v s c l m p md : json.

Lemma get_record_version : get "version" (record v s c l m p md) = Some v.
Proof. vm_compute. reflexivity. Qed.
Lemma get_record_sessionId : get "sessionId" (record v s c l m p md) = Some s.
Proof. vm_compute. reflexivity. Qed.
Lemma get_record_lastModified : get "lastModified" (record v s c l m p md) = Some l.
Proof. vm_compute. reflexivity. Qed.
Lemma get_record_messages : get "messages" (record v s c l m p md) = Some m.
Proof. vm_compute. reflexivity. Qed.
Lemma get_record_userPreferences :
  get "userPreferences" (record v s c l m p md) = Some p.
Proof. vm_compute. reflexivity. Qed.
Lemma get_record_metadata : get "metadata" (record v s c l m p md) = Some md.
Proof. vm_compute. reflexivity. Qed.

End RecordFields.

Lemma or_compute_spec (o : option json) (c : M json) (w : World) :
  or_compute o c w
  = (or_else o (fst (c w)), if truthy_opt o then w else snd (c w)).
Proof.
  unfold or_compute, or_else, truthy_opt.
  destruct o as [v|]; [destruct (truthy v)|]; try reflexivity;
    now destruct (c w).
Qed.

Definition migration_of (data : json) (w : World) : json :=
  migrated data
    (or_else (get "sessionId" data) (JStr (uuids w (uuid_next w))))
    (or_else (get "created" data) (JNum (clock w)))
    (or_else (get "userPreferences" data) (default_preferences (reduced_motion w)))
    (clock w).

Lemma migrateData_unversioned_eq (data : json) (w : World) :
  truthy_opt (get "version" data) = false ->
  fst (migrateData data w) = migration_of data w
  /\ storage (snd (migrateData data w))
     = if (N.of_nat (length (JSON_stringify (migration_of data w))) <=? quota w)%N
       then Some (stringify (migration_of data w))
       else storage w.
Proof.
  intros Hv. unfold migrateData. rewrite Hv. cbn [negb orb].
  unfold bind, ret, Date_now, setItem.
  repeat (rewrite or_compute_spec; cbv beta iota zeta).
  unfold migration_of.
  destruct (truthy_opt (get "sessionId" data));
    destruct (truthy_opt (get "created" data));
    destruct (truthy_opt (get "userPreferences" data));
    cbn [fst snd new_session_id now_number getDefaultPreferences generateSessionId
         uuidv4 Date_now prefersReducedMotion bind ret clock reduced_motion
         uuids uuid_next quota storage stringify item_text];
    match goal with
    | |- context [(?a <=? ?b)%N] => destruct (a <=? b)%N
    end; split; reflexivity.
Qed.

Lemma migrateData_stale_eq (data : json) (w : World) :
  truthy_opt (get "version" data) = true ->
  is_current data = false ->
  fst (migrateData data w) = data
  /\ storage (snd (migrateData data w))
     = if (N.of_nat (length (JSON_stringify data)) <=? quota w)%N
       then Some (stringify data) else storage w.
Proof.
  intros Hv Hc. unfold migrateData. rewrite Hv, Hc. cbn [negb orb].
  unfold bind, ret, setItem. cbn [stringify item_text].
  destruct (N.of_nat (length (JSON_stringify data)) <=? quota w)%N;
    split; reflexivity.
Qed.

Lemma migrateData_current (data : json) (w : World) :
  truthy_opt (get "version" data) = true ->
  is_current data = true ->
  migrateData data w = (data, w).
Proof. intros Hv Hc. unfold migrateData. now rewrite Hv, Hc. Qed.

(** What [validateStorageData] lets through, [migrateData] can rewrite. *)
Lemma valid_migratable (data : json) :
  validateStorageData data = true -> migratable data = true.
Proof.
  destruct data as [| | | | |fields]; try discriminate.
  unfold validateStorageData, migratable. intros H.
  apply andb_true_iff in H as [_ H].
  destruct (get "messages" (JObj fields)) as [[| | | |ms|]|]; try discriminate.
  rewrite forallb_forall in *. intros m Hin. specialize (H m Hin).
  unfold message_ok in H. unfold countable.
  destruct m; try discriminate;
    apply andb_true_iff in H as [_ H];
    match goal with
    | |- context [get "content" ?m] =>
        destruct (get "content" m) as [[]|]; try discriminate; reflexivity
    end.
Qed.

(** A record of an older version: it is written back as it is. *)
Definition stale : json :=
  JObj [(lit "version", JStr (lit "0.9"));
        (lit "sessionId", JStr (lit "s-1"));
        (lit "messages", JArr [])].

Lemma stale_version_is_kept :
  validateStorageData stale = true
  /\ fst (migrateData stale (world_with (Some (stringify stale)))) = stale
  /\ get "version" (fst (migrateData stale (world_with (Some (stringify stale)))))
     = Some (JStr (lit "0.9"))
  /\ get "metadata" (fst (migrateData stale (world_with (Some (stringify stale)))))
     = None
  /\ storage (snd (migrateData stale (world_with (Some (stringify stale)))))
     = Some (stringify stale).
Proof. repeat split; vm_compute; reflexivity. Qed.

(** C9, as the code has it: a stored record whose [version] is absent (or
    falsy), with messages that can be counted, is rewritten into the current
    shape: [version] ['1.0'], its
    [sessionId] or a new one when absent, its [messages] or none when absent,
    [totalMessages] and [totalCharacters] counted again; the new record is
    written to the store at once (when the store takes it).  A record whose
    [version] is there but is not the current one is written back as it is. *)
Theorem migrateData_rewrites_unversioned (data : json) (w : World) :
  (truthy_opt (get "version" data) = false -> migratable data = true ->
   let d := fst (migrateData data w) in
   let w' := snd (migrateData data w) in
   get "version" d = Some (JStr (lit "1.0"))
   /\ get "sessionId" d
      = Some (or_else (get "sessionId" data) (JStr (uuids w (uuid_next w))))
   /\ get "messages" d = Some (JArr (messages_of data))
   /\ (get "messages" data = None -> get "messages" d = Some (JArr []))
   /\ get "metadata" d
      = Some (JObj [(lit "totalMessages",
                     JNum (Z.of_nat (length (messages_of data))));
                    (lit "totalCharacters",
                     JNum (fold_left (fun sum msg => sum + content_length_or_0 msg)%Z
                             (messages_of data) 0%Z));
                    (lit "averageResponseTime", JNum 0)])
   /\ ((N.of_nat (length (JSON_stringify d)) <= quota w)%N ->
       storage w' = Some (stringify d)))
  /\ (truthy_opt (get "version" data) = true -> is_current data = false ->
      fst (migrateData data w) = data
      /\ ((N.of_nat (length (JSON_stringify data)) <= quota w)%N ->
          storage (snd (migrateData data w)) = Some (stringify data))).
Proof.
  split.
  - intros Hv _. destruct (migrateData_unversioned_eq data w Hv) as [Hd Hw].
    cbv zeta. rewrite Hw, Hd. unfold migration_of, migrated.
    rewrite get_record_version, get_record_sessionId, get_record_messages,
      get_record_metadata.
    repeat split.
    + intros Hm. unfold messages_of. now rewrite Hm.
    + intros Hq. apply N.leb_le in Hq. now rewrite Hq.
  - intros Hv Hc. destruct (migrateData_stale_eq data w Hv Hc) as [Hd Hw].
    split; [exact Hd|]. intros Hq. apply N.leb_le in Hq. now rewrite Hw, Hq.
Qed.

Lemma migrateData_rewrites_unversioned_witness :
  get "version" (fst (migrateData unversioned (world_with None)))
  = Some (JStr (lit "1.0"))
  /\ get "metadata" (fst (migrateData unversioned (world_with None)))
     = Some (JObj [(lit "totalMessages", JNum 1);
                   (lit "totalCharacters", JNum 7);
                   (lit "averageResponseTime", JNum 0)])
  /\ storage (snd (migrateData unversioned (world_with None)))
     = Some (stringify (fst (migrateData unversioned (world_with None)))).
Proof.
  destruct (migrateData_rewrites_unversioned unversioned (world_with None))
    as [H _].
  destruct (H ltac:(vm_compute; reflexivity) ltac:(vm_compute; reflexivity))
    as (Hv & _ & _ & _ & Hm & Hs).
  split; [exact Hv|]. split; [exact Hm|].
  apply Hs. apply N.leb_le. vm_compute. reflexivity.
Defined.

End Loading.

(* ================================================================== *)
(** * Saving and loading back (C4) *)
(* ================================================================== *)

Module Persistence.
Import StorageManager Loading.

Section WithPurifier.
Context {P : DOMPurify}.

(** A message as [sanitizeStorageData] leaves it. *)
Definition clean_message (m : json) : json :=
  match sanitize_message m with
  | Some m' => m'
  | None => m
  end.

(** A typed message with its content sanitised. *)
Definition sanitized (m : ChatMessage) : ChatMessage :=
  {| id := id m; timestamp := timestamp m; role := role m;
     content := sanitizeUserInput (content m); metadata := metadata m |}.

(** The characters of the contents, as [saveChat] counts them. *)
Definition characters (msgs : list json) : Z :=
  match totalCharacters msgs with
  | Some n => n
  | None => 0
  end.

(** The record [saveChat] writes for [state] when nothing is evicted. *)
Definition saved_record (state : ChatState) (w : World) : json :=
  record (JStr currentVersion) (sessionId state)
    (created_or (fst (getStoredData w)) (clock w)) (JNum (clock w))
    (JArr (map clean_message (messages state))) (userPreferences state)
    (summary (messages state) (characters (messages state))).

Lemma message_ok_object (m : json) :
  message_ok m = true -> exists fields, m = JObj fields.
Proof.
  destruct m as [| | | | |fields]; try discriminate; eauto.
Qed.

Lemma message_ok_content (m : json) :
  message_ok m = true -> exists c, get "content" m = Some (JStr c).
Proof.
  intros H. destruct (message_ok_object m H) as [fields ->].
  unfold message_ok in H.
  apply andb_true_iff in H as [_ H].
  destruct (get "content" (JObj fields)) as [[]|]; try discriminate. eauto.
Qed.

Lemma totalCharacters_ok (ms : list json) :
  forallb message_ok ms = true -> exists n, totalCharacters ms = Some n.
Proof.
  induction ms as [|m ms IH]; cbn [forallb totalCharacters]; [eauto|].
  intros H. apply andb_true_iff in H as [Hm Hms].
  destruct (IH Hms) as [n ->].
  destruct (message_ok_content m Hm) as [c Hc].
  unfold content_length. rewrite Hc. eauto.
Qed.

Lemma sanitize_message_ok (m : json) :
  message_ok m = true -> sanitize_message m = Some (clean_message m).
Proof.
  intros H. destruct (message_ok_object m H) as [fields ->].
  reflexivity.
Qed.

Lemma map_throwing_clean (ms : list json) :
  forallb message_ok ms = true ->
  map_throwing sanitize_message ms = Some (map clean_message ms).
Proof.
  induction ms as [|m ms IH]; cbn [forallb map_throwing map]; [reflexivity|].
  intros H. apply andb_true_iff in H as [Hm Hms].
  now rewrite (sanitize_message_ok m Hm), (IH Hms).
Qed.

Lemma lookup_assign_same (k : jsstring) (v : json) (fields : list (jsstring * json)) :
  lookup k (assign k v fields) = Some v.
Proof.
  induction fields as [|[k' v'] fields IH]; cbn [assign lookup].
  - now rewrite str_eqb_refl.
  - destruct (str_eqb k k') eqn:E; cbn [lookup]; rewrite E; [reflexivity | exact IH].
Qed.

Lemma lookup_assign_other (k k0 : jsstring) (v : json)
    (fields : list (jsstring * json)) :
  str_eqb k k0 = false ->
  lookup k (assign k0 v fields) = lookup k fields.
Proof.
  intros Hk. induction fields as [|[k' v'] fields IH]; cbn [assign lookup].
  - now rewrite Hk.
  - destruct (str_eqb k0 k') eqn:E; cbn [lookup].
    + destruct (str_eqb k k') eqn:E'; [|reflexivity].
      apply str_eqb_eq in E, E'. subst. now rewrite str_eqb_refl in Hk.
    + now rewrite IH.
Qed.

Lemma clean_message_ok (m : json) :
  message_ok m = true -> message_ok (clean_message m) = true.
Proof.
  intros H. destruct (message_ok_object m H) as [fields ->].
  unfold clean_message, sanitize_message. cbn [spread].
  unfold message_ok, get in *.
  rewrite !lookup_assign_other by (vm_compute; reflexivity).
  rewrite lookup_assign_same.
  apply andb_true_iff in H as [H _]. rewrite H. reflexivity.
Qed.

Lemma forallb_clean (ms : list json) :
  forallb message_ok ms = true -> forallb message_ok (map clean_message ms) = true.
Proof.
  induction ms as [|m ms IH]; cbn [forallb map]; [reflexivity|].
  intros H. apply andb_true_iff in H as [Hm Hms].
  now rewrite (clean_message_ok m Hm), (IH Hms).
Qed.

Lemma sanitize_record (v s c l p md : json) (ms : list json) :
  sanitizeStorageData (record v s c l (JArr ms) p md)
  = match map_throwing sanitize_message ms with
    | Some ms' => Some (record v s c l (JArr ms') p md)
    | None => None
    end.
Proof.
  unfold sanitizeStorageData, record.
  replace (lookup (lit "messages") _) with (Some (JArr ms))
    by (vm_compute; reflexivity).
  destruct (map_throwing sanitize_message ms) as [ms'|]; [|reflexivity].
  f_equal; vm_compute; reflexivity.
Qed.

Lemma validate_record (v s c l p md : json) (ms : list json) :
  validateStorageData (record v s c l (JArr ms) p md) = forallb message_ok ms.
Proof. vm_compute. reflexivity. Qed.

Lemma stringify_object_text (fields : list (jsstring * json)) :
  item_text (stringify (JObj fields)) <> [].
Proof. cbn [stringify item_text JSON_stringify]. discriminate. Qed.

(** Reading back a record of the current version. *)
Lemma loadChat_record (w : World) (s c l p md : json) (ms : list json) :
  storage w = Some (stringify (record (JStr currentVersion) s c l (JArr ms) p md)) ->
  forallb message_ok ms = true ->
  exists st w', loadChat w = (Some st, w') /\ messages st = ms
                /\ sessionId st = or_else (Some s) (JStr (uuids w (uuid_next w))).
Proof.
  intros Hs Hms. unfold loadChat. unfold bind at 1. unfold getItem. rewrite Hs.
  pose proof (@stringify_object_text
                [(lit "version", JStr currentVersion); (lit "sessionId", s);
                 (lit "created", c); (lit "lastModified", l);
                 (lit "messages", JArr ms); (lit "userPreferences", p);
                 (lit "metadata", md)]) as Hne.
  fold (record (JStr currentVersion) s c l (JArr ms) p md) in Hne.
  destruct (item_text (stringify (record (JStr currentVersion) s c l (JArr ms) p md)))
    eqn:Et; [congruence|].
  cbn [stringify parsed]. rewrite validate_record, Hms. cbn [negb].
  unfold bind at 1. rewrite migrateData_current by (vm_compute; reflexivity).
  unfold bind at 1. rewrite or_compute_spec.
  unfold bind at 1. rewrite or_compute_spec.
  unfold bind at 1. rewrite or_compute_spec.
  unfold ret. eexists _, _. split; [reflexivity|].
  cbn [messages sessionId]. split; [vm_compute; reflexivity|].
  replace (get "sessionId" (record (JStr currentVersion) s c l (JArr ms) p md))
    with (Some s) by (vm_compute; reflexivity).
  reflexivity.
Qed.

(** What [saveChat] does when the messages are sound, nothing has to be
    evicted and the store takes the text. *)
Lemma saveChat_writes (state : ChatState) (w : World) :
  forallb message_ok (messages state) = true ->
  exceeds (saved_record state w) = false ->
  (N.of_nat (length (JSON_stringify (saved_record state w))) <= quota w)%N ->
  saveChat state w
  = (true, with_storage (Some (stringify (saved_record state w))) w).
Proof.
  intros Hok Hex Hq. unfold saveChat.
  destruct (totalCharacters_ok _ Hok) as [chars Hch].
  unfold saved_record, characters in Hex, Hq. rewrite Hch in Hex, Hq.
  unfold bind at 1.
  destruct (getStoredData w) as [stored w0] eqn:Eg.
  assert (w0 = w) as ->.
  { unfold getStoredData, bind, getItem, ret in Eg. now injection Eg. }
  unfold bind at 1. unfold Date_now at 1.
  unfold build_record. rewrite Hch.
  rewrite sanitize_record, (map_throwing_clean _ Hok).
  cbn [fst] in Hex, Hq.
  rewrite Hex. unfold setItem. cbn [stringify item_text].
  apply N.leb_le in Hq. rewrite Hq.
  unfold saved_record, characters. rewrite Eg, Hch. reflexivity.
Qed.

(** Saving, then loading: the messages come back in their order, each with
    its content sanitised and everything else as it was. *)
Lemma save_then_load (state : ChatState) (w : World) :
  forallb message_ok (messages state) = true ->
  exceeds (saved_record state w) = false ->
  (N.of_nat (length (JSON_stringify (saved_record state w))) <= quota w)%N ->
  exists w1 st w2,
    saveChat state w = (true, w1)
    /\ loadChat w1 = (Some st, w2)
    /\ messages st = map clean_message (messages state).
Proof.
  intros Hok Hex Hq.
  rewrite (saveChat_writes Hok Hex Hq).
  edestruct (@loadChat_record
               (with_storage (Some (stringify (saved_record state w))) w))
    as (st & w2 & Hl & Hm & _).
  - reflexivity.
  - apply forallb_clean, Hok.
  - eexists _, st, w2. split; [reflexivity|]. split; [exact Hl | exact Hm].
Qed.

(** Typed messages. *)
Definition sound (m : ChatMessage) : Prop := id m <> [] /\ timestamp m <> 0%Z.

Lemma role_name_truthy (r : MessageRole) : truthy (JStr (role_name r)) = true.
Proof. destruct r; vm_compute; reflexivity. Qed.

Lemma message_json_ok (m : ChatMessage) : sound m -> message_ok (message_json m) = true.
Proof.
  intros [Hi Ht]. unfold message_ok, message_json.
  replace (get "id" _) with (Some (JStr (id m))) by (vm_compute; reflexivity).
  replace (get "timestamp" _) with (Some (JNum (timestamp m)))
    by (vm_compute; reflexivity).
  replace (get "role" _) with (Some (JStr (role_name (role m))))
    by (vm_compute; reflexivity).
  replace (get "content" _) with (Some (JStr (content m)))
    by (vm_compute; reflexivity).
  cbn [truthy_opt is_string]. rewrite role_name_truthy.
  cbn [truthy]. destruct (id m); [congruence|].
  destruct (timestamp m =? 0)%Z eqn:E; [apply Z.eqb_eq in E; congruence|].
  reflexivity.
Qed.

Lemma clean_message_json (m : ChatMessage) :
  clean_message (message_json m) = message_json (sanitized m).
Proof.
  unfold clean_message, sanitize_message, message_json.
  replace (get "content" _) with (Some (JStr (content m)))
    by (vm_compute; reflexivity).
  cbn [spread sanitized id timestamp role content metadata].
  f_equal; vm_compute; reflexivity.
Qed.

Lemma forallb_message_json (ms : list ChatMessage) :
  Forall sound ms -> forallb message_ok (map message_json ms) = true.
Proof.
  induction 1 as [|m ms Hm _ IH]; cbn [map forallb]; [reflexivity|].
  now rewrite (message_json_ok Hm), IH.
Qed.

Lemma map_clean_json (ms : list ChatMessage) :
  map clean_message (map message_json ms) = map message_json (map sanitized ms).
Proof.
  induction ms as [|m ms IH]; cbn [map]; [reflexivity|].
  now rewrite clean_message_json, IH.
Qed.

Lemma map_sanitized_fixed (ms : list ChatMessage) :
  Forall (fun m => sanitizeUserInput (content m) = content m) ms ->
  map sanitized ms = ms.
Proof.
  induction 1 as [|m ms Hm _ IH]; cbn [map]; [reflexivity|].
  rewrite IH. f_equal. destruct m. unfold sanitized. cbn in *. now rewrite Hm.
Qed.

(** C4, as the code has it: [saveChat] sanitises every content before it
    writes.  For every session of well-formed messages whose record stays
    under the 5 MB cap (nothing is evicted) and is taken by the store,
    saving then loading gives the messages back in their order with their
    ids, timestamps, roles and metadata, each content replaced by
    [sanitizeUserInput] of it; the list comes back exactly when no content
    is changed by [sanitizeUserInput]. *)
Theorem save_load_messages (ms : list ChatMessage) (state : ChatState) (w : World) :
  messages state = map message_json ms ->
  Forall sound ms ->
  exceeds (saved_record state w) = false ->
  (N.of_nat (length (JSON_stringify (saved_record state w))) <= quota w)%N ->
  exists w1 st w2,
    saveChat state w = (true, w1)
    /\ loadChat w1 = (Some st, w2)
    /\ messages st = map message_json (map sanitized ms)
    /\ (Forall (fun m => sanitizeUserInput (content m) = content m) ms ->
        messages st = messages state).
Proof.
  intros Hms Hsound Hex Hq.
  assert (Hok : forallb message_ok (messages state) = true)
    by (rewrite Hms; now apply forallb_message_json).
  destruct (save_then_load Hok Hex Hq) as (w1 & st & w2 & Hs & Hl & Hm).
  exists w1, st, w2. rewrite Hm, Hms, map_clean_json.
  repeat split; try assumption.
  intros Hfix. now rewrite (map_sanitized_fixed Hfix).
Qed.

End WithPurifier.

(** A session of two messages, in a store with room for it. *)
Definition greeting : list ChatMessage :=
  [{| id := lit "m-1"; timestamp := 1700000000000; role := user;
      content := lit "Bonjour"; metadata := None |};
   {| id := lit "m-2"; timestamp := 1700000000800; role := assistant;
      content := lit "Bonjour ! Comment puis-je vous aider ?";
      metadata := Some (JObj [(lit "requestId", JStr (lit "r-1"))]) |}].

Definition session_of (ms : list ChatMessage) : ChatState :=
  {| messages := map message_json ms; sessionId := JStr (lit "s-1");
     lastActivity := JNum 1700000000800; version := currentVersion;
     userPreferences := default_preferences false |}.

Lemma save_load_messages_witness :
  exists w1 st w2,
    @saveChat escaping (session_of greeting) (world_with None) = (true, w1)
    /\ loadChat w1 = (Some st, w2)
    /\ messages st = map message_json (map (@sanitized escaping) greeting)
    /\ (Forall (fun m => @sanitizeUserInput escaping (content m) = content m)
          greeting ->
        messages st = messages (session_of greeting)).
Proof.
  apply (@save_load_messages escaping greeting (session_of greeting) (world_with None)).
  - reflexivity.
  - repeat constructor; vm_compute; discriminate.
  - vm_compute. reflexivity.
  - apply N.leb_le. vm_compute. reflexivity.
Defined.

(** A content with a leading blank does not come back as it was saved,
    whatever DOMPurify does with the rest. *)
Definition padded : list ChatMessage :=
  [{| id := lit "m-1"; timestamp := 1700000000000; role := user;
      content := lit " hi"; metadata := None |}].

Lemma sanitize_padded (P : DOMPurify) (C : DOMPurifyContract P) :
  sanitizeUserInput (lit " hi") = lit "hi".
Proof.
  unfold sanitizeUserInput.
  replace (lit " hi") with [32; 104; 105]%N by (vm_compute; reflexivity).
  replace (strip_schemes [32; 104; 105]%N) with (lit "hi")
    by (vm_compute; reflexivity).
  apply sanitize_plain; vm_compute; reflexivity.
Qed.

Lemma saved_content_differs :
  Forall sound padded
  /\ forall (P : DOMPurify), DOMPurifyContract P ->
       exists w1 st w2,
         saveChat (session_of padded) (world_with None) = (true, w1)
         /\ loadChat w1 = (Some st, w2)
         /\ messages st <> messages (session_of padded).
Proof.
  split; [repeat constructor; vm_compute; discriminate|].
  intros P C.
  assert (Hrec : saved_record (session_of padded) (world_with None)
                 = record (JStr currentVersion) (JStr (lit "s-1"))
                     (JNum 1700000000000) (JNum 1700000000000)
                     (JArr [message_json
                              {| id := lit "m-1"; timestamp := 1700000000000;
                                 role := user; content := lit "hi";
                                 metadata := None |}])
                     (default_preferences false)
                     (summary (messages (session_of padded)) 3)).
  { unfold saved_record, session_of, padded.
    cbn [messages map sessionId userPreferences].
    rewrite clean_message_json. unfold sanitized.
    cbn [id timestamp role content metadata]. rewrite (sanitize_padded C).
    vm_compute. reflexivity. }
  destruct (@save_then_load P (session_of padded) (world_with None))
    as (w1 & st & w2 & Hs & Hl & Hm).
  - apply forallb_message_json. repeat constructor; vm_compute; discriminate.
  - rewrite Hrec. vm_compute. reflexivity.
  - rewrite Hrec. apply N.leb_le. vm_compute. reflexivity.
  - exists w1, st, w2. split; [exact Hs|]. split; [exact Hl|].
    rewrite Hm. unfold session_of, padded. cbn [messages map].
    rewrite clean_message_json. unfold sanitized.
    cbn [id timestamp role content metadata]. rewrite (sanitize_padded C).
    intros H. vm_compute in H. discriminate.
Qed.

End Persistence.

(* ================================================================== *)
(** * The container: submitting (C5) and clearing (C8) *)
(* ================================================================== *)

Module Lifecycle.
Import ChatAPI StorageManager ChatbotContainer Loading Persistence.

(** The world after [n] calls of [uuidv4]. *)
Definition drawn (n : nat) (w : World) : World :=
  {| storage := storage w; quota := quota w; clock := clock w;
     uuids := uuids w; uuid_next := n + uuid_next w;
     reduced_motion := reduced_motion w; userAgent := userAgent w |}.

(** The container with one more message, at time [now]. *)
Definition appended (m : json) (now : Z) (c : Container) : Container :=
  {| chatState :=
       {| messages := messages (chatState c) ++ [m];
          sessionId := sessionId (chatState c);
          lastActivity := JNum now;
          version := version (chatState c);
          userPreferences := userPreferences (chatState c) |};
     isLoading := isLoading c;
     shown := shown c ++ [m];
     inflight := inflight c;
     errorHandler := errorHandler c;
     api_config := api_config c |}.

(** The message [new_message] makes in [w]. *)
Definition message_in (w : World) (r : MessageRole) (text : jsstring)
    (md : option json) : json :=
  message_json {| id := uuids w (uuid_next w); timestamp := clock w; role := r;
                  content := text; metadata := md |}.

Section WithPurifier.
Context {P : DOMPurify}.

Lemma saveChat_frame (state : ChatState) (w : World) :
  exists s, snd (saveChat state w) = with_storage s w.
Proof.
  unfold saveChat, getStoredData, bind, getItem, ret, Date_now, setItem.
  cbv beta iota zeta.
  destruct (build_record _ _ _) as [data|]; [|exists (storage w); now destruct w].
  destruct (sanitizeStorageData data) as [sd|]; [|exists (storage w); now destruct w].
  destruct (exceeds sd).
  - destruct (cleanOldMessages sd) as [cl|]; [|exists (storage w); now destruct w].
    destruct (_ <=? _)%N; [eexists; reflexivity | exists (storage w); now destruct w].
  - destruct (_ <=? _)%N; [eexists; reflexivity | exists (storage w); now destruct w].
Qed.

Lemma addMessage_exact (m : json) (c : Container) (w : World) :
  addMessage m c w
  = (appended m (clock w) c,
     snd (saveChat (chatState (appended m (clock w) c)) w)).
Proof.
  unfold addMessage. unfold bind at 1. unfold Date_now at 1.
  unfold bind, ret. cbn [appended chatState].
  now destruct (saveChat _ w).
Qed.

Lemma addMessage_spec (m : json) (c : Container) (w : World) :
  exists s, addMessage m c w = (appended m (clock w) c, with_storage s w).
Proof.
  rewrite addMessage_exact.
  destruct (saveChat_frame (chatState (appended m (clock w) c)) w) as [s ->].
  now exists s.
Qed.

Lemma new_message_spec (r : MessageRole) (text : jsstring) (md : option json)
    (w : World) :
  new_message r text md w = (message_in w r text md, drawn 1 w).
Proof. reflexivity. Qed.

(** A submit while a request is outstanding changes nothing. *)
Lemma handleUserMessage_loading (text : jsstring) (c : Container) (w : World) :
  isLoading c = true -> handleUserMessage text c w = (c, w).
Proof.
  intros H. unfold handleUserMessage. destruct (trim text); [reflexivity|].
  now rewrite H.
Qed.

(** A reply that arrives for the one outstanding request. *)
Lemma settle_returned (net : nat -> net_result) (response : json)
    (c : Container) (w : World) (p : Pending) :
  inflight c = [p] -> aborted p = false ->
  fst (sendMessage (api_config c) net) = Returned response ->
  exists s,
    settle 0 net c w
    = (setLoading false
         (appended (message_in w assistant (response_text response)
                      (Some (response_metadata response)))
                   (clock w)
                   {| chatState := chatState c; isLoading := isLoading c;
                      shown := shown c; inflight := [];
                      errorHandler := errorHandler c;
                      api_config := api_config c |}),
       with_storage s (drawn 1 w)).
Proof.
  intros Hin Hab Hr. unfold settle. rewrite Hin. cbn [nth_error remove_nth].
  rewrite Hab, Hr. unfold resume. unfold bind at 1. unfold bind at 1.
  rewrite new_message_spec.
  match goal with
  | |- context [addMessage ?m ?c0 ?w0] =>
      destruct (addMessage_spec m c0 w0) as [s Hs]; rewrite Hs
  end.
  exists s. reflexivity.
Qed.

(** The session [handleClearChat] starts, before and after its greeting,
    and the world in which the greeting is saved. *)
Definition fresh_state (w : World) : ChatState :=
  {| messages := []; sessionId := JStr (uuids w (uuid_next w));
     lastActivity := JNum (clock w); version := currentVersion;
     userPreferences := default_preferences (reduced_motion w) |}.

Definition welcome_in (w : World) : json :=
  message_in (drawn 1 w) assistant welcome_text None.

Definition greeted_state (w : World) : ChatState :=
  {| messages := [welcome_in w]; sessionId := JStr (uuids w (uuid_next w));
     lastActivity := JNum (clock w); version := currentVersion;
     userPreferences := default_preferences (reduced_motion w) |}.

Definition cleared_world (w : World) : World := drawn 2 (with_storage None w).

Lemma handleClearChat_exact (c : Container) (w : World) :
  handleClearChat true c w
  = (appended (welcome_in w) (clock w)
       {| chatState := fresh_state w; isLoading := isLoading c; shown := [];
          inflight := inflight c; errorHandler := errorHandler c;
          api_config := api_config c |},
     snd (saveChat (greeted_state w) (cleared_world w))).
Proof.
  unfold handleClearChat. unfold bind at 1. unfold clearChat, removeItem.
  unfold bind at 1.
  replace (createInitialState (with_storage None w))
    with (fresh_state w, drawn 1 (with_storage None w)) by reflexivity.
  unfold showWelcomeMessage. unfold bind at 1. rewrite new_message_spec.
  rewrite addMessage_exact. reflexivity.
Qed.

Lemma handleClearChat_fst (c : Container) (w : World) :
  fst (handleClearChat true c w)
  = appended (welcome_in w) (clock w)
      {| chatState := fresh_state w; isLoading := isLoading c; shown := [];
         inflight := inflight c; errorHandler := errorHandler c;
         api_config := api_config c |}.
Proof. now rewrite handleClearChat_exact. Qed.

Lemma handleClearChat_snd (c : Container) (w : World) :
  snd (handleClearChat true c w)
  = snd (saveChat (greeted_state w) (cleared_world w)).
Proof. now rewrite handleClearChat_exact. Qed.

Lemma handleClearChat_spec (c : Container) (w : World) :
  exists s,
    handleClearChat true c w
    = (appended (welcome_in w) (clock w)
         {| chatState := fresh_state w; isLoading := isLoading c; shown := [];
            inflight := inflight c; errorHandler := errorHandler c;
            api_config := api_config c |},
       with_storage s (drawn 2 w)).
Proof.
  rewrite handleClearChat_exact.
  destruct (saveChat_frame (greeted_state w) (cleared_world w)) as [s ->].
  now exists s.
Qed.

(** A submit when no request is outstanding. *)
Definition submitted (trimmed : jsstring) (c : Container) (w : World) : Container :=
  let c1 := appended (message_in w user trimmed None) (clock w) c in
  {| chatState := chatState c1; isLoading := true; shown := shown c1;
     inflight :=
       map (fun p => {| request := request p; aborted := true |}) (inflight c)
       ++ [{| request := build_request trimmed (setLoading true c1) (clock w)
                           (userAgent w);
              aborted := false |}];
     errorHandler := errorHandler c; api_config := api_config c |}.

Lemma handleUserMessage_idle (text : jsstring) (c : Container) (w : World) :
  isLoading c = false -> trim text <> [] ->
  exists s,
    handleUserMessage text c w
    = (submitted (trim text) c w, with_storage s (drawn 1 w)).
Proof.
  intros Hl Ht. unfold handleUserMessage.
  destruct (trim text) as [|x xs] eqn:E; [congruence|]. rewrite Hl.
  unfold bind at 1. rewrite new_message_spec. unfold bind at 1.
  destruct (addMessage_spec (message_in w user (x :: xs) None) c (drawn 1 w))
    as [s ->].
  exists s. reflexivity.
Qed.

(** ** What holds of every container that can be reached *)

Definition at_most_one (c : Container) : Prop :=
  (isLoading c = false /\ inflight c = [])
  \/ (isLoading c = true /\ exists p, inflight c = [p] /\ aborted p = false).

Lemma addMessage_keeps (m : json) (c : Container) (w : World) :
  isLoading (fst (addMessage m c w)) = isLoading c
  /\ inflight (fst (addMessage m c w)) = inflight c
  /\ api_config (fst (addMessage m c w)) = api_config c.
Proof. destruct (addMessage_spec m c w) as [s ->]. now repeat split. Qed.

Lemma resume_spec (r : result json) (c : Container) (w : World) :
  exists c' w', resume r c w = (setLoading false c', w')
                /\ inflight c' = inflight c.
Proof.
  unfold resume. destruct r as [response|e].
  - unfold bind at 1. unfold bind at 1. rewrite new_message_spec.
    match goal with
    | |- context [addMessage ?m ?c0 ?w0] =>
        destruct (addMessage_spec m c0 w0) as [s ->]
    end.
    eexists _, _. split; reflexivity.
  - unfold bind at 1. unfold bind at 1. unfold Date_now at 1.
    destruct (Errors.handleChatError _ _ _) as [msg h].
    unfold showSystemMessage. unfold bind at 1. rewrite new_message_spec.
    match goal with
    | |- context [addMessage ?m ?c0 ?w0] =>
        destruct (addMessage_spec m c0 w0) as [s ->]
    end.
    eexists _, _. split; reflexivity.
Qed.

Lemma resume_idle (r : result json) (c : Container) (w : World) :
  isLoading (fst (resume r c w)) = false
  /\ inflight (fst (resume r c w)) = inflight c.
Proof.
  destruct (resume_spec r c w) as (c' & w' & -> & Hi). now split.
Qed.

Lemma step_at_most_one (ev : event) (c : Container) (w : World) :
  at_most_one c -> at_most_one (fst (step ev c w)).
Proof.
  intros Hc. destruct ev as [text|n net|confirmed|now]; cbn [step].
  - unfold handleUserMessage. destruct (trim text) as [|x xs]; [exact Hc|].
    destruct Hc as [[Hl Hi] | [Hl Hi]]; rewrite Hl; [|right; now split].
    unfold bind at 1. rewrite new_message_spec. unfold bind at 1.
    match goal with
    | |- context [addMessage ?m ?c0 ?w0] =>
        destruct (addMessage_spec m c0 w0) as [s ->]
    end.
    right. cbn. rewrite Hi. split; [reflexivity|]. eexists. split; reflexivity.
  - unfold settle. destruct (nth_error (inflight c) n) as [p|] eqn:En; [|exact Hc].
    match goal with
    | |- at_most_one (fst (resume ?r ?c0 w)) =>
        destruct (resume_idle r c0 w) as [Hl Hi]
    end.
    left. split; [exact Hl|]. rewrite Hi. cbn [inflight].
    destruct Hc as [[_ Hn] | [_ (q & Hq & _)]].
    + rewrite Hn in En. destruct n; discriminate.
    + rewrite Hq in *. destruct n as [|[|n]]; [reflexivity | discriminate | discriminate].
  - destruct confirmed; [|exact Hc].
    destruct (handleClearChat_spec c w) as [s ->]. exact Hc.
  - exact Hc.
Qed.

Lemma run_at_most_one (evs : list event) :
  forall c w, at_most_one c -> at_most_one (fst (run evs c w)).
Proof.
  induction evs as [|ev evs IH]; intros c w Hc; cbn [run]; [exact Hc|].
  unfold bind. pose proof (step_at_most_one ev w Hc) as Hs.
  destruct (step ev c w) as [c' w']. now apply IH.
Qed.

(** C5, as the container has it: while a request is outstanding
    ([isLoading]) a further submit is ignored: no message is appended, no
    request is sent and the outstanding request is not cancelled (the first
    caller wins).  When the reply to the outstanding request arrives, it is
    the one appended, as an assistant message, and loading ends. *)
Theorem submit_while_loading_is_ignored (text : jsstring) (c : Container)
    (w : World) :
  at_most_one c ->
  isLoading c = true ->
  handleUserMessage text c w = (c, w)
  /\ forall net response,
       fst (sendMessage (api_config c) net) = Returned response ->
       exists c2 w2,
         run [Submit text; Settle 0 net] c w = (c2, w2)
         /\ messages (chatState c2)
            = messages (chatState c)
              ++ [message_in w assistant (response_text response)
                    (Some (response_metadata response))]
         /\ shown c2
            = shown c
              ++ [message_in w assistant (response_text response)
                    (Some (response_metadata response))]
         /\ isLoading c2 = false
         /\ inflight c2 = [].
Proof.
  intros Hc Hl. split; [now apply handleUserMessage_loading|].
  intros net response Hr.
  destruct Hc as [[Hf _] | [_ (p & Hp & Ha)]]; [congruence|].
  cbn [run step]. unfold bind at 1.
  rewrite (@handleUserMessage_loading text c w Hl).
  unfold bind at 1.
  destruct (@settle_returned net response c w p Hp Ha Hr) as [s ->].
  eexists _, _. split; [reflexivity|]. now repeat split.
Qed.

(** C8, as the code has it: after [clearChat] nothing can be loaded.  The
    container's clear goes on: it starts a session under a newly drawn
    [sessionId], the next value of [uuidv4], which is not the one of the
    cleared session when that one was drawn from [uuidv4] before (as it is
    in every container that began on an empty store, see [run_drawn_id])
    and [uuidv4] now returns a value it has not returned yet; then it
    greets,
    so that the session in memory holds the welcome message and that
    message is saved at once; what is loaded afterwards is this one-message
    session (when the store took it). *)
Theorem clear_then_load (c : Container) (w : World) :
  loadChat (snd (clearChat w)) = (None, snd (clearChat w))
  /\ sessionId (chatState (fst (handleClearChat true c w)))
     = JStr (uuids w (uuid_next w))
  /\ ((exists k, k < uuid_next w /\ sessionId (chatState c) = JStr (uuids w k)) ->
      (forall k, k < uuid_next w -> uuids w k <> uuids w (uuid_next w)) ->
      sessionId (chatState (fst (handleClearChat true c w)))
      <> sessionId (chatState c))
  /\ messages (chatState (fst (handleClearChat true c w))) = [welcome_in w]
  /\ shown (fst (handleClearChat true c w)) = [welcome_in w]
  /\ (uuids w (S (uuid_next w)) <> [] -> clock w <> 0%Z ->
      exceeds (saved_record (greeted_state w) (cleared_world w)) = false ->
      (N.of_nat (length (JSON_stringify
                           (saved_record (greeted_state w) (cleared_world w))))
       <= quota w)%N ->
      exists st w',
        loadChat (snd (handleClearChat true c w)) = (Some st, w')
        /\ messages st = [clean_message (welcome_in w)]).
Proof.
  split; [apply loadChat_absent; reflexivity|].
  rewrite handleClearChat_fst, handleClearChat_snd.
  split; [reflexivity|]. split.
  { intros (k & Hk & Hid) Hnew. cbn [appended chatState sessionId fresh_state].
    rewrite Hid. intros E. injection E as E. now apply (Hnew k Hk). }
  split; [reflexivity|]. split; [reflexivity|].
  intros Hid Hclock Hex Hq.
  assert (Hok : forallb message_ok (messages (greeted_state w)) = true).
  { cbn [greeted_state messages forallb]. rewrite andb_true_r.
    apply message_json_ok. split; assumption. }
  destruct (save_then_load Hok Hex Hq) as (w1 & st & w2 & Hs & Hl & Hm).
  rewrite Hs. cbn [snd]. exists st, w2. split; [exact Hl | exact Hm].
Qed.

End WithPurifier.

(** ** Where the session's id comes from *)

Section SessionIds.
Context {P : DOMPurify}.

(** The session's id is one of the values [uuidv4], whose values are [u],
    has returned so far. *)
Definition drawn_id (u : nat -> jsstring) (c : Container) (w : World) : Prop :=
  uuids w = u
  /\ exists k, k < uuid_next w /\ sessionId (chatState c) = JStr (u k).

(** [w'] comes after [w]: the same generator, no further back. *)
Definition later (w w' : World) : Prop :=
  uuids w' = uuids w /\ uuid_next w <= uuid_next w'.

Lemma drawn_id_later (u : nat -> jsstring) (c c' : Container) (w w' : World) :
  sessionId (chatState c') = sessionId (chatState c) -> later w w' ->
  drawn_id u c w -> drawn_id u c' w'.
Proof.
  intros Hs [Hu Hn] (Hw & k & Hk & Hid). split; [congruence|].
  exists k. rewrite Hs. split; [lia | exact Hid].
Qed.

Lemma resume_world (r : result json) (c : Container) (w : World) :
  exists c' s,
    resume r c w = (c', with_storage s (drawn 1 w))
    /\ sessionId (chatState c') = sessionId (chatState c).
Proof.
  unfold resume. destruct r as [response|e].
  - unfold bind at 1. unfold bind at 1. rewrite new_message_spec.
    match goal with
    | |- context [addMessage ?m ?c0 ?w0] =>
        destruct (addMessage_spec m c0 w0) as [s ->]
    end.
    unfold ret. eexists _, s. split; reflexivity.
  - unfold bind at 1. unfold bind at 1. unfold Date_now at 1.
    destruct (Errors.handleChatError _ _ _) as [msg h].
    unfold showSystemMessage. unfold bind at 1. rewrite new_message_spec.
    match goal with
    | |- context [addMessage ?m ?c0 ?w0] =>
        destruct (addMessage_spec m c0 w0) as [s ->]
    end.
    unfold ret. eexists _, s. split; reflexivity.
Qed.

Lemma resume_later (r : result json) (c : Container) (w : World) :
  sessionId (chatState (fst (resume r c w))) = sessionId (chatState c)
  /\ later w (snd (resume r c w)).
Proof.
  destruct (resume_world r c w) as (c' & s & -> & Hs). cbn [fst snd].
  split; [exact Hs|]. split; cbn; [reflexivity | lia].
Qed.

Lemma step_drawn_id (u : nat -> jsstring) (ev : event) (c : Container)
    (w : World) :
  drawn_id u c w -> drawn_id u (fst (step ev c w)) (snd (step ev c w)).
Proof.
  intros Hc. destruct ev as [text|n net|confirmed|now]; cbn [step].
  - destruct (trim text) as [|x xs] eqn:Et.
    { unfold handleUserMessage. rewrite Et. exact Hc. }
    destruct (isLoading c) eqn:El.
    { now rewrite (@handleUserMessage_loading P text c w El). }
    destruct (@handleUserMessage_idle P text c w El) as [s ->];
      [rewrite Et; discriminate|].
    apply (@drawn_id_later u c _ w _); [reflexivity | | exact Hc].
    split; cbn; [reflexivity | lia].
  - unfold settle. destruct (nth_error (inflight c) n) as [p|]; [|exact Hc].
    match goal with
    | |- context [resume ?r ?c0 w] =>
        destruct (resume_later r c0 w) as [Hs Hl]
    end.
    apply (@drawn_id_later u c _ w _); [exact Hs | exact Hl | exact Hc].
  - destruct confirmed; [|exact Hc].
    destruct (handleClearChat_spec c w) as [s ->]. cbn [fst snd].
    destruct Hc as (Hw & _). split; [exact Hw|].
    exists (uuid_next w). split; cbn; [lia | now rewrite Hw].
  - unfold bind, advance_clock, ret. cbn [fst snd].
    destruct Hc as (Hw & k & Hk & Hid). split; [exact Hw|]. exists k. now split.
Qed.

Lemma run_drawn_id (u : nat -> jsstring) (evs : list event) :
  forall c w,
    drawn_id u c w -> drawn_id u (fst (run evs c w)) (snd (run evs c w)).
Proof.
  induction evs as [|ev evs IH]; intros c w Hc; cbn [run]; [exact Hc|].
  unfold bind. pose proof (@step_drawn_id u ev c w Hc) as Hs.
  destruct (step ev c w) as [c' w']. now apply IH.
Qed.

(** On an empty store the container begins a session of its own, under the
    first value it draws. *)
Lemma create_fresh (apiUrl : jsstring) (maxRetries : nat) (requestTimeout : Z)
    (w : World) :
  storage w = None ->
  exists c,
    create apiUrl maxRetries requestTimeout w = (c, drawn 1 w)
    /\ chatState c = fresh_state w.
Proof.
  intros Hs. unfold create, loadInitialState, bind.
  rewrite (loadChat_absent w Hs).
  replace (createInitialState w) with (fresh_state w, drawn 1 w) by reflexivity.
  unfold ret. eexists. split; reflexivity.
Qed.

Lemma initialize_fresh (c : Container) (w : World) :
  messages (chatState c) = [] ->
  exists c' s,
    initialize c w = (c', with_storage s (drawn 1 w))
    /\ sessionId (chatState c') = sessionId (chatState c).
Proof.
  intros Hm. unfold initialize. cbv zeta. cbn [chatState]. rewrite Hm.
  unfold showWelcomeMessage, bind. rewrite new_message_spec.
  match goal with
  | |- context [addMessage ?m ?c0 ?w0] =>
      destruct (addMessage_spec m c0 w0) as [s ->]
  end.
  eexists _, s. split; reflexivity.
Qed.

Lemma create_drawn_id (apiUrl : jsstring) (maxRetries : nat) (requestTimeout : Z)
    (w : World) :
  storage w = None ->
  drawn_id (uuids w)
           (fst (initialize (fst (create apiUrl maxRetries requestTimeout w))
                            (snd (create apiUrl maxRetries requestTimeout w))))
           (snd (initialize (fst (create apiUrl maxRetries requestTimeout w))
                            (snd (create apiUrl maxRetries requestTimeout w)))).
Proof.
  intros Hs.
  destruct (@create_fresh apiUrl maxRetries requestTimeout w Hs) as (c & -> & Hc).
  cbn [fst snd].
  destruct (@initialize_fresh c (drawn 1 w)) as (c' & s & -> & Hid);
    [now rewrite Hc|].
  cbn [fst snd]. split; [reflexivity|].
  exists (uuid_next w). rewrite Hid, Hc. split; cbn; [lia | reflexivity].
Qed.

(** A container that began on an empty store holds, whatever has happened
    to it since, a session whose id [uuidv4] has returned: when [uuidv4]
    never returns a value twice, the session a clearing starts has another
    id than the one it clears. *)
Lemma cleared_session_has_another_id (apiUrl : jsstring) (maxRetries : nat)
    (requestTimeout : Z) (evs : list event) (w : World) :
  storage w = None ->
  (forall i j, uuids w i = uuids w j -> i = j) ->
  let c0 := fst (create apiUrl maxRetries requestTimeout w) in
  let w0 := snd (create apiUrl maxRetries requestTimeout w) in
  let c := fst (run evs (fst (initialize c0 w0)) (snd (initialize c0 w0))) in
  let w' := snd (run evs (fst (initialize c0 w0)) (snd (initialize c0 w0))) in
  sessionId (chatState (fst (handleClearChat true c w')))
  <> sessionId (chatState c).
Proof.
  intros Hs Hinj. cbv zeta.
  pose proof (@run_drawn_id _ evs _ _
                (@create_drawn_id apiUrl maxRetries requestTimeout w Hs))
    as (Hu & k & Hk & Hid).
  set (c := fst (run evs _ _)) in *. set (w' := snd (run evs _ _)) in *.
  rewrite handleClearChat_fst. cbn [appended chatState sessionId fresh_state].
  rewrite Hid, Hu. intros E. injection E as E. apply Hinj in E. lia.
Qed.

End SessionIds.

(** ** Concrete runs *)

Definition busy : Container :=
  {| chatState := session_of greeting; isLoading := true;
     shown := map message_json greeting;
     inflight := [{| request := JObj [(lit "message", JStr (lit "hi"))];
                     aborted := false |}];
     errorHandler := Errors.create; api_config := Retry.three_attempts |}.

Definition idle : Container :=
  {| chatState := session_of []; isLoading := false; shown := [];
     inflight := []; errorHandler := Errors.create;
     api_config := Retry.three_attempts |}.

Definition reply (text : string) : net_result :=
  NetResponse
    {| resp_status := 200; statusText := lit "OK";
       body := Parsed (JObj [(lit "response", JStr (lit text));
                             (lit "confidence", JNum 1);
                             (lit "requestId", JStr (lit "r-1"));
                             (lit "processingTime", JNum 512);
                             (lit "metadata", JObj [])]) |}.

Lemma submit_while_loading_is_ignored_witness :
  @handleUserMessage escaping (lit "hello") busy (world_with None)
  = (busy, world_with None)
  /\ exists c2 w2,
       @run escaping [Submit (lit "hello"); Settle 0 (fun _ => reply "Bonjour")]
         busy (world_with None) = (c2, w2)
       /\ isLoading c2 = false /\ inflight c2 = [].
Proof.
  destruct (@submit_while_loading_is_ignored escaping (lit "hello") busy
              (world_with None)) as [Hignored Hreply].
  - right. split; [reflexivity|]. eexists. split; reflexivity.
  - reflexivity.
  - split; [exact Hignored|].
    destruct (Hreply (fun _ => reply "Bonjour")
                (JObj [(lit "response", JStr (lit "Bonjour"));
                       (lit "confidence", JNum 1);
                       (lit "requestId", JStr (lit "r-1"));
                       (lit "processingTime", JNum 512);
                       (lit "metadata", JObj [])]))
      as (c2 & w2 & Hrun & _ & _ & Hl & Hi).
    + vm_compute. reflexivity.
    + exists c2, w2. now repeat split.
Defined.

(** Two submits in a row, then the reply to the first: the second text is
    dropped and the reply to the first is shown, whatever DOMPurify does. *)
Lemma second_submit_is_dropped :
  forallb (fun text => negb (InputValidator.isEmpty (lit text)))
    ["hi"; "hello"]%string = true
  /\ forall (P : DOMPurify),
       exists c' w',
         run [Submit (lit "hi"); Submit (lit "hello");
              Settle 0 (fun _ => reply "Bonjour")]
           idle (world_with None) = (c', w')
         /\ shown c'
            = [message_json {| id := no_uuids 0; timestamp := 1700000000000;
                               role := user; content := lit "hi";
                               metadata := None |};
               message_json {| id := no_uuids 1; timestamp := 1700000000000;
                               role := assistant; content := lit "Bonjour";
                               metadata :=
                                 Some (JObj [(lit "requestId", JStr (lit "r-1"));
                                             (lit "processingTime", JNum 512);
                                             (lit "confidence", JNum 1)]) |}]
         /\ messages (chatState c') = shown c'
         /\ inflight c' = [].
Proof.
  split; [vm_compute; reflexivity|].
  intros P. cbn [run step]. unfold bind at 1.
  destruct (@handleUserMessage_idle P (lit "hi") idle (world_with None))
    as [s1 ->]; [reflexivity | vm_compute; discriminate |].
  unfold bind at 1.
  rewrite handleUserMessage_loading by reflexivity.
  unfold bind at 1.
  match goal with
  | |- context [settle 0 ?net ?c ?w] =>
      destruct (@settle_returned P net
                  (JObj [(lit "response", JStr (lit "Bonjour"));
                         (lit "confidence", JNum 1);
                         (lit "requestId", JStr (lit "r-1"));
                         (lit "processingTime", JNum 512);
                         (lit "metadata", JObj [])])
                  c w
                  {| request := build_request (trim (lit "hi"))
                                  (setLoading true
                                     (appended (message_in (world_with None) user
                                                  (trim (lit "hi")) None)
                                        (clock (world_with None)) idle))
                                  (clock (world_with None))
                                  (userAgent (world_with None));
                     aborted := false |})
        as [s2 ->]
  end; [reflexivity | reflexivity | vm_compute; reflexivity |].
  eexists _, _. split; [reflexivity|].
  repeat split; vm_compute; reflexivity.
Qed.

Lemma sanitize_welcome (P : DOMPurify) (C : DOMPurifyContract P) :
  sanitizeUserInput welcome_text = strip_schemes welcome_text.
Proof.
  unfold sanitizeUserInput.
  destruct welcome_text eqn:E; [vm_compute in E; discriminate|].
  rewrite <- E. apply sanitize_plain; vm_compute; reflexivity.
Qed.

Lemma greeted_record (P : DOMPurify) (C : DOMPurifyContract P) :
  saved_record (greeted_state (world_with None)) (cleared_world (world_with None))
  = record (JStr currentVersion) (JStr (no_uuids 0))
      (JNum 1700000000000) (JNum 1700000000000)
      (JArr [message_json
               {| id := no_uuids 1; timestamp := 1700000000000;
                  role := assistant;
                  content := strip_schemes welcome_text;
                  metadata := None |}])
      (default_preferences false)
      (summary (messages (greeted_state (world_with None)))
         (Z.of_nat (length welcome_text))).
Proof.
  unfold saved_record, greeted_state, welcome_in, message_in.
  cbn [messages map sessionId userPreferences].
  rewrite clean_message_json. unfold sanitized.
  cbn [id timestamp role content metadata]. rewrite (sanitize_welcome C).
  vm_compute. reflexivity.
Qed.

Lemma greeted_sound :
  sound {| id := uuids (drawn 1 (world_with None))
                   (uuid_next (drawn 1 (world_with None)));
           timestamp := clock (drawn 1 (world_with None));
           role := assistant; content := welcome_text; metadata := None |}.
Proof. split; vm_compute; discriminate. Qed.

(** After the container's clear the session holds the welcome message, and
    loading finds it in the store. *)
Lemma clear_leaves_the_welcome :
  uuids (world_with None) 1 <> []
  /\ forall (P : DOMPurify), DOMPurifyContract P ->
       messages (chatState (fst (handleClearChat true idle (world_with None))))
       <> []
       /\ fst (loadChat (snd (handleClearChat true idle (world_with None))))
          <> None.
Proof.
  split; [vm_compute; discriminate|].
  intros P C. rewrite handleClearChat_fst, handleClearChat_snd. split.
  - cbn [appended chatState messages fresh_state app]. discriminate.
  - destruct (@save_then_load P (greeted_state (world_with None))
                (cleared_world (world_with None)))
      as (w1 & st & w2 & Hs & Hl & _).
    + cbn [greeted_state messages forallb]. rewrite andb_true_r.
      apply message_json_ok. exact greeted_sound.
    + rewrite (greeted_record C). vm_compute. reflexivity.
    + rewrite (greeted_record C). apply N.leb_le. vm_compute. reflexivity.
    + rewrite Hs. unfold snd at 1. rewrite Hl. cbn [fst]. discriminate.
Qed.

(** A container as [new ChatbotContainer] and [initialize] leave it on an
    empty store: its session and its welcome message have taken the first
    two values of [uuidv4]. *)
Definition started : Container * World :=
  let (c0, w0) := ChatbotContainer.create (lit "/api/chat") 3 30000 (world_with None) in
  @initialize escaping c0 w0.

Lemma clear_then_load_witness :
  loadChat (snd (clearChat (world_with (Some (stringify unversioned)))))
  = (None, snd (clearChat (world_with (Some (stringify unversioned)))))
  /\ sessionId (chatState (fst started)) = JStr (lit "uuid-0")
  /\ sessionId (chatState (fst (@handleClearChat escaping true
                                  (fst started) (snd started))))
     = JStr (lit "uuid-2")
  /\ sessionId (chatState (fst (@handleClearChat escaping true
                                  (fst started) (snd started))))
     <> sessionId (chatState (fst started))
  /\ exists st w',
       loadChat (snd (@handleClearChat escaping true idle (world_with None)))
       = (Some st, w')
       /\ messages st
          = [@clean_message escaping (welcome_in (world_with None))].
Proof.
  destruct (@clear_then_load escaping idle
              (world_with (Some (stringify unversioned)))) as [Hstore _].
  destruct (@clear_then_load escaping (fst started) (snd started))
    as (_ & Hid & Hnew & _).
  destruct (@clear_then_load escaping idle (world_with None))
    as (_ & _ & _ & _ & _ & Hload).
  split; [exact Hstore|].
  split; [vm_compute; reflexivity|].
  split; [rewrite Hid; vm_compute; reflexivity|].
  split.
  - apply Hnew.
    + exists 0. split; [vm_compute; lia | vm_compute; reflexivity].
    + intros k Hk.
      assert (Hk2 : k < 2) by exact Hk.
      destruct k as [|[|k]]; [vm_compute; discriminate.. | lia].
  - apply Hload.
    + vm_compute. discriminate.
    + vm_compute. discriminate.
    + vm_compute. reflexivity.
    + apply N.leb_le. vm_compute. reflexivity.
Defined.

End Lifecycle.

(* ================================================================== *)
(** * Preparing the input (C1) *)
(* ================================================================== *)

Module Preparation.
Import InputValidator.

(** ** What a match can consume *)

(** The units a match of [r] may step over: those its leaves accept. *)
Fixpoint consumes (ic : bool) (r : regex) (c : N) : bool :=
  match r with
  | Eps | NotAhead _ | Bound => false
  | Chr x => unit_eqb ic x c
  | Cls p => p c
  | Seq r1 r2 | Alt r1 r2 => consumes ic r1 c || consumes ic r2 c
  | Star r1 => consumes ic r1 c
  end.

Lemma forallb_weaken {A} (p q : A -> bool) (l : list A) :
  (forall x, p x = true -> q x = true) ->
  forallb p l = true -> forallb q l = true.
Proof.
  intros Hpq. induction l as [|x l IH]; cbn [forallb]; [reflexivity|].
  intros H. apply andb_true_iff in H as [Hx Hl].
  now rewrite (Hpq x Hx), IH.
Qed.

(** A successful run of the matcher has stepped over a prefix of the
    input, made of units its expression accepts, before it handed over to
    its continuation. *)
Lemma rx_prefix (ic : bool) (r : regex) :
  forall (A : Type) (k : option N -> jsstring -> option A) prev s a,
    rx ic r k prev s = Some a ->
    exists m p' s',
      s = m ++ s' /\ forallb (consumes ic r) m = true /\ k p' s' = Some a.
Proof.
  induction r as [|c|p|r1 IH1 r2 IH2|r1 IH1 r2 IH2|r1 IH1|r1 _|];
    intros A k prev s a H; cbn [rx] in H.
  - exists [], prev, s. auto.
  - destruct s as [|x s1]; [discriminate|].
    destruct (unit_eqb ic c x) eqn:E; [|discriminate].
    exists [x], (Some x), s1. cbn. rewrite E. auto.
  - destruct s as [|x s1]; [discriminate|].
    destruct (p x) eqn:E; [|discriminate].
    exists [x], (Some x), s1. cbn. rewrite E. auto.
  - apply IH1 in H as (m1 & p1 & s1 & -> & Hm1 & H).
    apply IH2 in H as (m2 & p2 & s2 & -> & Hm2 & H).
    exists (m1 ++ m2), p2, s2. rewrite app_assoc. split; [reflexivity|].
    split; [|exact H]. rewrite forallb_app. apply andb_true_iff. split.
    + eapply forallb_weaken; [|exact Hm1]. cbn. intros x ->. reflexivity.
    + eapply forallb_weaken; [|exact Hm2]. cbn. intros x ->. apply orb_true_r.
  - destruct (rx ic r1 k prev s) as [a'|] eqn:E.
    + injection H as ->. apply IH1 in E as (m & p' & s' & -> & Hm & H).
      exists m, p', s'. repeat split; [|exact H].
      eapply forallb_weaken; [|exact Hm]. cbn. intros x ->. reflexivity.
    + apply IH2 in H as (m & p' & s' & -> & Hm & H).
      exists m, p', s'. repeat split; [|exact H].
      eapply forallb_weaken; [|exact Hm]. cbn. intros x ->. apply orb_true_r.
  - remember (length s) as n eqn:En. clear En.
    revert prev s a H. induction n as [|n IHn]; intros prev s a H.
    + exists [], prev, s. auto.
    + match type of H with
      | match ?e with _ => _ end = _ => destruct e as [a'|] eqn:E
      end.
      * injection H as ->. apply IH1 in E as (m1 & p1 & s1 & -> & Hm1 & E).
        destruct (length s1 <? length (m1 ++ s1)); [|discriminate].
        apply IHn in E as (m2 & p2 & s2 & -> & Hm2 & E).
        exists (m1 ++ m2), p2, s2. rewrite app_assoc. split; [reflexivity|].
        split; [|exact E]. rewrite forallb_app.
        apply andb_true_iff. split; [exact Hm1 | exact Hm2].
      * exists [], prev, s. auto.
  - destruct (rx ic r1 (fun _ _ => Some tt) prev s); [discriminate|].
    exists [], prev, s. auto.
  - destruct (xorb _ _); [|discriminate].
    exists [], prev, s. auto.
Qed.

(** ** Edits that touch white space only *)

(** [wedit s t]: [t] is [s] with some white space dropped or replaced by
    other white space; nothing is inserted and no other unit is touched. *)
Inductive wedit : jsstring -> jsstring -> Prop :=
| we_nil : wedit [] []
| we_keep c s t : wedit s t -> wedit (c :: s) (c :: t)
| we_drop c s t : is_space c = true -> wedit s t -> wedit (c :: s) t
| we_swap c d s t :
    is_space c = true -> is_space d = true -> wedit s t ->
    wedit (c :: s) (d :: t).

Lemma wedit_refl (s : jsstring) : wedit s s.
Proof. induction s; constructor; assumption. Qed.

Lemma wedit_app (a b c d : jsstring) :
  wedit a b -> wedit c d -> wedit (a ++ c) (b ++ d).
Proof.
  induction 1 as [|x s t _ IH|x s t Hx _ IH|x y s t Hx Hy _ IH];
    intros Hcd; cbn [app].
  - exact Hcd.
  - apply we_keep. now apply IH.
  - apply we_drop; [exact Hx|]. now apply IH.
  - apply we_swap; [exact Hx | exact Hy|]. now apply IH.
Qed.

Lemma wedit_drop_all (m : jsstring) : forallb is_space m = true -> wedit m [].
Proof.
  induction m as [|c m IH]; cbn [forallb]; [constructor|].
  intros H. apply andb_true_iff in H as [Hc Hm]. constructor; auto.
Qed.

Lemma wedit_nil_inv (t : jsstring) : wedit [] t -> t = [].
Proof. now inversion 1. Qed.

Lemma wedit_keep_inv (c : N) (s t : jsstring) :
  is_space c = false -> wedit (c :: s) t -> exists t', t = c :: t' /\ wedit s t'.
Proof.
  intros Hc H. inversion H; subst; try congruence. eauto.
Qed.

Lemma dropWhile_split (p : N -> bool) (s : jsstring) :
  exists m, s = m ++ dropWhile p s /\ forallb p m = true.
Proof.
  induction s as [|c s (m & Hs & Hm)]; cbn [dropWhile].
  - now exists [].
  - destruct (p c) eqn:E.
    + exists (c :: m). cbn. rewrite E, Hm. split; [now f_equal | reflexivity].
    + now exists [].
Qed.

Lemma wedit_trimStart (s : jsstring) : wedit s (trimStart s).
Proof.
  unfold trimStart. destruct (dropWhile_split is_space s) as (m & Hs & Hm).
  rewrite Hs at 1. change (dropWhile is_space s) with ([] ++ dropWhile is_space s).
  apply wedit_app; [now apply wedit_drop_all | apply wedit_refl].
Qed.

Lemma wedit_trimEnd (s : jsstring) : wedit s (trimEnd s).
Proof.
  unfold trimEnd. destruct (dropWhile_split is_space (rev s)) as (m & Hs & Hm).
  assert (Hs' : s = rev (dropWhile is_space (rev s)) ++ rev m).
  { rewrite <- rev_app_distr, <- Hs. now rewrite rev_involutive. }
  rewrite Hs' at 1.
  rewrite <- (app_nil_r (rev (dropWhile is_space (rev s)))) at 2.
  apply wedit_app; [apply wedit_refl|].
  apply wedit_drop_all. rewrite forallb_forall in *.
  intros x Hx. apply Hm. now apply in_rev.
Qed.

Lemma wedit_trans (a b c : jsstring) : wedit a b -> wedit b c -> wedit a c.
Proof.
  intros Hab. revert c. induction Hab as [|x s t _ IH|x s t Hx _ IH|x d s t Hx Hd _ IH];
    intros c Hbc.
  - exact Hbc.
  - inversion Hbc; subst.
    + constructor. now apply IH.
    + apply we_drop; [assumption|]. now apply IH.
    + apply we_swap; try assumption. now apply IH.
  - apply we_drop; [assumption|]. now apply IH.
  - inversion Hbc; subst.
    + apply we_swap; try assumption. now apply IH.
    + apply we_drop; [assumption|]. now apply IH.
    + apply we_swap; try assumption. now apply IH.
Qed.

Lemma wedit_trim (s : jsstring) : wedit s (trim s).
Proof.
  unfold trim. eapply wedit_trans; [apply wedit_trimStart | apply wedit_trimEnd].
Qed.

(** Splitting into lines and joining them again. *)
Lemma split_not_nil (s : jsstring) : split 10 s <> [].
Proof.
  induction s as [|c s IH]; cbn [split]; [discriminate|].
  destruct (c =? 10)%N; [discriminate|].
  destruct (split 10 s); [congruence | discriminate].
Qed.

Lemma join_cons (l : jsstring) (ls : list jsstring) :
  ls <> [] -> join [10%N] (l :: ls) = l ++ 10%N :: join [10%N] ls.
Proof. destruct ls; [congruence | reflexivity]. Qed.

Lemma join_split (s : jsstring) : join [10%N] (split 10 s) = s.
Proof.
  induction s as [|c s IH]; cbn [split]; [reflexivity|].
  destruct (N.eqb_spec c 10) as [->|Hc].
  - rewrite join_cons by apply split_not_nil. cbn [app]. now rewrite IH.
  - pose proof (split_not_nil s) as Hn.
    destruct (split 10 s) as [|l ls]; [congruence|].
    rewrite <- IH. destruct ls; reflexivity.
Qed.

Lemma wedit_join_trim (lines : list jsstring) :
  wedit (join [10%N] lines) (join [10%N] (map trim lines)).
Proof.
  induction lines as [|l ls IH]; cbn [map]; [constructor|].
  destruct ls as [|l' ls].
  - cbn [join map]. apply wedit_trim.
  - rewrite join_cons by discriminate.
    rewrite (@join_cons (trim l) (map trim (l' :: ls)))
      by (cbn [map]; discriminate).
    apply wedit_app; [apply wedit_trim|]. constructor. exact IH.
Qed.

(** Replacing the matches of [r] by [repl] edits white space only, when
    every match of [r] is a run of white space that [repl] is an edit of. *)
Section Replace.
Variables (ic : bool) (r : regex) (repl : jsstring).
Hypothesis matches_edit :
  forall prev s p' s',
    match_here ic r prev s = Some (p', s') ->
    (length s' < length s)%nat /\ exists m, s = m ++ s' /\ wedit m repl.

Lemma wedit_replace_loop (fuel : nat) :
  forall prev s, wedit s (replace_loop fuel ic r repl prev s).
Proof.
  induction fuel as [|fuel IH]; intros prev s; cbn [replace_loop].
  - apply wedit_refl.
  - destruct (match_here ic r prev s) as [[p' s']|] eqn:E.
    + destruct (matches_edit _ _ E) as (Hlen & m & Hs & Hm).
      apply Nat.ltb_lt in Hlen. rewrite Hlen. rewrite Hs at 1.
      apply wedit_app; [exact Hm | apply IH].
    + destruct s as [|c s1]; [constructor|]. constructor. apply IH.
Qed.

Lemma wedit_replace_all (s : jsstring) : wedit s (replace_all ic r repl s).
Proof. apply wedit_replace_loop. Qed.

End Replace.

(** The equations of the matcher at a sequence and at a leaf. *)
Lemma rx_seq (A : Type) (ic : bool) (r1 r2 : regex)
    (k : option N -> jsstring -> option A) (prev : option N) (s : jsstring) :
  rx ic (Seq r1 r2) k prev s = rx ic r1 (fun p' s' => rx ic r2 k p' s') prev s.
Proof. reflexivity. Qed.

Lemma rx_cls (A : Type) (ic : bool) (p : N -> bool)
    (k : option N -> jsstring -> option A) (prev : option N) (s : jsstring) :
  rx ic (Cls p) k prev s
  = match s with
    | x :: s' => if p x then k (Some x) s' else None
    | [] => None
    end.
Proof. reflexivity. Qed.

Lemma rx_chr (A : Type) (ic : bool) (c : N)
    (k : option N -> jsstring -> option A) (prev : option N) (s : jsstring) :
  rx ic (Chr c) k prev s
  = match s with
    | x :: s' => if unit_eqb ic c x then k (Some x) s' else None
    | [] => None
    end.
Proof. reflexivity. Qed.

Lemma rx_eps (A : Type) (ic : bool)
    (k : option N -> jsstring -> option A) (prev : option N) (s : jsstring) :
  rx ic Eps k prev s = k prev s.
Proof. reflexivity. Qed.

Lemma is_blank_space (c : N) : is_blank c = true -> is_space c = true.
Proof.
  unfold is_blank. intros H. apply orb_true_iff in H as [H|H];
    apply N.eqb_eq in H; subst; reflexivity.
Qed.

Lemma blanks_edit (prev : option N) (s : jsstring) (p' : option N) (s' : jsstring) :
  match_here false (Plus (Cls is_blank)) prev s = Some (p', s') ->
  (length s' < length s)%nat /\ exists m, s = m ++ s' /\ wedit m [32%N].
Proof.
  unfold match_here, Plus. rewrite rx_seq, rx_cls.
  destruct s as [|x s1]; [discriminate|].
  destruct (is_blank x) eqn:Ex; [|discriminate].
  intros H. apply rx_prefix in H as (m & q & s2 & -> & Hm & H).
  injection H as _ ->. split.
  - cbn [length]. rewrite length_app. lia.
  - exists (x :: m). split; [reflexivity|].
    apply we_swap; [now apply is_blank_space | reflexivity|].
    apply wedit_drop_all. eapply forallb_weaken; [|exact Hm].
    cbn. intros c Hc. now apply is_blank_space.
Qed.

Lemma newlines_edit (prev : option N) (s : jsstring) (p' : option N) (s' : jsstring) :
  match_here false (AtLeast 3 (Chr 10)) prev s = Some (p', s') ->
  (length s' < length s)%nat /\ exists m, s = m ++ s' /\ wedit m [10; 10]%N.
Proof.
  unfold match_here, AtLeast. cbn [Rep]. unfold unit_eqb.
  rewrite !rx_seq, rx_chr. unfold unit_eqb.
  destruct s as [|x1 s1]; [discriminate|].
  destruct (N.eqb_spec 10 x1) as [<-|]; [|discriminate].
  rewrite rx_seq, rx_chr. unfold unit_eqb.
  destruct s1 as [|x2 s2]; [discriminate|].
  destruct (N.eqb_spec 10 x2) as [<-|]; [|discriminate].
  rewrite rx_seq, rx_chr. unfold unit_eqb.
  destruct s2 as [|x3 s3]; [discriminate|].
  destruct (N.eqb_spec 10 x3) as [<-|]; [|discriminate].
  rewrite rx_eps.
  intros H.
  apply (@rx_prefix false (Star (Chr 10))) in H as (m & q & s2 & -> & Hm & H).
  injection H as _ ->. split.
  - cbn [length]. rewrite length_app. lia.
  - exists (10 :: 10 :: 10 :: m)%N. split; [reflexivity|].
    do 2 constructor. apply we_drop; [reflexivity|].
    apply wedit_drop_all. eapply forallb_weaken; [|exact Hm].
    cbn [consumes]. unfold unit_eqb. intros c Hc.
    apply N.eqb_eq in Hc. now subst.
Qed.

Lemma wedit_normalizeWhitespace (s : jsstring) : wedit s (normalizeWhitespace s).
Proof.
  unfold normalizeWhitespace.
  eapply wedit_trans; [apply (@wedit_replace_all _ _ _ (@blanks_edit))|].
  eapply wedit_trans; [apply (@wedit_replace_all _ _ _ (@newlines_edit))|].
  eapply wedit_trans; [|apply wedit_trim].
  rewrite <- (join_split (replace_all _ _ _ (replace_all _ _ _ s))) at 1.
  apply wedit_join_trim.
Qed.

(** ** Markup that opens allowed tags only *)

(** [p], [b] (of [br]) and [/]: what follows a [<] in the output of the
    sanitiser for user input. *)
Definition opens_allowed (c : N) : bool :=
  ((c =? 112) || (c =? 98) || (c =? 47))%N.

(** Every [<] is the last unit or is followed by such a unit. *)
Fixpoint lt_ok (s : jsstring) : bool :=
  match s with
  | [] => true
  | c :: t =>
      (if (c =? 60)%N
       then match t with [] => true | d :: _ => opens_allowed d end
       else true)
      && lt_ok t
  end.

Lemma opens_allowed_not_space (c : N) : opens_allowed c = true -> is_space c = false.
Proof.
  unfold opens_allowed. intros H.
  apply orb_true_iff in H as [H|H]; [apply orb_true_iff in H as [H|H]|];
    apply N.eqb_eq in H; subst; reflexivity.
Qed.

Lemma lt_ok_wedit (s t : jsstring) : wedit s t -> lt_ok s = true -> lt_ok t = true.
Proof.
  induction 1 as [|c s t Hst IH|c s t Hc Hst IH|c d s t Hc Hd Hst IH];
    cbn [lt_ok]; intros H.
  - reflexivity.
  - apply andb_true_iff in H as [Hh Hs]. rewrite (IH Hs), andb_true_r.
    destruct (c =? 60)%N; [|reflexivity].
    destruct s as [|e s1].
    + now rewrite (wedit_nil_inv Hst).
    + destruct (wedit_keep_inv (opens_allowed_not_space _ Hh) Hst) as (t' & -> & _).
      exact Hh.
  - apply andb_true_iff in H as [_ Hs]. now apply IH.
  - apply andb_true_iff in H as [_ Hs]. rewrite (IH Hs), andb_true_r.
    destruct (N.eqb_spec d 60) as [->|]; [discriminate | reflexivity].
Qed.

Lemma lt_ok_firstn (n : nat) (s : jsstring) :
  lt_ok s = true -> lt_ok (firstn n s) = true.
Proof.
  revert s. induction n as [|n IH]; intros s H; [reflexivity|].
  destruct s as [|c s]; [reflexivity|].
  cbn [firstn lt_ok] in *. apply andb_true_iff in H as [Hh Hs].
  rewrite (IH s Hs), andb_true_r.
  destruct (c =? 60)%N; [|reflexivity].
  destruct n; [reflexivity|]. destruct s; [reflexivity | exact Hh].
Qed.

Lemma tags_within_lt_ok (out : jsstring) :
  tags_within (ALLOWED_TAGS user_config) out -> lt_ok out = true.
Proof.
  induction out as [|c out IH]; intros H; [reflexivity|].
  cbn [lt_ok]. apply andb_true_iff. split.
  - destruct (N.eqb_spec c 60) as [->|]; [|reflexivity].
    destruct (H [] out eq_refl) as (tag & Hin & Hstart).
    replace (ALLOWED_TAGS user_config) with [[112%N]; [98; 114]%N] in Hin
      by (vm_compute; reflexivity).
    destruct out as [|d out']; [reflexivity|].
    cbn [In] in Hin. destruct Hin as [<- | [<- | []]];
      destruct Hstart as [Hs | Hs]; cbn [startsWith] in Hs;
      apply andb_true_iff in Hs as [Hs _]; apply N.eqb_eq in Hs; subst;
      reflexivity.
  - apply IH. intros pre post E. apply (H (c :: pre) post). now rewrite E.
Qed.

Lemma canon_lt (a : N) : unit_eqb true 60 a = true -> a = 60%N.
Proof.
  unfold unit_eqb, canon. cbn [N.leb N.compare Pos.compare Pos.compare_cont andb].
  destruct ((97 <=? a) && (a <=? 122))%N eqn:E; intros H; apply N.eqb_eq in H.
  - apply andb_true_iff in E as [E1 E2].
    apply N.leb_le in E1, E2. lia.
  - now symmetry.
Qed.

(** A lower-case letter other than [p] and [b], as a pattern unit under the
    [i] flag, matches no unit that may follow a [<]. *)
Lemma letter_not_allowed (x c : N) :
  (97 <= x <= 122)%N -> x <> 112%N -> x <> 98%N ->
  unit_eqb true x c = true -> opens_allowed c = false.
Proof.
  intros Hx Hp Hb. unfold unit_eqb, canon, opens_allowed.
  replace ((97 <=? x) && (x <=? 122))%N with true
    by (symmetry; apply andb_true_iff; split; apply N.leb_le; lia).
  destruct ((97 <=? c) && (c <=? 122))%N eqn:E; intros H; apply N.eqb_eq in H.
  - apply andb_true_iff in E as [E1 E2]. apply N.leb_le in E1, E2.
    repeat (apply orb_false_iff; split); apply N.eqb_neq; lia.
  - apply andb_false_iff in E.
    repeat (apply orb_false_iff; split); apply N.eqb_neq;
      destruct E as [E|E]; try apply N.leb_gt in E; lia.
Qed.

(** No pattern that starts with [<] and such a letter matches markup whose
    [<] open allowed tags only. *)
Lemma no_tag_match (x : N) (X R : regex) :
  (forall c, unit_eqb true x c = true -> opens_allowed c = false) ->
  forall s prev,
    lt_ok s = true ->
    search true (Seq (Seq (Chr 60) (Seq (Chr x) X)) R) prev s = false.
Proof.
  intros Hx. induction s as [|a s IH]; intros prev Hs.
  - reflexivity.
  - cbn [lt_ok] in Hs. apply andb_true_iff in Hs as [Hh Hs].
    cbn [search]. unfold match_here. rewrite !rx_seq, rx_chr.
    destruct (unit_eqb true 60 a) eqn:Ea.
    + apply canon_lt in Ea. subst a. cbn [N.eqb Pos.eqb] in Hh.
      rewrite rx_seq, rx_chr.
      destruct s as [|b s1]; [now apply IH|].
      destruct (unit_eqb true x b) eqn:Eb; [|now apply IH].
      apply Hx in Eb. congruence.
    + now apply IH.
Qed.

Definition tag_patterns : list regex :=
  [re_script; re_iframe; re_object; re_embed; re_form].

Lemma tag_pattern_shape (r : regex) :
  In r tag_patterns ->
  exists x X R,
    r = Seq (Seq (Chr 60) (Seq (Chr x) X)) R
    /\ (97 <= x <= 122)%N /\ x <> 112%N /\ x <> 98%N.
Proof.
  unfold tag_patterns. cbn [In].
  intros [<- | [<- | [<- | [<- | [<- | []]]]]].
  - unfold re_script, seqs.
    replace (lit "<script") with [60; 115; 99; 114; 105; 112; 116]%N
      by (vm_compute; reflexivity).
    cbn [fold_right Str]. eexists _, _, _. split; [reflexivity|]. lia.
  - unfold re_iframe.
    replace (lit "<iframe") with [60; 105; 102; 114; 97; 109; 101]%N
      by (vm_compute; reflexivity).
    cbn [fold_right Str]. eexists _, _, _. split; [reflexivity|]. lia.
  - unfold re_object.
    replace (lit "<object") with [60; 111; 98; 106; 101; 99; 116]%N
      by (vm_compute; reflexivity).
    cbn [fold_right Str]. eexists _, _, _. split; [reflexivity|]. lia.
  - unfold re_embed.
    replace (lit "<embed") with [60; 101; 109; 98; 101; 100]%N
      by (vm_compute; reflexivity).
    cbn [fold_right Str]. eexists _, _, _. split; [reflexivity|]. lia.
  - unfold re_form.
    replace (lit "<form") with [60; 102; 111; 114; 109]%N
      by (vm_compute; reflexivity).
    cbn [fold_right Str]. eexists _, _, _. split; [reflexivity|]. lia.
Qed.

Lemma lt_ok_no_tag (s : jsstring) (r : regex) :
  lt_ok s = true -> In r tag_patterns -> test true r s = false.
Proof.
  intros Hs Hr. destruct (tag_pattern_shape Hr) as (x & X & R & -> & Hx & Hp & Hb).
  apply no_tag_match; [|exact Hs].
  intros c. now apply letter_not_allowed.
Qed.

Section WithPurifier.
Context {P : DOMPurify}.

Lemma prepareInput_length (v : InputValidator) (s : jsstring) :
  length (prepareInput v s) <= maxLength v.
Proof.
  unfold prepareInput. destruct s as [|c s]; [cbn; lia|].
  cbv zeta.
  destruct (Nat.ltb_spec (maxLength v)
              (length (normalizeWhitespace (sanitizeUserInput (c :: s)))))
    as [H|H]; [|exact H].
  unfold substring0.
  pose proof (trim_length (firstn (maxLength v)
                             (normalizeWhitespace (sanitizeUserInput (c :: s))))).
  pose proof (firstn_le_length (maxLength v)
                (normalizeWhitespace (sanitizeUserInput (c :: s)))).
  lia.
Qed.

Lemma prepareInput_lt_ok (v : InputValidator) (s : jsstring) :
  tags_within (ALLOWED_TAGS user_config) (sanitizeUserInput s) ->
  lt_ok (prepareInput v s) = true.
Proof.
  intros Htags.
  unfold prepareInput. destruct s as [|c s]; [reflexivity|]. cbv zeta.
  assert (Hn : lt_ok (normalizeWhitespace (sanitizeUserInput (c :: s))) = true).
  { eapply lt_ok_wedit; [apply wedit_normalizeWhitespace|].
    now apply tags_within_lt_ok. }
  destruct (maxLength v <? _); [|exact Hn].
  eapply lt_ok_wedit; [apply wedit_trim|].
  unfold substring0. now apply lt_ok_firstn.
Qed.

(** C1, as the code has it: for every input, of any length, the prepared
    text is at most the maximum long (4000 for the default validator); and,
    when every [<] of the text DOMPurify returns for this input begins an
    opening or a closing tag of an allowed name ([p], [br]), so that no [<]
    is left inside a text or an attribute value, the prepared text matches
    none of the tag patterns of the unsafe-content check: script, iframe,
    object, embed, form.  (The other patterns are not covered:
    [prepareInput] has no step that takes handler attributes,
    [expression(], [url(] or [import(] out of a text.) *)
Theorem prepareInput_bounded_and_tag_free (v : InputValidator) (s : jsstring) :
  length (prepareInput v s) <= maxLength v
  /\ (tags_within (ALLOWED_TAGS user_config) (sanitizeUserInput s) ->
      forall pattern, In pattern tag_patterns ->
        test true pattern (prepareInput v s) = false).
Proof.
  split; [apply prepareInput_length|].
  intros Htags pattern Hin. apply lt_ok_no_tag; [|exact Hin].
  now apply prepareInput_lt_ok.
Qed.

End WithPurifier.

(** ** Purifiers to run the preparation with *)

(** Whether every [<] of [out] opens or closes a tag of an allowed name. *)
Fixpoint tags_ok (allowed : list jsstring) (out : jsstring) : bool :=
  match out with
  | [] => true
  | c :: post =>
      (if (c =? 60)%N
       then existsb (fun tag => startsWith tag post
                                || startsWith (47%N :: tag) post) allowed
       else true)
      && tags_ok allowed post
  end.

Lemma tags_ok_within (allowed : list jsstring) (out : jsstring) :
  tags_ok allowed out = true -> tags_within allowed out.
Proof.
  induction out as [|c out IH]; intros H pre post E.
  - destruct pre; discriminate.
  - cbn [tags_ok] in H. apply andb_true_iff in H as [Hc Hout].
    destruct pre as [|d pre]; cbn [app] in E; injection E as -> ->.
    + cbn [N.eqb Pos.eqb] in Hc. apply existsb_exists in Hc as (tag & Hin & Ht).
      exists tag. split; [exact Hin|]. now apply orb_true_iff in Ht.
    + now apply (IH Hout pre post).
Qed.

(** A sanitiser that keeps the [<] of the allowed tags, with all that
    follows them, and escapes every other [<]. *)
Fixpoint keep_allowed (allowed : list jsstring) (s : jsstring) : jsstring :=
  match s with
  | [] => []
  | c :: post =>
      if (c =? 60)%N
      then if existsb (fun tag => startsWith tag post
                                  || startsWith (47%N :: tag) post) allowed
           then c :: keep_allowed allowed post
           else lit "&lt;" ++ keep_allowed allowed post
      else c :: keep_allowed allowed post
  end.

Definition keeping : DOMPurify :=
  {| sanitize := fun s cfg => keep_allowed (ALLOWED_TAGS cfg) s |}.

(** A sanitiser that answers one [p] element whose attribute holds a [<],
    whatever it is given. *)
Definition labelled : jsstring :=
  lit "<p aria-label=" ++ [34%N] ++ lit "<iframe" ++ [34%N] ++ lit ">x</p>".

Definition labelling : DOMPurify := {| sanitize := fun _ _ => labelled |}.

Definition framed : jsstring :=
  lit "  <p>bonjour</p> <iframe src=x>le</iframe><br>   monde ".

Lemma prepareInput_bounded_and_tag_free_witness :
  @prepareInput keeping default framed
  = lit "<p>bonjour</p> &lt;iframe src=x>le&lt;/iframe><br> monde"
  /\ length (@prepareInput keeping default framed) <= 4000
  /\ test true re_iframe (@prepareInput keeping default framed) = false
  /\ test true re_script (@prepareInput keeping default framed) = false.
Proof.
  destruct (@prepareInput_bounded_and_tag_free keeping default framed)
    as [Hlen Htags].
  assert (Hkept : tags_within (ALLOWED_TAGS user_config)
                    (@sanitizeUserInput keeping framed))
    by (apply tags_ok_within; vm_compute; reflexivity).
  split; [vm_compute; reflexivity|].
  split; [exact Hlen|]. split; apply (Htags Hkept); cbn; tauto.
Defined.

(** The proviso bears on every [<], not on the names of the elements only:
    markup whose one element is a [p], with a [<] inside an attribute
    value, is handed on as it is and matches the iframe pattern. *)
Lemma tag_inside_attribute_matches :
  @prepareInput labelling default (lit "x") = labelled
  /\ test true re_iframe (@prepareInput labelling default (lit "x")) = true.
Proof. split; vm_compute; reflexivity. Qed.

(** A text that the unsafe-content check rejects and that [prepareInput]
    hands on as it is, whatever DOMPurify does with markup. *)
Lemma prepared_url_still_unsafe :
  length (lit "url(x)") <= 4000
  /\ forall (P : DOMPurify), DOMPurifyContract P ->
       prepareInput default (lit "url(x)") = lit "url(x)"
       /\ detectXSSPatterns (prepareInput default (lit "url(x)")) = true.
Proof.
  split; [vm_compute; lia|].
  intros P C.
  assert (H : prepareInput default (lit "url(x)") = lit "url(x)").
  { unfold prepareInput, sanitizeUserInput.
    replace (lit "url(x)") with [117; 114; 108; 40; 120; 41]%N
      by (vm_compute; reflexivity).
    replace (strip_schemes [117; 114; 108; 40; 120; 41]%N)
      with [117; 114; 108; 40; 120; 41]%N by (vm_compute; reflexivity).
    rewrite sanitize_plain by (vm_compute; reflexivity).
    vm_compute. reflexivity. }
  split; [exact H|]. rewrite H. vm_compute. reflexivity.
Qed.

(** One pass over the scheme names can leave one behind. *)
Lemma scheme_left_behind :
  strip_schemes (lit "javajavascript:script:alert(1)") = lit "javascript:alert(1)"
  /\ detectXSSPatterns (lit "javascript:alert(1)") = true.
Proof. split; vm_compute; reflexivity. Qed.

End Preparation.
(* ================================================================== *)
(** * Feedback of the validator (services/InputValidator) *)
(* ================================================================== *)

Module Feedback.
Import InputValidator.

Inductive CountStatus : Type := normal | warning | critical | exceeded.

Definition getCharacterCountStatus (v : InputValidator) (count : nat) : CountStatus :=
  if (maxLength v <? count)%nat then exceeded
  else if (criticalThreshold v <=? count)%nat then critical
  else if (warningThreshold v <=? count)%nat then warning
  else normal.

Definition getCharacterCountClass (v : InputValidator) (count : nat) : jsstring :=
  match getCharacterCountStatus v count with
  | exceeded | critical => lit "critical"
  | warning => lit "warning"
  | normal => []
  end.

(** The first error, else the first warning, else the empty string. *)
Definition getValidationMessage (result : ValidationResult) : jsstring :=
  match errors result with
  | e :: _ => e
  | [] =>
      match warnings result with
      | w :: _ => w
      | [] => []
      end
  end.

Inductive ValidationContext : Type := in_general | in_search | in_feedback.

(** [validateForContext]: the base result, to which the [search] context
    adds an error and the [feedback] context a warning (the arrays of the
    base result are pushed to; [isValid] is left as [validate] set it). *)
Definition validateForContext (v : InputValidator) (input : jsstring)
    (context : ValidationContext) : ValidationResult :=
  let baseResult := validate v input in
  match context with
  | in_general => baseResult
  | in_search =>
      if (length (trim input) <? 2)%nat then
        {| isValid := isValid baseResult;
           errors := errors baseResult
                     ++ [lit "Search query must be at least 2 characters long"];
           warnings := warnings baseResult;
           characterCount := characterCount baseResult;
           canSend := false |}
      else baseResult
  | in_feedback =>
      if (length (trim input) <? 10)%nat then
        {| isValid := isValid baseResult;
           errors := errors baseResult;
           warnings := warnings baseResult
                       ++ [lit "Feedback should be at least 10 characters for meaningful input"];
           characterCount := characterCount baseResult;
           canSend := canSend baseResult |}
      else baseResult
  end.

Lemma errors_nil_canSend (v : InputValidator) (s : jsstring) :
  canSend (validate v s) = true <-> errors (validate v s) = [].
Proof.
  destruct s as [|c s]; [cbn; split; discriminate|].
  unfold validate. cbv zeta. set (x := c :: s). cbn [canSend errors].
  destruct (isEmpty x); cbn [app negb].
  - rewrite andb_false_r. split; discriminate.
  - rewrite andb_true_r.
    destruct (_ ++ _) as [|e l]; cbn [length Nat.eqb];
      split; try discriminate; reflexivity.
Qed.

Lemma lit_cons_nonempty (c : ascii) (s : string) :
  (N_of_ascii c <? 128)%N = true -> lit (String c s) <> [].
Proof.
  intros H. unfold lit. cbn [list_ascii_of_string map utf16]. rewrite H.
  discriminate.
Qed.

Lemma first_error_nonempty (v : InputValidator) (s : jsstring) (e : jsstring)
    (rest : list jsstring) :
  errors (validate v s) = e :: rest -> e <> [].
Proof.
  destruct s as [|c s].
  - cbn. intros H. injection H as <- _. now apply lit_cons_nonempty.
  - unfold validate. cbv zeta. set (x := c :: s). cbn [errors].
    destruct (isEmpty x); cbn [app].
    + intros H. injection H as <- _. now apply lit_cons_nonempty.
    + destruct (maxLength v <? length x)%nat; cbn [app].
      * intros H. injection H as <- _.
        intros E. discriminate E.
      * destruct (detectXSSPatterns x); cbn [app]; [|discriminate].
        intros H. injection H as <- _. now apply lit_cons_nonempty.
Qed.

(** X1: an input is accepted exactly when [validate] lists no error; for
    every rejected input the message shown ([getValidationMessage]) is the
    first error of the list, and it is not empty. *)
Theorem rejected_input_has_message (v : InputValidator) (s : jsstring) :
  (canSend (validate v s) = true <-> errors (validate v s) = [])
  /\ (canSend (validate v s) = false ->
      getValidationMessage (validate v s) <> []
      /\ hd_error (errors (validate v s))
         = Some (getValidationMessage (validate v s))).
Proof.
  split; [apply errors_nil_canSend|].
  intros H. unfold getValidationMessage.
  destruct (errors (validate v s)) as [|e rest] eqn:E.
  - apply errors_nil_canSend in E. congruence.
  - split; [|reflexivity]. exact (first_error_nonempty v s E).
Qed.

Lemma rejected_input_has_message_witness :
  canSend (validate default (lit "   ")) = false
  /\ getValidationMessage (validate default (lit "   "))
     = lit "Message cannot be empty".
Proof.
  destruct (rejected_input_has_message default (lit "   ")) as [_ H].
  assert (Hc : canSend (validate default (lit "   ")) = false)
    by (vm_compute; reflexivity).
  split; [exact Hc|].
  destruct (H Hc) as [_ Hhd].
  assert (Hd : hd_error (errors (validate default (lit "   ")))
               = Some (lit "Message cannot be empty"))
    by (vm_compute; reflexivity).
  rewrite Hd in Hhd.
  apply (f_equal (fun o : option jsstring =>
                    match o with Some x => x | None => [] end)) in Hhd.
  symmetry. exact Hhd.
Defined.

Lemma thresholds_ordered (m : nat) :
  warningThreshold (create m) <= criticalThreshold (create m)
  /\ criticalThreshold (create m) <= maxLength (create m).
Proof.
  unfold create. cbn [warningThreshold criticalThreshold maxLength].
  pose proof (Nat.div_mod_eq (m * 875) 1000).
  pose proof (Nat.mod_upper_bound (m * 875) 1000).
  pose proof (Nat.div_mod_eq (m * 95) 100).
  pose proof (Nat.mod_upper_bound (m * 95) 100).
  lia.
Qed.

(** X2: for a validator built by the constructor the two thresholds lie in
    order below the maximum, so that the status of the counter is [exceeded]
    exactly above the maximum, [critical] from 95% of it up to it, [warning]
    from 87.5% up to there and [normal] below.  (The thresholds are the
    integer quotients of [create]; the double products
    [Math.floor(maxLength * 0.875)] and [Math.floor(maxLength * 0.95)] of
    the source have these values for every maximum a field can have.) *)
Theorem count_status_thresholds (m count : nat) :
  let v := create m in
  (getCharacterCountStatus v count = exceeded <-> m < count)
  /\ (getCharacterCountStatus v count = critical
      <-> m * 95 / 100 <= count <= m)
  /\ (getCharacterCountStatus v count = warning
      <-> m * 875 / 1000 <= count < m * 95 / 100)
  /\ (getCharacterCountStatus v count = normal <-> count < m * 875 / 1000)
  /\ (getCharacterCountClass v count = [] <-> count < m * 875 / 1000).
Proof.
  cbv zeta. destruct (thresholds_ordered m) as [H1 H2].
  unfold getCharacterCountClass, getCharacterCountStatus.
  unfold create in *. cbn [warningThreshold criticalThreshold maxLength] in *.
  destruct (Nat.ltb_spec m count);
    destruct (Nat.leb_spec (m * 95 / 100) count);
    destruct (Nat.leb_spec (m * 875 / 1000) count).
  all: repeat split; intros; try discriminate; try lia; try reflexivity.
  all: try (exfalso; match goal with
                     | H : lit _ = [] |- _ => vm_compute in H; discriminate
                     end).
Qed.

(** X3: the [general] context is plain validation.  In the [search] context
    an input can be sent exactly when it passes validation and its trimmed
    form has at least 2 characters; the added error leaves [isValid] as it
    was, so that a query of one character that passes validation comes back
    with [isValid] true, one error and [canSend] false.  The [feedback]
    context changes neither the errors nor what can be sent. *)
Theorem validateForContext_spec (v : InputValidator) (s : jsstring) :
  validateForContext v s in_general = validate v s
  /\ canSend (validateForContext v s in_search)
     = canSend (validate v s) && (2 <=? length (trim s))%nat
  /\ isValid (validateForContext v s in_search) = isValid (validate v s)
  /\ (exists added,
        errors (validateForContext v s in_search) = errors (validate v s) ++ added
        /\ (added = [] <-> 2 <= length (trim s)))
  /\ (canSend (validate v s) = true -> length (trim s) < 2 ->
      isValid (validateForContext v s in_search) = true
      /\ errors (validateForContext v s in_search)
         = [lit "Search query must be at least 2 characters long"]
      /\ canSend (validateForContext v s in_search) = false)
  /\ canSend (validateForContext v s in_feedback) = canSend (validate v s)
  /\ errors (validateForContext v s in_feedback) = errors (validate v s)
  /\ isValid (validateForContext v s in_feedback) = isValid (validate v s).
Proof.
  assert (Hodd : canSend (validate v s) = true -> length (trim s) < 2 ->
                 isValid (validateForContext v s in_search) = true
                 /\ errors (validateForContext v s in_search)
                    = [lit "Search query must be at least 2 characters long"]
                 /\ canSend (validateForContext v s in_search) = false).
  { intros Hcan Hlen. unfold validateForContext. cbv zeta.
    replace (length (trim s) <? 2)%nat with true
      by (symmetry; now apply Nat.ltb_lt).
    cbn [isValid errors canSend].
    pose proof (proj1 (errors_nil_canSend v s) Hcan) as He. rewrite He.
    split; [|split; reflexivity].
    destruct s as [|c0 s0]; [discriminate Hcan|].
    unfold validate in *. cbv zeta in *. cbn [canSend isValid errors] in *.
    now apply andb_true_iff in Hcan as [Hcan _]. }
  revert Hodd.
  unfold validateForContext. cbv zeta.
  destruct (Nat.ltb_spec (length (trim s)) 2) as [H2|H2];
    destruct (Nat.ltb_spec (length (trim s)) 10) as [H10|H10];
    cbn [canSend isValid errors].
  all: replace (2 <=? length (trim s))%nat with (negb (length (trim s) <? 2)%nat)
         by (rewrite Nat.ltb_antisym, negb_involutive; reflexivity).
  all: destruct (Nat.ltb_spec (length (trim s)) 2); try lia; cbn [negb].
  all: rewrite ?andb_false_r, ?andb_true_r.
  all: intros Hodd.
  all: repeat split; try reflexivity; try (apply Hodd; assumption);
    try (intros; lia).
  all: try (eexists; split; [reflexivity|]; split; [discriminate | lia]).
  all: try (exists []; rewrite app_nil_r; split; [reflexivity|]; split; [lia | reflexivity]).
Qed.

End Feedback.
(* ================================================================== *)
(** * The input field (components/InputField) *)
(* ================================================================== *)

Module InputField.
Import InputValidator.

(** [InputFieldConfig], without its DOM element; [Handler] stands for
    [EventHandler<string>]. *)
Module Config.
Record InputFieldConfig (Handler : Type) : Type := {
  maxLength : nat;
  placeholder : jsstring;
  onSend : Handler;
  onInput : Handler
}.
End Config.

(** The field, as far as its value and its handlers go. *)
Record Field (Handler : Type) : Type := {
  validator : InputValidator;
  currentValue : jsstring;
  isComposing : bool;
  onSendHandler : option Handler;
  onInputHandler : option Handler
}.

Arguments validator {Handler}.
Arguments currentValue {Handler}.
Arguments isComposing {Handler}.
Arguments onSendHandler {Handler}.
Arguments onInputHandler {Handler}.

(** [new InputField(config)]: the validator is built for
    [config.maxLength || 4000]; of [config] the constructor and [render]
    read [element], [maxLength] and [placeholder] only, and the two
    handlers are left unset. *)
Definition create {Handler} (config : Config.InputFieldConfig Handler)
  : Field Handler :=
  {| validator :=
       InputValidator.create
         match Config.maxLength config with O => 4000 | n => n end;
     currentValue := [];
     isComposing := false;
     onSendHandler := None;
     onInputHandler := None |}.

Definition with_value {Handler} (value : jsstring) (f : Field Handler)
  : Field Handler :=
  {| validator := validator f; currentValue := value;
     isComposing := isComposing f; onSendHandler := onSendHandler f;
     onInputHandler := onInputHandler f |}.

Definition with_composing {Handler} (b : bool) (f : Field Handler)
  : Field Handler :=
  {| validator := validator f; currentValue := currentValue f;
     isComposing := b; onSendHandler := onSendHandler f;
     onInputHandler := onInputHandler f |}.

Definition setValue {Handler} (value : jsstring) (f : Field Handler)
  : Field Handler := with_value value f.

Definition clear {Handler} (f : Field Handler) : Field Handler :=
  with_value [] f.

Definition onSend {Handler} (handler : Handler) (f : Field Handler)
  : Field Handler :=
  {| validator := validator f; currentValue := currentValue f;
     isComposing := isComposing f; onSendHandler := Some handler;
     onInputHandler := onInputHandler f |}.

Definition onInput {Handler} (handler : Handler) (f : Field Handler)
  : Field Handler :=
  {| validator := validator f; currentValue := currentValue f;
     isComposing := isComposing f; onSendHandler := onSendHandler f;
     onInputHandler := Some handler |}.

Definition dispose {Handler} (f : Field Handler) : Field Handler :=
  {| validator := validator f; currentValue := currentValue f;
     isComposing := isComposing f; onSendHandler := None;
     onInputHandler := None |}.

(** A call of a handler: the handler and the text it is given. *)
Definition call_of {Handler} (handler : option Handler) (text : jsstring)
  : option (Handler * jsstring) :=
  match handler with
  | Some h => Some (h, text)
  | None => None
  end.

(** [handleInput], with the value of the text area: the call it makes, if
    any, and the field afterwards. *)
Definition handleInput {Handler} (textarea_value : jsstring) (f : Field Handler)
  : option (Handler * jsstring) * Field Handler :=
  if isComposing f then (None, f)
  else (call_of (onInputHandler f) textarea_value, with_value textarea_value f).

(** [handleSend]: the value is trimmed and checked; when it cannot be sent
    the field keeps it; otherwise the text is prepared, the send handler is
    called with it if there is one, and the field is cleared. *)
Definition handleSend `{DOMPurify} {Handler} (f : Field Handler)
  : option (Handler * jsstring) * Field Handler :=
  let trimmedValue := trim (currentValue f) in
  if negb (canSendInput (validator f) trimmedValue) then (None, f)
  else
    let preparedInput := prepareInput (validator f) trimmedValue in
    (call_of (onSendHandler f) preparedInput, clear f).

(** What happens to the field in this program: the user types (with or
    without an input method), presses Enter or submits the form, presses
    Escape; the container calls [setValue], [clear] and [dispose].  No code
    of the program calls [onSend] or [onInput]. *)
Inductive action : Type :=
| Input (textarea_value : jsstring)
| CompositionStart
| CompositionEnd (textarea_value : jsstring)
| Send
| SetValue (value : jsstring)
| Clear
| Dispose.

Definition perform `{DOMPurify} {Handler} (a : action) (f : Field Handler)
  : option (Handler * jsstring) * Field Handler :=
  match a with
  | Input value => handleInput value f
  | CompositionStart => (None, with_composing true f)
  | CompositionEnd value => handleInput value (with_composing false f)
  | Send => handleSend f
  | SetValue value => (None, setValue value f)
  | Clear => (None, clear f)
  | Dispose => (None, dispose f)
  end.

(** The calls made over a sequence of actions, in order, and the field at
    its end. *)
Fixpoint run `{DOMPurify} {Handler} (actions : list action) (f : Field Handler)
  : list (Handler * jsstring) * Field Handler :=
  match actions with
  | [] => ([], f)
  | a :: rest =>
      let (made, f1) := perform a f in
      let (later, f2) := run rest f1 in
      (match made with Some c => c :: later | None => later end, f2)
  end.

End InputField.

(* ================================================================== *)
(** * What the input field hands on *)
(* ================================================================== *)

Module FieldFacts.
Import InputValidator InputField.

Section WithPurifier.
Context {P : DOMPurify} {Handler : Type}.

Definition unset (f : Field Handler) : Prop :=
  onSendHandler f = None /\ onInputHandler f = None.

Lemma perform_unset (a : action) (f : Field Handler) :
  unset f -> fst (perform a f) = None /\ unset (snd (perform a f)).
Proof.
  destruct f as [v value composing hs hi]. unfold unset.
  cbn [onSendHandler onInputHandler]. intros [-> ->].
  destruct a; cbn [perform]; unfold handleInput, handleSend;
    cbn [with_composing isComposing onInputHandler onSendHandler
         validator currentValue];
    cbv zeta;
    repeat match goal with
           | |- context [if ?b then _ else _] => destruct b
           end;
    cbn; repeat split.
Qed.

Lemma run_unset (actions : list action) (f : Field Handler) :
  unset f -> fst (run actions f) = [] /\ unset (snd (run actions f)).
Proof.
  revert f. induction actions as [|a rest IH]; intros f Hf; [now split|].
  cbn [run]. destruct (perform_unset a Hf) as [Hmade Hnext].
  destruct (perform a f) as [made f1]. cbn [fst snd] in *. subst made.
  destruct (IH f1 Hnext) as [Hlater Hend].
  destruct (run rest f1) as [later f2]. cbn [fst snd] in *. now split.
Qed.

(** X30: the field as the program builds it never calls a handler.  The
    constructor does not read [config.onSend] (nor [config.onInput]), and
    no code of the program calls [onSend]: whatever the user types and
    sends, and whatever the container sets, clears or disposes, no call is
    made.  In particular a value that passes the check is taken out of the
    field by the send action and handed to no one. *)
Theorem unregistered_field_sends_nothing
    (config : Config.InputFieldConfig Handler) (actions : list action) :
  let f := snd (run actions (create config)) in
  fst (run actions (create config)) = []
  /\ onSendHandler f = None
  /\ fst (handleSend f) = None
  /\ (canSendInput (validator f) (trim (currentValue f)) = true ->
      currentValue (snd (handleSend f)) = []).
Proof.
  cbv zeta.
  destruct (@run_unset actions (create config)) as [Hcalls [Hs Hi]];
    [split; reflexivity|].
  split; [exact Hcalls|]. split; [exact Hs|].
  unfold handleSend. cbv zeta. split.
  - destruct (negb _); cbn [fst]; [reflexivity|]. now rewrite Hs.
  - intros ->. reflexivity.
Qed.

End WithPurifier.

End FieldFacts.

(* ================================================================== *)
(** * White space: what [trim] and [normalizeWhitespace] leave *)
(* ================================================================== *)

Module Whitespace.
Import InputValidator Preparation.

(** The units of a text that are not white space, in their order. *)
Definition visible (s : jsstring) : jsstring :=
  filter (fun c => negb (is_space c)) s.

Lemma wedit_visible (s t : jsstring) : wedit s t -> visible s = visible t.
Proof.
  unfold visible.
  induction 1 as [|c s t _ IH|c s t Hc _ IH|c d s t Hc Hd _ IH]; cbn [filter].
  - reflexivity.
  - now rewrite IH.
  - now rewrite Hc.
  - now rewrite Hc, Hd.
Qed.

Lemma visible_nil (s : jsstring) : visible s = [] <-> forallb is_space s = true.
Proof.
  unfold visible. induction s as [|c s IH]; cbn [filter forallb].
  - split; reflexivity.
  - destruct (is_space c); cbn [negb andb]; [exact IH|].
    split; discriminate.
Qed.

Lemma dropWhile_head (p : N -> bool) (s : jsstring) :
  dropWhile p s = [] \/ exists c t, dropWhile p s = c :: t /\ p c = false.
Proof.
  induction s as [|c s IH]; cbn [dropWhile]; [now left|].
  destruct (p c) eqn:E; [exact IH|]. right. eauto.
Qed.

Lemma dropWhile_snoc (p : N -> bool) (l : jsstring) (c : N) :
  p c = false -> dropWhile p (l ++ [c]) = dropWhile p l ++ [c].
Proof.
  intros Hc. induction l as [|x l IH]; cbn [app dropWhile].
  - now rewrite Hc.
  - destruct (p x); [exact IH | reflexivity].
Qed.

Lemma trimEnd_cons (c : N) (t : jsstring) :
  is_space c = false -> trimEnd (c :: t) = c :: trimEnd t.
Proof.
  intros Hc. unfold trimEnd. cbn [rev].
  rewrite dropWhile_snoc by exact Hc.
  now rewrite rev_app_distr.
Qed.

Lemma dropWhile_idem (p : N -> bool) (s : jsstring) :
  dropWhile p (dropWhile p s) = dropWhile p s.
Proof.
  destruct (dropWhile_head p s) as [-> | (c & t & -> & Hc)]; [reflexivity|].
  cbn [dropWhile]. now rewrite Hc.
Qed.

Lemma trimEnd_idem (s : jsstring) : trimEnd (trimEnd s) = trimEnd s.
Proof.
  unfold trimEnd. now rewrite rev_involutive, dropWhile_idem.
Qed.

(** A trimmed text is empty or starts with a unit that is no white space. *)
Lemma trim_head (s : jsstring) :
  trim s = [] \/ exists c t, trim s = c :: t /\ is_space c = false.
Proof.
  unfold trim, trimStart.
  destruct (dropWhile_head is_space s) as [-> | (c & t & -> & Hc)].
  - now left.
  - right. rewrite trimEnd_cons by exact Hc. eauto.
Qed.

Lemma trim_idem (s : jsstring) : trim (trim s) = trim s.
Proof.
  unfold trim at 2 3. unfold trimStart.
  destruct (dropWhile_head is_space s) as [-> | (c & t & -> & Hc)];
    [reflexivity|].
  rewrite trimEnd_cons by exact Hc.
  unfold trim, trimStart. cbn [dropWhile]. rewrite Hc.
  rewrite trimEnd_cons by exact Hc. now rewrite trimEnd_idem.
Qed.

Lemma trim_blank (s : jsstring) : forallb is_space (trim s) = true -> trim s = [].
Proof.
  destruct (trim_head s) as [-> | (c & t & -> & Hc)]; [reflexivity|].
  cbn [forallb]. now rewrite Hc.
Qed.

Lemma trimEnd_last (s : jsstring) :
  trimEnd s = [] \/ exists t c, trimEnd s = t ++ [c] /\ is_space c = false.
Proof.
  unfold trimEnd.
  destruct (dropWhile_head is_space (rev s)) as [-> | (c & t & -> & Hc)].
  - now left.
  - right. exists (rev t), c. now cbn [rev].
Qed.

(** X4: [normalizeWhitespace] touches white space only: the units that are
    not white space come out as they went in, in the same order; the result
    has no white space at its start or at its end, and it is empty exactly
    when the input is empty or all white space. *)
Theorem normalizeWhitespace_keeps_text (s : jsstring) :
  visible (normalizeWhitespace s) = visible s
  /\ trim (normalizeWhitespace s) = normalizeWhitespace s
  /\ (normalizeWhitespace s = [] <-> isEmpty s = true).
Proof.
  pose proof (wedit_visible (wedit_normalizeWhitespace s)) as Hv.
  split; [now symmetry|]. split.
  - unfold normalizeWhitespace. apply trim_idem.
  - assert (Hempty : isEmpty s = true <-> forallb is_space s = true).
    { rewrite <- visible_nil, (wedit_visible (wedit_trim s)), visible_nil.
      unfold isEmpty. destruct s as [|c s]; [split; reflexivity|].
      split.
      - intros H. apply Nat.eqb_eq in H.
        destruct (trim (c :: s)); [reflexivity | discriminate].
      - intros H. apply trim_blank in H. now rewrite H. }
    rewrite Hempty, <- visible_nil, Hv. split.
    + intros ->. reflexivity.
    + intros H. apply visible_nil in H. unfold normalizeWhitespace in *.
      now apply trim_blank.
Qed.

End Whitespace.

(* ================================================================== *)
(** * What the unsafe-content check finds, and what the first pass of
      [sanitizeUserInput] removes *)
(* ================================================================== *)

Module Detection.
Import InputValidator Preparation Whitespace.

(** ** Literal patterns *)

(** [v] is [p] up to the case of its letters. *)
Fixpoint same_letters (p v : jsstring) : bool :=
  match p, v with
  | [], [] => true
  | c :: p', x :: v' => unit_eqb true c x && same_letters p' v'
  | _, _ => false
  end.

Definition last_unit (prev : option N) (v : jsstring) : option N :=
  match rev v with
  | x :: _ => Some x
  | [] => prev
  end.

Lemma last_unit_cons (prev : option N) (x : N) (v : jsstring) :
  last_unit prev (x :: v) = last_unit (Some x) v.
Proof.
  unfold last_unit. cbn [rev].
  destruct (rev v) as [|y l] eqn:E; [reflexivity|]. reflexivity.
Qed.

Lemma rx_str (A : Type) (p : jsstring) :
  forall (r : regex) (k : option N -> jsstring -> option A) prev v rest,
    same_letters p v = true ->
    rx true (Seq (Str p) r) k prev (v ++ rest)
    = rx true r k (last_unit prev v) rest.
Proof.
  induction p as [|c p IH]; intros r k prev v rest H.
  - destruct v; [reflexivity | discriminate].
  - destruct v as [|x v]; [discriminate|].
    cbn [same_letters] in H. apply andb_true_iff in H as [Hx Hv].
    cbn [Str fold_right]. fold (Str p).
    rewrite !rx_seq, rx_chr. cbn [app]. rewrite Hx.
    rewrite <- rx_seq. rewrite (IH r k (Some x) v rest Hv).
    now rewrite last_unit_cons.
Qed.

(** A greedy run of a class: the star takes the longest run, and the match
    goes on from there when what follows matches. *)
Definition stops (p : N -> bool) (rest : jsstring) : Prop :=
  match rest with
  | [] => True
  | y :: _ => p y = false
  end.

Lemma rx_star_cls (A : Type) (ic : bool) (p : N -> bool)
    (k : option N -> jsstring -> option A) (a : A) :
  forall run prev rest,
    forallb p run = true ->
    stops p rest ->
    k (last_unit prev run) rest = Some a ->
    rx ic (Star (Cls p)) k prev (run ++ rest) = Some a.
Proof.
  intros run prev rest Hrun Hstop Hk. cbn [rx].
  assert (Hn : length run <= length (run ++ rest))
    by (rewrite length_app; lia).
  revert Hn. generalize (length (run ++ rest)) as n.
  intros n. revert run prev Hrun Hk.
  induction n as [|n IH]; intros run prev Hrun Hk Hn.
  - destruct run; [exact Hk | cbn in Hn; lia].
  - destruct run as [|x run].
    + cbn [app]. unfold last_unit in Hk. cbn [rev] in Hk.
      destruct rest as [|y rest']; [exact Hk|].
      cbn [stops] in Hstop. rewrite Hstop. exact Hk.
    + cbn [app forallb] in *. apply andb_true_iff in Hrun as [Hx Hrun].
      rewrite Hx.
      replace (length (run ++ rest) <? length (x :: run ++ rest)) with true
        by (symmetry; apply Nat.ltb_lt; cbn; lia).
      rewrite last_unit_cons in Hk.
      cbn [length] in Hn.
      rewrite (IH run (Some x) Hrun Hk) by lia. reflexivity.
Qed.

(** A match somewhere is found by the search. *)
Lemma search_found (ic : bool) (r : regex) (t : jsstring) :
  (forall prev, match_here ic r prev t <> None) ->
  forall pre prev, search ic r prev (pre ++ t) = true.
Proof.
  intros Ht. induction pre as [|c pre IH]; intros prev.
  - cbn [app]. destruct t as [|x t']; cbn [search];
      destruct (match_here ic r prev _) eqn:E; try reflexivity;
      now apply Ht in E.
  - cbn [app search]. destruct (match_here ic r prev _); [reflexivity|].
    apply IH.
Qed.

(** A word, optional white space, an opening parenthesis. *)
Definition call_of (word : string) : regex :=
  seqs [Str (lit word); Star (Cls is_space); Chr 40].

Lemma call_found (word : string) (v sp pre post : jsstring) :
  same_letters (lit word) v = true ->
  forallb is_space sp = true ->
  test true (call_of word) (pre ++ v ++ sp ++ 40%N :: post) = true.
Proof.
  intros Hv Hsp. unfold test. apply search_found. intros prev.
  unfold match_here, call_of, seqs. cbn [fold_right].
  rewrite rx_str by exact Hv. rewrite rx_seq.
  erewrite rx_star_cls; [discriminate | exact Hsp | reflexivity |].
  rewrite rx_seq, rx_chr.
  replace (unit_eqb true 40 40) with true by reflexivity.
  reflexivity.
Qed.

Lemma rx_str_eps (A : Type) (p : jsstring) :
  forall (k : option N -> jsstring -> option A) prev s,
    rx true (Str p) k prev s = rx true (Seq (Str p) Eps) k prev s.
Proof.
  induction p as [|c p IH]; intros k prev s; [reflexivity|].
  cbn [Str fold_right]. fold (Str p). rewrite !rx_seq, !rx_chr.
  destruct s as [|x s]; [reflexivity|].
  destruct (unit_eqb true c x); [|reflexivity].
  rewrite <- rx_seq. apply IH.
Qed.

Lemma literal_found (p v pre post : jsstring) :
  same_letters p v = true ->
  test true (Str p) (pre ++ v ++ post) = true.
Proof.
  intros Hv. unfold test. apply search_found. intros prev.
  unfold match_here.
  rewrite rx_str_eps, rx_str by exact Hv. discriminate.
Qed.

Lemma detect_pattern (r : regex) (s : jsstring) :
  In r xssPatterns -> test true r s = true -> detectXSSPatterns s = true.
Proof.
  intros Hin Ht. unfold detectXSSPatterns.
  destruct s as [|c s].
  - exfalso. revert Ht. unfold xssPatterns in Hin. cbn [In] in Hin.
    repeat (destruct Hin as [<- | Hin]; [vm_compute; discriminate|]).
    destruct Hin.
  - apply existsb_exists. exists r. split; assumption.
Qed.

Lemma detected_cannot_send (v : InputValidator) (s : jsstring) :
  detectXSSPatterns s = true -> canSend (validate v s) = false.
Proof.
  intros H. destruct s as [|c s]; [reflexivity|].
  unfold validate. cbv zeta. cbn [canSend]. rewrite H.
  destruct (isEmpty (c :: s)); [now rewrite andb_false_r|].
  destruct (maxLength v <? length (c :: s))%nat; reflexivity.
Qed.

(** An attribute that looks like an event handler: [on], word characters,
    optional white space, [=]. *)
Lemma handler_found (v ws sp pre post : jsstring) :
  same_letters (lit "on") v = true ->
  ws <> [] -> forallb is_word ws = true ->
  forallb is_space sp = true ->
  test true re_handler (pre ++ v ++ ws ++ sp ++ 61%N :: post) = true.
Proof.
  intros Hv Hne Hws Hsp. unfold test. apply search_found. intros prev.
  unfold match_here, re_handler, seqs, Plus. cbn [fold_right].
  rewrite rx_str by exact Hv. rewrite !rx_seq, rx_cls.
  destruct ws as [|x ws]; [congruence|].
  cbn [forallb] in Hws. apply andb_true_iff in Hws as [Hx Hws].
  cbn [app]. rewrite Hx.
  erewrite rx_star_cls; [discriminate | exact Hws | |].
  - destruct sp as [|y sp]; [reflexivity|]. cbn [app stops].
    cbn [forallb] in Hsp. apply andb_true_iff in Hsp as [Hy _].
    revert Hy. clear. unfold is_space, is_word.
    intros H.
    repeat match type of H with
           | (_ || _)%bool = true => apply orb_true_iff in H as [H|H]
           end;
      repeat match goal with
             | H : (_ && _)%bool = true |- _ => apply andb_true_iff in H as [? ?]
             | H : (_ <=? _)%N = true |- _ => apply N.leb_le in H
             | H : (_ =? _)%N = true |- _ => apply N.eqb_eq in H
             end;
      repeat (apply orb_false_iff; split);
      try (apply andb_false_iff;
           first [left; apply N.leb_gt; lia | right; apply N.leb_gt; lia]);
      try (apply N.eqb_neq; lia).
  - rewrite rx_seq.
    erewrite rx_star_cls; [reflexivity | exact Hsp | reflexivity |].
    rewrite rx_seq, rx_chr.
    replace (unit_eqb true 61 61) with true by reflexivity.
    reflexivity.
Qed.

(** X5: the unsafe-content check finds, anywhere in a text and whatever the
    case of the letters, the scheme [javascript:]; one of the words
    [expression], [url], [import] followed by optional white space and an
    opening parenthesis; and [on] followed by word characters, optional
    white space and [=] (so also in a text such as [conversation = 1]).  Such a text
    cannot be sent. *)
Theorem unsafe_text_is_rejected (v : InputValidator) (pre w post : jsstring) :
  (same_letters (lit "javascript:") w = true ->
   detectXSSPatterns (pre ++ w ++ post) = true
   /\ canSend (validate v (pre ++ w ++ post)) = false)
  /\ (forall word sp,
        In word ["expression"; "url"; "import"]%string ->
        same_letters (lit word) w = true ->
        forallb is_space sp = true ->
        detectXSSPatterns (pre ++ w ++ sp ++ 40%N :: post) = true
        /\ canSend (validate v (pre ++ w ++ sp ++ 40%N :: post)) = false)
  /\ (forall ws sp,
        same_letters (lit "on") w = true ->
        ws <> [] -> forallb is_word ws = true ->
        forallb is_space sp = true ->
        detectXSSPatterns (pre ++ w ++ ws ++ sp ++ 61%N :: post) = true
        /\ canSend (validate v (pre ++ w ++ ws ++ sp ++ 61%N :: post)) = false).
Proof.
  split; [|split].
  - intros Hw.
    assert (H : detectXSSPatterns (pre ++ w ++ post) = true).
    { apply (@detect_pattern re_javascript);
        [unfold xssPatterns; cbn [In]; tauto|].
      now apply literal_found. }
    split; [exact H | now apply detected_cannot_send].
  - intros word sp Hin Hw Hsp.
    assert (H : detectXSSPatterns (pre ++ w ++ sp ++ 40%N :: post) = true).
    { apply (@detect_pattern (call_of word)).
      - unfold xssPatterns. cbn [In] in *.
        destruct Hin as [<- | [<- | [<- | []]]];
          [change (call_of "expression") with re_expression
          |change (call_of "url") with re_url
          |change (call_of "import") with re_import]; tauto.
      - now apply call_found. }
    split; [exact H | now apply detected_cannot_send].
  - intros ws sp Hw Hne Hws Hsp.
    assert (H : detectXSSPatterns (pre ++ w ++ ws ++ sp ++ 61%N :: post) = true).
    { apply (@detect_pattern re_handler);
        [unfold xssPatterns; cbn [In]; tauto|].
      now apply handler_found. }
    split; [exact H | now apply detected_cannot_send].
Qed.

Lemma unsafe_text_is_rejected_witness :
  detectXSSPatterns (lit "see JavaScript:alert(1)") = true
  /\ canSend (validate default (lit "conversation = 1")) = false.
Proof.
  split.
  - destruct (unsafe_text_is_rejected default (lit "see ") (lit "JavaScript:")
                (lit "alert(1)")) as [H _].
    apply H. vm_compute. reflexivity.
  - destruct (unsafe_text_is_rejected default (lit "c") (lit "on")
                (lit " 1")) as (_ & _ & H).
    apply (H (lit "versation") [32%N]); try (vm_compute; reflexivity).
    vm_compute. discriminate.
Defined.

End Detection.

(* ================================================================== *)
(** * The first pass of [sanitizeUserInput] *)
(* ================================================================== *)

Module FirstPass.
Import InputValidator Preparation Whitespace Detection Feedback.

Lemma match_cls (ic : bool) (p : N -> bool) (prev : option N) (s : jsstring) :
  match_here ic (Cls p) prev s
  = match s with
    | x :: s' => if p x then Some (Some x, s') else None
    | [] => None
    end.
Proof. reflexivity. Qed.

(** Replacing every unit of a class by nothing is filtering. *)
Lemma replace_cls_filter (ic : bool) (p : N -> bool) (fuel : nat) :
  forall prev s,
    length s <= fuel ->
    replace_loop fuel ic (Cls p) [] prev s = filter (fun c => negb (p c)) s.
Proof.
  induction fuel as [|fuel IH]; intros prev s Hlen.
  - destruct s; [reflexivity | cbn in Hlen; lia].
  - cbn [replace_loop]. rewrite match_cls.
    destruct s as [|x s]; [reflexivity|]. cbn [length] in Hlen.
    cbn [filter]. destruct (p x); cbn [negb].
    + replace (length s <? length (x :: s)) with true
        by (symmetry; apply Nat.ltb_lt; cbn; lia).
      cbn [app]. apply IH. lia.
    + f_equal. apply IH. lia.
Qed.

(** Replacing the matches of any pattern by nothing only removes units. *)
Lemma replace_nothing_forallb (q : N -> bool) (ic : bool) (r : regex) (fuel : nat) :
  forall prev s,
    forallb q s = true -> forallb q (replace_loop fuel ic r [] prev s) = true.
Proof.
  induction fuel as [|fuel IH]; intros prev s Hs; [exact Hs|].
  cbn [replace_loop].
  destruct (match_here ic r prev s) as [[p' s']|] eqn:E.
  - unfold match_here in E.
    apply rx_prefix in E as (m & p1 & s1 & Hsplit & _ & E).
    injection E as _ <-.
    destruct (length s1 <? length s).
    + cbn [app]. apply IH. rewrite Hsplit, forallb_app in Hs.
      now apply andb_true_iff in Hs as [_ Hs].
    + destruct s as [|c s2]; [reflexivity|]. cbn [app forallb] in *.
      apply andb_true_iff in Hs as [Hc Hs]. rewrite Hc. now apply IH.
  - destruct s as [|c s2]; [reflexivity|]. cbn [forallb] in *.
    apply andb_true_iff in Hs as [Hc Hs]. rewrite Hc. now apply IH.
Qed.

Lemma forallb_dropWhile (q p : N -> bool) (s : jsstring) :
  forallb q s = true -> forallb q (dropWhile p s) = true.
Proof.
  induction s as [|c s IH]; intros H; [reflexivity|].
  cbn [dropWhile]. destruct (p c); [|exact H].
  cbn [forallb] in H. apply andb_true_iff in H as [_ H]. now apply IH.
Qed.

Lemma forallb_rev (q : N -> bool) (s : jsstring) :
  forallb q (rev s) = forallb q s.
Proof.
  induction s as [|c s IH]; [reflexivity|].
  cbn [rev forallb]. rewrite forallb_app, IH. cbn [forallb].
  rewrite andb_true_r. apply andb_comm.
Qed.

Lemma forallb_trim (q : N -> bool) (s : jsstring) :
  forallb q s = true -> forallb q (trim s) = true.
Proof.
  intros H. unfold trim, trimEnd, trimStart.
  rewrite forallb_rev. apply forallb_dropWhile.
  rewrite forallb_rev. now apply forallb_dropWhile.
Qed.

Definition not_control (c : N) : bool := negb (is_control c).

Lemma strip_schemes_no_control (s : jsstring) :
  forallb not_control (strip_schemes s) = true.
Proof.
  unfold strip_schemes, replace_all.
  do 3 apply replace_nothing_forallb.
  rewrite replace_cls_filter by lia.
  apply forallb_forall. intros c Hc. apply filter_In in Hc. apply Hc.
Qed.

Lemma strip_schemes_forallb (q : N -> bool) (s : jsstring) :
  forallb q s = true -> forallb q (strip_schemes s) = true.
Proof.
  intros H. unfold strip_schemes, replace_all.
  do 4 apply replace_nothing_forallb. now apply forallb_trim.
Qed.

Lemma has_lt_not_lt (s : jsstring) : has_lt s = false <-> forallb not_lt s = true.
Proof.
  unfold has_lt, not_lt. induction s as [|c s IH]; cbn [existsb forallb].
  - split; reflexivity.
  - rewrite (N.eqb_sym 60 c). destruct (c =? 60)%N; cbn [negb orb andb].
    + split; discriminate.
    + exact IH.
Qed.

Section WithPurifier.
Context {P : DOMPurify} {C : DOMPurifyContract P}.

Lemma sanitizeUserInput_plain (s : jsstring) :
  has_lt s = false -> sanitizeUserInput s = strip_schemes s.
Proof.
  intros H. unfold sanitizeUserInput. destruct s as [|c s]; [reflexivity|].
  apply sanitize_plain; [reflexivity|].
  apply has_lt_not_lt. apply strip_schemes_forallb. now apply has_lt_not_lt.
Qed.

(** X6: a text without [<] comes out of [sanitizeUserInput] with no control
    character left (U+0000 to U+001F and U+007F to U+009F): in particular
    every line break and every tab is removed, so a text of several lines
    becomes one line.  Nothing is added: every unit of the result is a unit
    of the input. *)
Theorem sanitizeUserInput_flattens (s : jsstring) :
  has_lt s = false ->
  forallb not_control (sanitizeUserInput s) = true
  /\ existsb (N.eqb 10) (sanitizeUserInput s) = false
  /\ existsb (N.eqb 9) (sanitizeUserInput s) = false
  /\ (forall q, forallb q s = true -> forallb q (sanitizeUserInput s) = true).
Proof.
  intros H. rewrite (sanitizeUserInput_plain s H).
  pose proof (strip_schemes_no_control s) as Hc.
  repeat split.
  - exact Hc.
  - apply not_true_is_false. intros E. apply existsb_exists in E as (c & Hin & E).
    apply N.eqb_eq in E. subst c. rewrite forallb_forall in Hc.
    specialize (Hc _ Hin). discriminate.
  - apply not_true_is_false. intros E. apply existsb_exists in E as (c & Hin & E).
    apply N.eqb_eq in E. subst c. rewrite forallb_forall in Hc.
    specialize (Hc _ Hin). discriminate.
  - intros q. apply strip_schemes_forallb.
Qed.

End WithPurifier.

Definition two_lines : jsstring := lit "un" ++ 10%N :: lit "deux".

Lemma sanitizeUserInput_flattens_witness :
  existsb (N.eqb 10) two_lines = true
  /\ existsb (N.eqb 10) (@sanitizeUserInput escaping two_lines) = false.
Proof.
  split; [vm_compute; reflexivity|].
  destruct (@sanitizeUserInput_flattens escaping escaping_contract two_lines)
    as (_ & H & _); [vm_compute; reflexivity | exact H].
Defined.

(** ** Texts the check cannot flag *)

(** The unit a pattern must start with, when it starts with a literal. *)
Fixpoint head_unit (r : regex) : option N :=
  match r with
  | Chr c => Some c
  | Seq r1 _ => head_unit r1
  | _ => None
  end.

Lemma rx_head_fail (A : Type) (ic : bool) (r : regex) (x : N) :
  head_unit r = Some x ->
  forall (k : option N -> jsstring -> option A) prev s,
    match s with
    | [] => True
    | c :: _ => unit_eqb ic x c = false
    end ->
    rx ic r k prev s = None.
Proof.
  induction r as [|c|p|r1 IH1 r2 _|r1 _ r2 _|r1 _|r1 _|]; try discriminate.
  - intros H k prev s Hs. injection H as ->. rewrite rx_chr.
    destruct s as [|c s]; [reflexivity|]. now rewrite Hs.
  - intros H k prev s Hs. rewrite rx_seq. now apply IH1.
Qed.

Lemma search_head_fail (ic : bool) (r : regex) (x : N) :
  head_unit r = Some x ->
  forall s prev,
    forallb (fun c => negb (unit_eqb ic x c)) s = true ->
    search ic r prev s = false.
Proof.
  intros H. induction s as [|c s IH]; intros prev Hs.
  - cbn [search]. unfold match_here. now rewrite (@rx_head_fail _ ic r x H).
  - cbn [forallb] in Hs. apply andb_true_iff in Hs as [Hc Hs].
    cbn [search]. unfold match_here.
    rewrite (@rx_head_fail _ ic r x H) by (now apply negb_true_iff in Hc).
    now apply IH.
Qed.

(** The units one of the ten patterns starts with: [<], [j], [o], [e], [u],
    [i]. *)
Definition triggers : list N := [60; 106; 111; 101; 117; 105]%N.

Definition inert (c : N) : bool :=
  negb (existsb (fun x => unit_eqb true x c) triggers).

Lemma inert_not_flagged (s : jsstring) :
  forallb inert s = true -> detectXSSPatterns s = false.
Proof.
  intros H. unfold detectXSSPatterns. destruct s as [|c0 s0]; [reflexivity|].
  set (s := c0 :: s0) in *.
  assert (Hx : forall x, In x triggers ->
                 forallb (fun c => negb (unit_eqb true x c)) s = true).
  { intros x Hx. apply forallb_forall. intros c Hc.
    rewrite forallb_forall in H. specialize (H c Hc).
    unfold inert in H. apply negb_true_iff in H. apply negb_true_iff.
    apply not_true_is_false. intros E.
    assert (existsb (fun x => unit_eqb true x c) triggers = true)
      by (apply existsb_exists; eauto).
    congruence. }
  apply not_true_is_false. intros E.
  apply existsb_exists in E as (r & Hin & E).
  unfold test in E. unfold xssPatterns in Hin. cbn [In] in Hin.
  assert (search true r None s = false); [|congruence].
  repeat (destruct Hin as [<- | Hin];
          [eapply search_head_fail;
           [vm_compute; reflexivity | apply Hx; cbn; tauto]|]).
  destruct Hin.
Qed.

(** A control character that is no white space. *)
Definition bare_control (c : N) : bool := is_control c && negb (is_space c).

Lemma bare_control_inert (c : N) : bare_control c = true -> inert c = true.
Proof.
  unfold bare_control, is_control, inert, triggers. intros H.
  apply andb_true_iff in H as [H _].
  assert (Hc : (c <= 31 \/ 127 <= c <= 159)%N).
  { apply orb_true_iff in H as [H|H]; [left; now apply N.leb_le|].
    apply andb_true_iff in H as [H1 H2]. apply N.leb_le in H1, H2. lia. }
  assert (Hcanon : canon c = c).
  { unfold canon.
    replace ((97 <=? c) && (c <=? 122))%N with false; [reflexivity|].
    symmetry. apply andb_false_iff.
    destruct Hc; [left; apply N.leb_gt; lia | right; apply N.leb_gt; lia]. }
  apply negb_true_iff. cbn [existsb]. unfold unit_eqb. rewrite Hcanon.
  repeat (apply orb_false_iff; split); try reflexivity;
    apply N.eqb_neq; vm_compute; lia.
Qed.

Lemma trim_no_space (s : jsstring) :
  forallb (fun c => negb (is_space c)) s = true -> trim s = s.
Proof.
  intros H. unfold trim, trimStart, trimEnd.
  assert (Hd : forall l, forallb (fun c => negb (is_space c)) l = true ->
                 dropWhile is_space l = l).
  { intros [|c l] Hl; [reflexivity|]. cbn [forallb dropWhile] in *.
    apply andb_true_iff in Hl as [Hc _]. apply negb_true_iff in Hc.
    now rewrite Hc. }
  rewrite (Hd s H), Hd by (now rewrite forallb_rev).
  apply rev_involutive.
Qed.

Section Vanishing.
Context {P : DOMPurify} {C : DOMPurifyContract P}.

(** X7: a text made only of control characters that are no white space is
    accepted by the validator (it is not blank, and no pattern can match
    it), yet nothing is left of it once prepared: the send action of a
    field that holds it clears the field and calls the send handler, if one
    is set, with the empty text, and the container ignores an empty text.
    The message is dropped without an error.  (The property test of the
    repository that expects a prepared text not to be empty draws its texts
    from [fc.string()], printable characters, and so meets no such text.) *)
Theorem control_characters_vanish (v : InputValidator) (s : jsstring)
    (Handler : Type) (f : InputField.Field Handler)
    (c : ChatbotContainer.Container) (w : World) :
  s <> [] ->
  forallb bare_control s = true ->
  length s <= maxLength v ->
  InputField.validator f = v ->
  InputField.currentValue f = s ->
  canSendInput v s = true
  /\ prepareInput v s = []
  /\ InputField.handleSend f
     = (InputField.call_of (InputField.onSendHandler f) [], InputField.clear f)
  /\ ChatbotContainer.handleUserMessage [] c w = (c, w).
Proof.
  intros Hne Hs Hlen Hv Hvalue.
  assert (Hnosp : forallb (fun u => negb (is_space u)) s = true).
  { apply forallb_forall. intros u Hu. rewrite forallb_forall in Hs.
    specialize (Hs u Hu). unfold bare_control in Hs.
    now apply andb_true_iff in Hs as [_ Hs]. }
  assert (Htrim : trim s = s) by now apply trim_no_space.
  assert (Hdet : detectXSSPatterns s = false).
  { apply inert_not_flagged. apply forallb_forall. intros u Hu.
    rewrite forallb_forall in Hs. apply bare_control_inert. now apply Hs. }
  assert (Hcan : canSendInput v s = true).
  { unfold canSendInput, validate. destruct s as [|c0 s0]; [congruence|].
    cbv zeta. cbn [canSend]. rewrite Hdet.
    unfold isEmpty. rewrite Htrim.
    replace (maxLength v <? length (c0 :: s0)) with false
      by (symmetry; apply Nat.ltb_ge; exact Hlen).
    reflexivity. }
  assert (Hstrip : strip_schemes s = []).
  { unfold strip_schemes, replace_all. rewrite Htrim.
    rewrite replace_cls_filter by lia.
    replace (filter (fun c0 => negb (is_control c0)) s) with (@nil N).
    - vm_compute. reflexivity.
    - symmetry. clear -Hs. induction s as [|u s IH]; [reflexivity|].
      cbn [forallb filter] in *. apply andb_true_iff in Hs as [Hu Hs].
      unfold bare_control in Hu. apply andb_true_iff in Hu as [Hu _].
      rewrite Hu. cbn [negb]. now apply IH. }
  assert (Hprep : prepareInput v s = []).
  { unfold prepareInput, sanitizeUserInput.
    destruct s as [|c0 s0]; [reflexivity|]. rewrite Hstrip.
    rewrite sanitize_plain by reflexivity.
    cbv zeta. replace (normalizeWhitespace []) with (@nil N)
      by (vm_compute; reflexivity).
    cbn [length]. destruct (maxLength v <? 0) eqn:E; [|reflexivity].
    apply Nat.ltb_lt in E. lia. }
  split; [exact Hcan|]. split; [exact Hprep|]. split.
  - unfold InputField.handleSend. cbv zeta.
    rewrite Hv, Hvalue, Htrim, Hcan, Hprep. reflexivity.
  - reflexivity.
Qed.

End Vanishing.

(** A field on which a handler has been set through [onSend], holding two
    control characters. *)
Definition escapes_typed : InputField.Field nat :=
  InputField.setValue [1%N; 27%N]
    (InputField.onSend 7
       (InputField.create
          {| InputField.Config.maxLength := 4000;
             InputField.Config.placeholder := [];
             InputField.Config.onSend := 7;
             InputField.Config.onInput := 8 |})).

Lemma control_characters_vanish_witness :
  canSendInput default [1%N; 27%N] = true
  /\ @prepareInput escaping default [1%N; 27%N] = []
  /\ @InputField.handleSend escaping nat escapes_typed
     = (Some (7, []), InputField.clear escapes_typed).
Proof.
  destruct (@control_characters_vanish escaping escaping_contract default
              [1%N; 27%N] nat escapes_typed Lifecycle.idle
              (Loading.world_with None))
    as (H1 & H2 & H3 & _).
  - discriminate.
  - reflexivity.
  - vm_compute. lia.
  - reflexivity.
  - reflexivity.
  - split; [exact H1|]. split; [exact H2 | exact H3].
Defined.

(** Nor is a control character needed: the name of a scheme alone passes
    the check and is prepared to the empty text. *)
Lemma scheme_name_vanishes (P : DOMPurify) (C : DOMPurifyContract P) :
  canSendInput default (lit "data:") = true
  /\ prepareInput default (lit "data:") = [].
Proof.
  split; [vm_compute; reflexivity|].
  unfold prepareInput, sanitizeUserInput.
  replace (lit "data:") with [100; 97; 116; 97; 58]%N by (vm_compute; reflexivity).
  replace (strip_schemes [100; 97; 116; 97; 58]%N) with (@nil N)
    by (vm_compute; reflexivity).
  rewrite sanitize_plain by reflexivity.
  vm_compute. reflexivity.
Qed.

End FirstPass.

(* ================================================================== *)
(** * Records on their way to the store; URLs *)
(* ================================================================== *)

Module Records.
Import StorageManager Persistence.

Section WithPurifier.
Context {P : DOMPurify}.

(** X8: what [validateStorageData] accepts, [sanitizeStorageData] returns
    sanitised and still acceptable: it does not fail on such a record, it
    keeps every field but [messages] as it is, and [messages] holds the same
    number of messages, each as [sanitize_message] leaves it. *)
Theorem sanitizeStorageData_keeps_valid (data : json) :
  validateStorageData data = true ->
  exists data' ms,
    sanitizeStorageData data = Some data'
    /\ validateStorageData data' = true
    /\ get "messages" data = Some (JArr ms)
    /\ get "messages" data' = Some (JArr (map clean_message ms))
    /\ (forall k : string,
          str_eqb (lit k) (lit "messages") = false -> get k data' = get k data).
Proof.
  intros H. destruct data as [| | | | |fields]; try discriminate.
  unfold validateStorageData in H. apply andb_true_iff in H as [Hkeys Hms].
  unfold get in Hms.
  destruct (lookup (lit "messages") fields) as [[| | | |ms|]|] eqn:Em;
    try discriminate.
  exists (JObj (assign (lit "messages") (JArr (map clean_message ms)) fields)), ms.
  assert (Hs : sanitizeStorageData (JObj fields)
               = Some (JObj (assign (lit "messages")
                               (JArr (map clean_message ms)) fields))).
  { unfold sanitizeStorageData. rewrite Em.
    now rewrite (map_throwing_clean _ Hms). }
  split; [exact Hs|].
  assert (Hother : forall k : string,
             str_eqb (lit k) (lit "messages") = false ->
             get k (JObj (assign (lit "messages")
                            (JArr (map clean_message ms)) fields))
             = get k (JObj fields)).
  { intros k Hk. unfold get. now apply lookup_assign_other. }
  split; [|split; [exact Em|split; [apply lookup_assign_same | exact Hother]]].
  unfold validateStorageData.
  replace (get "messages" _) with (Some (JArr (map clean_message ms)))
    by (symmetry; apply lookup_assign_same).
  rewrite (forallb_clean _ Hms), andb_true_r.
  cbn [forallb] in *. unfold has_key in *.
  rewrite !Hother by (vm_compute; reflexivity).
  unfold get at 3. rewrite lookup_assign_same.
  apply andb_true_iff in Hkeys as [H1 Hkeys].
  apply andb_true_iff in Hkeys as [H2 _].
  now rewrite H1, H2.
Qed.

End WithPurifier.

(** A stored session of two messages; the content of the second has white
    space around it and a tag. *)
Definition said (id : string) (at_time : Z) (role content : string) : json :=
  JObj [(lit "id", JStr (lit id)); (lit "timestamp", JNum at_time);
        (lit "role", JStr (lit role)); (lit "content", JStr (lit content))].

Definition two_said : json :=
  JObj [(lit "version", JStr (lit "1.0")); (lit "sessionId", JStr (lit "s-1"));
        (lit "lastModified", JNum 1700000000000);
        (lit "messages",
         JArr [said "m-1" 5 "user" "bonjour";
               said "m-2" 9 "assistant" "  <b>Bonjour</b> !  "])].

Lemma sanitizeStorageData_keeps_valid_witness :
  exists data',
    @sanitizeStorageData escaping two_said = Some data'
    /\ validateStorageData data' = true
    /\ get "messages" data'
       = Some (JArr [said "m-1" 5 "user" "bonjour";
                     said "m-2" 9 "assistant" "&lt;b>Bonjour&lt;/b> !"])
    /\ get "lastModified" data' = Some (JNum 1700000000000).
Proof.
  destruct (@sanitizeStorageData_keeps_valid escaping two_said)
    as (data' & ms & Hs & Hv & Hm & Hm' & Hother).
  - vm_compute. reflexivity.
  - exists data'. split; [exact Hs|]. split; [exact Hv|]. split.
    + rewrite Hm'.
      apply (f_equal (fun o => match o with Some (JArr l) => l | _ => [] end))
        in Hm.
      cbn [two_said get] in Hm. rewrite <- Hm. vm_compute. reflexivity.
    + rewrite (Hother "lastModified"%string) by (vm_compute; reflexivity).
      vm_compute. reflexivity.
Defined.

End Records.

Module Urls.
Import Preparation Detection.

Section SanitizeUrl.

(** The platform's [String.prototype.toLowerCase] and whether [new URL(url)]
    accepts a text; DOMPurify's options when none is given. *)
Variable toLowerCase : jsstring -> jsstring.
Variable URL_accepts : jsstring -> bool.
Variable defaults : PurifyConfig.
Context {P : DOMPurify}.

Definition dangerousProtocols : list jsstring :=
  map lit ["javascript:"; "data:"; "vbscript:"; "file:"; "ftp:"]%string.

(** [(https?|mailto|tel):], matched from the start of the text. *)
Definition allowedProtocolRegex : regex :=
  Seq (Alt (Seq (Str (lit "http")) (Alt (Chr 115) Eps))
           (Alt (Str (lit "mailto")) (Str (lit "tel"))))
      (Chr 58).

Definition test_at_start (r : regex) (s : jsstring) : bool :=
  match match_here true r None s with
  | Some _ => true
  | None => false
  end.

(** [{ ALLOWED_TAGS: [], ALLOWED_ATTR: [] }] *)
Definition no_markup : PurifyConfig := with_allowed defaults [] [].

(** [sanitizeUrl]; [None] is its [null]. *)
Definition sanitizeUrl (url : jsstring) : option jsstring :=
  match url with
  | [] => None
  | _ =>
      let lowerUrl := trim (toLowerCase url) in
      if existsb (fun protocol => startsWith protocol lowerUrl) dangerousProtocols
      then None
      else if negb (test_at_start allowedProtocolRegex url)
              && negb (startsWith (lit "/") url)
              && negb (startsWith (lit "#") url)
      then None
      else if startsWith (lit "http") url && negb (URL_accepts url)
      then None                           (* [new URL(url)] throws *)
      else Some (sanitize url no_markup)
  end.

(** [s] starts with [p], the letters compared without their case. *)
Fixpoint starts_ci (p s : jsstring) : bool :=
  match p, s with
  | [], _ => true
  | c :: p', x :: s' => unit_eqb true c x && starts_ci p' s'
  | _ :: _, [] => false
  end.

(** The beginnings [sanitizeUrl] lets through. *)
Definition allowed_starts : list jsstring :=
  map lit ["http:"; "https:"; "mailto:"; "tel:"; "/"; "#"]%string.

Lemma rx_str_eq (A : Type) (p : jsstring) :
  forall (r : regex) (k : option N -> jsstring -> option A) prev s,
    rx true (Seq (Str p) r) k prev s
    = if starts_ci p s
      then rx true r k (last_unit prev (firstn (length p) s)) (skipn (length p) s)
      else None.
Proof.
  induction p as [|c p IH]; intros r k prev s.
  - reflexivity.
  - cbn [Str fold_right]. fold (Str p). rewrite !rx_seq, rx_chr.
    destruct s as [|x s]; [reflexivity|].
    cbn [starts_ci length firstn skipn].
    destruct (unit_eqb true c x); [|reflexivity].
    rewrite <- rx_seq, IH. cbn [andb]. now rewrite last_unit_cons.
Qed.

Lemma rx_alt (A : Type) (ic : bool) (r1 r2 : regex)
    (k : option N -> jsstring -> option A) (prev : option N) (s : jsstring) :
  rx ic (Alt r1 r2) k prev s
  = match rx ic r1 k prev s with
    | Some a => Some a
    | None => rx ic r2 k prev s
    end.
Proof. reflexivity. Qed.

Lemma starts_ci_app (p q s : jsstring) :
  starts_ci (p ++ q) s = starts_ci p s && starts_ci q (skipn (length p) s).
Proof.
  revert s. induction p as [|c p IH]; intros s; [reflexivity|].
  destruct s as [|x s]; cbn [app starts_ci length skipn].
  - destruct (p ++ q); reflexivity.
  - rewrite IH. apply andb_assoc.
Qed.

Lemma chr_next (A : Type) (c : N) (k : option N -> jsstring -> option A)
    (prev : option N) (s : jsstring) :
  rx true (Chr c) k prev s <> None ->
  exists x rest, s = x :: rest /\ unit_eqb true c x = true
                 /\ k (Some x) rest <> None.
Proof.
  rewrite rx_chr. destruct s as [|x s]; [congruence|].
  destruct (unit_eqb true c x) eqn:E; [|congruence].
  intros H. exists x, s. auto.
Qed.

Lemma startsWith_ci (p s : jsstring) :
  startsWith p s = true -> starts_ci p s = true.
Proof.
  revert s. induction p as [|c p IH]; intros s H; [reflexivity|].
  destruct s as [|x s]; [discriminate|]. cbn [startsWith starts_ci] in *.
  apply andb_true_iff in H as [Hc Hp]. apply N.eqb_eq in Hc. subst x.
  rewrite (IH s Hp), andb_true_r. unfold unit_eqb. apply N.eqb_refl.
Qed.

Lemma allowed_protocol_start (url : jsstring) :
  test_at_start allowedProtocolRegex url = true ->
  existsb (fun start => starts_ci start url)
          (map lit ["http:"; "https:"; "mailto:"; "tel:"]%string) = true.
Proof.
  unfold test_at_start, match_here, allowedProtocolRegex.
  set (k := fun (p' : option N) (s' : jsstring) => Some (p', s')).
  rewrite rx_seq, !rx_alt.
  rewrite (@rx_str_eps _ (lit "mailto")), (@rx_str_eps _ (lit "tel")).
  rewrite !rx_str_eq, rx_alt, !rx_eps.
  cbn [map existsb].
  replace (lit "http:") with (lit "http" ++ [58%N]) by (vm_compute; reflexivity).
  replace (lit "https:") with (lit "http" ++ [115; 58]%N)
    by (vm_compute; reflexivity).
  replace (lit "mailto:") with (lit "mailto" ++ [58%N])
    by (vm_compute; reflexivity).
  replace (lit "tel:") with (lit "tel" ++ [58%N]) by (vm_compute; reflexivity).
  rewrite !starts_ci_app.
  set (h := skipn (length (lit "http")) url).
  set (m := skipn (length (lit "mailto")) url).
  set (t := skipn (length (lit "tel")) url).
  match goal with
  | |- context [rx true (Chr 115) ?k0 ?p0 h] =>
      pose proof (@chr_next _ 115 k0 p0 h) as Hs;
      remember (rx true (Chr 115) k0 p0 h) as r115
  end.
  match goal with
  | |- context [rx true (Chr 58) k ?p0 h] =>
      pose proof (@chr_next _ 58 k p0 h) as Hh;
      remember (rx true (Chr 58) k p0 h) as r58h
  end.
  match goal with
  | |- context [rx true (Chr 58) k ?p0 m] =>
      pose proof (@chr_next _ 58 k p0 m) as Hm;
      remember (rx true (Chr 58) k p0 m) as r58m
  end.
  match goal with
  | |- context [rx true (Chr 58) k ?p0 t] =>
      pose proof (@chr_next _ 58 k p0 t) as Ht;
      remember (rx true (Chr 58) k p0 t) as r58t
  end.
  clear Heqr115 Heqr58h Heqr58m Heqr58t.
  destruct r115 as [a|]; destruct r58h as [ah|]; destruct r58m as [am|];
    destruct r58t as [a_t|];
  destruct (starts_ci (lit "http") url);
  destruct (starts_ci (lit "mailto") url);
  destruct (starts_ci (lit "tel") url);
  cbn [andb orb]; try discriminate; intros _.
  all: repeat match goal with
       | H : Some _ <> None -> _ |- _ =>
           destruct (H ltac:(discriminate)) as (? & ? & ? & ? & ?); clear H
       | H : None <> None -> _ |- _ => clear H
       end.
  all: repeat match goal with
       | H : rx true (Chr 58) _ _ _ <> None |- _ =>
           apply chr_next in H as (? & ? & ? & ? & _)
       end.
  all: repeat match goal with
       | H : ?s = _ :: _ |- _ => rewrite H in *; clear H
       end.
  all: cbn [starts_ci andb];
    repeat match goal with
           | H : unit_eqb true _ _ = true |- _ => rewrite H; clear H
           end;
    cbn [andb orb]; rewrite ?orb_true_r; reflexivity.
Qed.

Definition url_config_ok : Prop := returns_markup defaults = true.

Lemma no_markup_returns : url_config_ok -> returns_markup no_markup = true.
Proof. unfold url_config_ok, returns_markup, no_markup. now cbn. Qed.

(** X9: [sanitizeUrl] answers [null] unless the text begins, whatever the
    case of the letters, with [http:], [https:], [mailto:] or [tel:], or
    with [/] or [#]: so never for a text that begins with white space, and
    never for the empty text.  What it answers is free of [<] (DOMPurify
    being asked to allow no tag), and is the text itself when this has no
    [<]. *)
Theorem sanitizeUrl_accepts (C : DOMPurifyContract P) (url out : jsstring) :
  url_config_ok ->
  sanitizeUrl url = Some out ->
  existsb (fun start => starts_ci start url) allowed_starts = true
  /\ (exists c rest, url = c :: rest /\ is_space c = false)
  /\ has_lt out = false
  /\ (has_lt url = false -> out = url).
Proof.
  intros Hcfg H. unfold sanitizeUrl in H.
  destruct url as [|c0 url0] eqn:Eurl; [discriminate|]. rewrite <- Eurl in *.
  cbv zeta in H.
  destruct (existsb _ dangerousProtocols); [discriminate|].
  destruct (negb (test_at_start allowedProtocolRegex url)
            && negb (startsWith (lit "/") url)
            && negb (startsWith (lit "#") url)) eqn:Eallow; [discriminate|].
  destruct (startsWith (lit "http") url && negb (URL_accepts url));
    [discriminate|].
  injection H as <-.
  assert (Hstart : existsb (fun start => starts_ci start url) allowed_starts = true).
  { unfold allowed_starts.
    change (map lit ["http:"; "https:"; "mailto:"; "tel:"; "/"; "#"]%string)
      with (map lit ["http:"; "https:"; "mailto:"; "tel:"]%string
            ++ map lit ["/"; "#"]%string).
    rewrite existsb_app. apply orb_true_iff.
    apply andb_false_iff in Eallow as [Eallow|Eallow];
      [apply andb_false_iff in Eallow as [Eallow|Eallow]|];
      apply negb_false_iff in Eallow.
    - left. now apply allowed_protocol_start.
    - right. cbn [map existsb]. now rewrite (startsWith_ci _ _ Eallow).
    - right. cbn [map existsb]. rewrite (startsWith_ci _ _ Eallow).
      now rewrite orb_true_r. }
  split; [exact Hstart|]. split; [|split].
  - exists c0, url0. split; [exact Eurl|].
    rewrite Eurl in Hstart. revert Hstart. clear.
    unfold allowed_starts. cbn [map existsb].
    destruct (is_space c0) eqn:Esp; [|reflexivity].
    intros H. exfalso.
    assert (Hc : forall x, (32 < x)%N -> canon x <> 9%N /\ (32 < canon x)%N
                           /\ (canon x < 128 -> x < 128)%N).
    { intros x Hx. unfold canon.
      destruct ((97 <=? x) && (x <=? 122))%N eqn:E.
      - apply andb_true_iff in E as [E1 E2]. apply N.leb_le in E1, E2. lia.
      - lia. }
    assert (Hno : forall x, (32 < x < 128)%N -> unit_eqb true x c0 = false).
    { intros x Hx. unfold unit_eqb. apply N.eqb_neq. intros E.
      assert (Hcc : canon c0 = c0).
      { unfold canon. destruct ((97 <=? c0) && (c0 <=? 122))%N eqn:E2;
          [|reflexivity].
        apply andb_true_iff in E2 as [E1 E2]. apply N.leb_le in E1, E2.
        exfalso. revert Esp. unfold is_space.
        repeat match goal with
               | |- context [(?a <=? ?b)%N] =>
                   destruct (N.leb_spec a b); try lia
               | |- context [(?a =? ?b)%N] =>
                   destruct (N.eqb_spec a b); try lia
               end; cbn; discriminate. }
      rewrite Hcc in E. destruct (Hc x ltac:(lia)) as (_ & H1 & H2).
      revert Esp. unfold is_space.
      repeat match goal with
             | |- context [(?a <=? ?b)%N] =>
                 destruct (N.leb_spec a b); try lia
             | |- context [(?a =? ?b)%N] =>
                 destruct (N.eqb_spec a b); try lia
             end; cbn; try discriminate.
      all: unfold canon in E;
        destruct ((97 <=? x) && (x <=? 122))%N eqn:E3;
        try (apply andb_true_iff in E3 as [E4 E5]; apply N.leb_le in E4, E5);
        lia. }
    revert H.
    replace (lit "http:") with (104%N :: lit "ttp:") by (vm_compute; reflexivity).
    replace (lit "https:") with (104%N :: lit "ttps:") by (vm_compute; reflexivity).
    replace (lit "mailto:") with (109%N :: lit "ailto:") by (vm_compute; reflexivity).
    replace (lit "tel:") with (116%N :: lit "el:") by (vm_compute; reflexivity).
    replace (lit "/") with [47%N] by (vm_compute; reflexivity).
    replace (lit "#") with [35%N] by (vm_compute; reflexivity).
    cbn [starts_ci]. rewrite !Hno by lia. discriminate.
  - pose proof (sanitize_tags url no_markup (no_markup_returns Hcfg)) as Ht.
    apply not_true_is_false. intros E. unfold has_lt in E.
    apply existsb_exists in E as (x & Hin & Ex). apply N.eqb_eq in Ex. subst x.
    apply in_split in Hin as (pre & post & Hsplit).
    destruct (Ht pre post Hsplit) as (tag & [] & _).
  - intros Hlt. apply sanitize_plain; [now apply no_markup_returns | exact Hlt].
Qed.

End SanitizeUrl.

(** The platform's lower-casing on ASCII texts, for the example below. *)
Definition ascii_lower (s : jsstring) : jsstring :=
  map (fun c => if ((65 <=? c) && (c <=? 90))%N then (c + 32)%N else c) s.

Definition plain_defaults : PurifyConfig := with_allowed configureDOMPurify [] [].

Lemma sanitizeUrl_accepts_witness :
  @sanitizeUrl ascii_lower (fun _ => true) plain_defaults escaping
    (lit "HTTPS://eme.gouv.mc/services")
  = Some (lit "HTTPS://eme.gouv.mc/services")
  /\ has_lt (lit "HTTPS://eme.gouv.mc/services") = false.
Proof.
  assert (H : @sanitizeUrl ascii_lower (fun _ => true) plain_defaults escaping
                (lit "HTTPS://eme.gouv.mc/services")
              = Some (lit "HTTPS://eme.gouv.mc/services"))
    by (vm_compute; reflexivity).
  split; [exact H|].
  destruct (@sanitizeUrl_accepts ascii_lower (fun _ => true) plain_defaults
              escaping escaping_contract _ _ ltac:(reflexivity) H)
    as (_ & _ & Hlt & _).
  exact Hlt.
Defined.

End Urls.

(* ================================================================== *)
(** * The error handler: classification, texts, statistics *)
(* ================================================================== *)

Module ErrorFacts.
Import Errors ErrorLog.

(** The states a call logs. *)
Definition logged (c : call) : list ErrorState :=
  match c with
  | HandleChatError now error => [createErrorState now error]
  | HandleValidationError now field msg =>
      [{| type := validation;
          text := lit "Erreur de validation: " ++ field ++ lit " - " ++ msg;
          code := None; timestamp := now; retryable := false |}]
  | HandleStorageError now operation =>
      [{| type := storage;
          text := lit "Erreur de stockage lors de: " ++ operation;
          code := None; timestamp := now; retryable := false |}]
  | HandleConnectivityError now isOnline =>
      if isOnline then []
      else [{| type := network; text := lit "Connexion internet perdue";
               code := None; timestamp := now; retryable := true |}]
  | ClearErrorLog => []
  end.

(** What was logged since the log was last cleared, the oldest first. *)
Definition since_clear (calls : list call) : list ErrorState :=
  fold_left (fun acc c => match c with
                          | ClearErrorLog => []
                          | _ => acc ++ logged c
                          end) calls [].

Lemma slice_last_all {A} (n : nat) (l : list A) :
  length l <= n -> slice_last n l = l.
Proof.
  intros H. unfold slice_last.
  replace (length l - n) with 0 by lia. reflexivity.
Qed.

Lemma slice_last_snoc {A} (n : nat) (l : list A) (x : A) :
  1 <= n -> slice_last n (slice_last n l ++ [x]) = slice_last n (l ++ [x]).
Proof.
  intros Hn. destruct (Nat.le_gt_cases (length l) n) as [H|H].
  - now rewrite (slice_last_all l H).
  - unfold slice_last. rewrite !length_app, length_skipn. cbn [length].
    rewrite !skipn_app, length_skipn, skipn_skipn.
    replace (length l - (length l - n) + 1 - n) with 1 by lia.
    replace (1 + (length l - n)) with (length l + 1 - n) by lia.
    replace (1 - (length l - (length l - n))) with 0 by lia.
    replace (length l + 1 - n - length l) with 0 by lia.
    reflexivity.
Qed.

Lemma logError_slice (st : ErrorState) (h : ErrorHandler) :
  maxLogSize h = 100 ->
  errorLog (logError st h) = slice_last 100 (errorLog h ++ [st]).
Proof.
  intros Hm. unfold logError. cbn [errorLog]. rewrite Hm.
  destruct (Nat.ltb_spec 100 (length (errorLog h ++ [st]))) as [H|H];
    [reflexivity|].
  symmetry. now apply slice_last_all.
Qed.

Lemma after_snoc (calls : list call) (c : call) :
  after (calls ++ [c]) = perform c (after calls).
Proof. unfold after. now rewrite fold_left_app. Qed.

Lemma since_clear_snoc (calls : list call) (c : call) :
  since_clear (calls ++ [c])
  = match c with
    | ClearErrorLog => []
    | _ => since_clear calls ++ logged c
    end.
Proof. unfold since_clear. now rewrite fold_left_app. Qed.

Lemma after_max (calls : list call) : maxLogSize (after calls) = 100.
Proof.
  apply (@after_bounded_from calls Errors.create).
  split; [reflexivity | cbn; lia].
Qed.

(** X10: after any sequence of calls the log holds, in the order in which
    they were logged, the last 100 of the error states logged since the log
    was last cleared (all of them when there are fewer): the oldest entries
    are the ones that go. *)
Theorem errorLog_keeps_latest (calls : list call) :
  errorLog (after calls) = slice_last 100 (since_clear calls).
Proof.
  induction calls as [|c calls IH] using rev_ind; [reflexivity|].
  rewrite after_snoc, since_clear_snoc.
  pose proof (after_max calls) as Hm.
  assert (Hlog : forall st,
             errorLog (logError st (after calls))
             = slice_last 100 (since_clear calls ++ [st])).
  { intros st. rewrite (logError_slice st _ Hm), IH.
    apply slice_last_snoc. lia. }
  destruct c as [now e|now f m|now o|now b|]; cbn [perform logged].
  - apply Hlog.
  - apply Hlog.
  - unfold handleStorageError. cbn [snd]. apply Hlog.
  - unfold handleConnectivityError. destruct b; cbn [snd].
    + now rewrite app_nil_r.
    + apply Hlog.
  - reflexivity.
Qed.

(** The facts of a state that is written out. *)
Ltac state_facts :=
  cbn; repeat split; intros; try discriminate; try congruence;
  try match goal with
      | H : ?x <> ?x |- _ => now elim H
      | H : _ \/ _ |- _ => destruct H; discriminate
      end.

(** X11: what [createErrorState] decides, whatever the error: the state
    carries the time of the call; it has a [code] exactly when it is a
    [server] error, which it is only for an error that carries a status, and
    then it can be retried exactly when the status is 429 or lies outside
    400..499; a [validation] or [storage] error can never be retried, a
    [timeout] always can; an aborted request is a [network] error that
    cannot be retried, whatever its text or status. *)
Theorem createErrorState_classes (now : Z) (error : thrown) :
  let st := createErrorState now error in
  timestamp st = now
  /\ (code st <> None <-> type st = server)
  /\ (type st = server ->
      exists e z, error = ErrorObject e /\ status e = Some z
                  /\ code st = Some (decimal z)
                  /\ retryable st = negb (is_client_status z) || (z =? 429)%Z)
  /\ (type st = validation \/ type st = storage -> retryable st = false)
  /\ (type st = timeout -> retryable st = true)
  /\ (forall e, error = ErrorObject e -> is_abort e = true ->
        type st = network /\ retryable st = false).
Proof.
  cbv zeta. destruct error as [e|]; [|state_facts].
  unfold createErrorState.
  destruct (is_abort e) eqn:Ea; [state_facts|].
  destruct (includes (message e) (lit "timeout")
            || includes (message e) (lit "Request timeout")); [state_facts|].
  destruct (includes (message e) (lit "Network error")
            || includes (message e) (lit "fetch")); [state_facts|].
  destruct (includes (message e) (lit "validation")
            || includes (message e) (lit "invalid")); [state_facts|].
  destruct (includes (message e) (lit "storage")
            || includes (message e) (lit "localStorage")); [state_facts|].
  destruct (status e) as [z|] eqn:Es; [|state_facts].
  assert (Hshape : forall (pr : jsstring * bool),
             let st := (let '(msg, retry) := pr in
                        {| type := server; text := msg; code := Some (decimal z);
                           timestamp := now; retryable := retry |}) in
             timestamp st = now /\ type st = server
             /\ code st = Some (decimal z) /\ retryable st = snd pr).
  { intros [msg retry]. cbn. auto. }
  match goal with
  | |- context [let '(msg, retry) := ?pr in _] =>
      destruct (Hshape pr) as (Ht & Hty & Hc & Hr);
      assert (Hsnd : snd pr = negb (is_client_status z) || (z =? 429)%Z)
  end.
  { destruct (is_client_status z) eqn:Ec; cbn [negb orb].
    - destruct (z =? 401)%Z eqn:E1; [apply Z.eqb_eq in E1; subst; reflexivity|].
      destruct (z =? 403)%Z eqn:E2; [apply Z.eqb_eq in E2; subst; reflexivity|].
      destruct (z =? 404)%Z eqn:E3; [apply Z.eqb_eq in E3; subst; reflexivity|].
      destruct (z =? 429)%Z; reflexivity.
    - destruct (500 <=? z)%Z; reflexivity. }
  cbv zeta in Ht, Hty, Hc, Hr.
  rewrite Ht, Hty, Hc, Hr, Hsnd.
  repeat split; intros; try discriminate; try congruence.
  - exists e, z. auto.
  - match goal with H : _ \/ _ |- _ => destruct H; discriminate end.
Qed.

(** [s.endsWith(suffix)] *)
Definition endsWith (suffix s : jsstring) : bool :=
  startsWith (rev suffix) (rev s).

Definition retry_hint : jsstring :=
  nl2 ++ lit "🔄 Vous pouvez réessayer votre demande.".

(** X12: the text shown for an error ends with the invitation to retry
    exactly when the error can be retried. *)
Theorem retry_hint_iff_retryable (st : ErrorState) :
  endsWith retry_hint (getUserFriendlyMessage st) = retryable st.
Proof.
  unfold getUserFriendlyMessage. cbv zeta.
  destruct st as [ty tx cd ts rb]. cbn [type retryable].
  destruct ty; destruct rb;
    try destruct (code_is _ "429");
    try destruct (code_is _ "503");
    vm_compute; reflexivity.
Qed.

Lemma filter_split_length {A} (f g : A -> bool) (l : list A) :
  (forall x, f x = negb (g x)) ->
  length (filter f l) + length (filter g l) = length l.
Proof.
  intros H. induction l as [|x l IH]; [reflexivity|].
  cbn [filter]. rewrite H. destruct (g x); cbn [negb length]; lia.
Qed.

(** X13: in the statistics of [getErrorStats] the five counts by type add up
    to the total, which is the length of the log; the count of recent errors
    (less than an hour old) is at most the total, and it is the total when
    every entry is recent. *)
Theorem getErrorStats_adds_up (now : Z) (h : ErrorHandler) :
  let stats := getErrorStats now h in
  byType stats network + byType stats timeout + byType stats server
  + byType stats validation + byType stats storage = total stats
  /\ total stats = length (errorLog h)
  /\ recent stats <= total stats
  /\ (Forall (fun e => (now - 3600000 < timestamp e)%Z) (errorLog h) ->
      recent stats = total stats).
Proof.
  cbv zeta. unfold getErrorStats. cbn [byType total recent].
  split; [|split; [reflexivity|split]].
  - induction (errorLog h) as [|e l IH]; [reflexivity|].
    cbn [filter length]. destruct (type e); cbn [type_eqb length]; lia.
  - apply filter_length_le.
  - intros H. induction H as [|e l He _ IH]; [reflexivity|].
    cbn [filter length].
    replace (now - 60 * 60 * 1000 <? timestamp e)%Z with true
      by (symmetry; apply Z.ltb_lt; lia).
    cbn [length]. now rewrite IH.
Qed.

End ErrorFacts.

(* ================================================================== *)
(** * The API client: what a request returns, how long it tries *)
(* ================================================================== *)

Module RetryFacts.
Import Errors ChatAPI Retry.

(** X14: [makeRequest] returns data in one case only: the platform answered
    with a status from 200 to 299, the body parsed, and the parsed value
    has the four required fields; the data returned is that value.  In every
    other case it throws. *)
Theorem makeRequest_returns_iff (x : net_result) (data : json) :
  makeRequest x = Returned data
  <-> exists r, x = NetResponse r /\ ok r = true /\ body r = Parsed data
                /\ isValidResponse data = true.
Proof.
  split.
  - destruct x as [r| |msg|msg]; cbn [makeRequest]; try discriminate.
    destruct (ok r) eqn:Eok; cbn [negb]; [|discriminate].
    destruct (body r) as [d|n m] eqn:Eb; [|discriminate].
    destruct (isValidResponse d) eqn:Ev; [|discriminate].
    intros H. injection H as <-. exists r. auto.
  - intros (r & -> & Hok & Hb & Hv). cbn [makeRequest].
    now rewrite Hok, Hb, Hv.
Qed.

Lemma attempts_shape (config : ChatAPIConfig) (net : nat -> net_result) :
  forall remaining attempt lastError,
    attempt + remaining = S (maxRetries config) ->
    1 <= remaining ->
    exists k,
      1 <= k <= remaining
      /\ attempts config net remaining attempt lastError
         = (makeRequest (net (attempt + k - 1)), schedule_from attempt k)
      /\ (forall j, j < k - 1 -> goes_on (makeRequest (net (attempt + j))) = true)
      /\ (k < remaining ->
          goes_on (makeRequest (net (attempt + k - 1))) = false).
Proof.
  induction remaining as [|rem IH]; intros attempt lastError Hinv Hrem; [lia|].
  cbn [attempts].
  destruct (makeRequest (net attempt)) as [response|e] eqn:Em.
  - exists 1. replace (attempt + 1 - 1) with attempt by lia. rewrite Em.
    split; [lia|]. split; [reflexivity|]. split; [intros j Hj; lia|].
    reflexivity.
  - destruct (is_abort e) eqn:Ea.
    { exists 1. replace (attempt + 1 - 1) with attempt by lia. rewrite Em.
      split; [lia|]. split; [reflexivity|]. split; [intros j Hj; lia|].
      intros _. cbn [goes_on]. unfold retried. now rewrite Ea. }
    destruct (match status e with
              | Some st => is_client_status st
              | None => false
              end) eqn:Ec.
    { exists 1. replace (attempt + 1 - 1) with attempt by lia. rewrite Em.
      split; [lia|]. split; [reflexivity|]. split; [intros j Hj; lia|].
      intros _. cbn [goes_on]. unfold retried. rewrite Ec.
      apply andb_false_r. }
    assert (Hgo : goes_on (makeRequest (net attempt)) = true).
    { rewrite Em. cbn [goes_on]. unfold retried. now rewrite Ea, Ec. }
    destruct rem as [|rem].
    + exists 1. replace (attempt + 1 - 1) with attempt by lia. rewrite Em.
      cbn [attempts].
      replace (attempt <? maxRetries config) with false
        by (symmetry; apply Nat.ltb_ge; lia).
      split; [lia|]. split; [reflexivity|]. split; [intros j Hj; lia|].
      intros Hlt. lia.
    + destruct (IH (S attempt) (Some e) ltac:(lia) ltac:(lia))
        as (k & Hk & Heq & Hbefore & Hstop).
      exists (S k). rewrite Heq.
      replace (attempt <? maxRetries config) with true
        by (symmetry; apply Nat.ltb_lt; lia).
      replace (S attempt + k - 1) with (attempt + S k - 1) by lia.
      split; [lia|]. split.
      * destruct k as [|k]; [lia|]. reflexivity.
      * split.
        -- intros j Hj. destruct j as [|j].
           ++ now rewrite Nat.add_0_r.
           ++ replace (attempt + S j) with (S attempt + j) by lia.
              apply Hbefore. lia.
        -- intros Hlt.
           replace (attempt + S k - 1) with (S attempt + k - 1) by lia.
           apply Hstop. lia.
Qed.

Lemma waits_bounded (k : nat) :
  forall attempt, 1 <= attempt ->
    Forall (fun ms => (1000 <= ms <= 10000)%Z) (waits (schedule_from attempt k)).
Proof.
  induction k as [|[|k] IH]; intros attempt Ha.
  - constructor.
  - constructor.
  - change (waits (schedule_from attempt (S (S k))))
      with (backoff attempt :: waits (schedule_from (S attempt) (S k))).
    apply Forall_cons; [|apply IH; lia].
    unfold backoff.
    assert (1 <= 2 ^ (Z.of_nat attempt - 1))%Z
      by (apply (Z.pow_le_mono_r 2 0); lia).
    lia.
Qed.

(** X15: whatever the platform answers, [sendMessage] makes at least one and
    at most [maxRetries] requests (none when [maxRetries] is 0, in which
    case it throws ['Failed to send message after retries']); it never waits
    after its last request, every wait lasts between 1 and 10 seconds, and
    its outcome is the outcome of its last request.  It stops before its
    last turn only on an outcome that is not retried. *)
Theorem sendMessage_bounded (config : ChatAPIConfig) (net : nat -> net_result) :
  (maxRetries config = 0 ->
   sendMessage config net
   = (Thrown (plain_error (lit "Failed to send message after retries")), []))
  /\ (1 <= maxRetries config ->
      exists k,
        1 <= k <= maxRetries config
        /\ sendMessage config net = (makeRequest (net k), schedule k)
        /\ attempts_made (snd (sendMessage config net)) = k
        /\ length (waits (snd (sendMessage config net))) = k - 1
        /\ Forall (fun ms => (1000 <= ms <= 10000)%Z)
                  (waits (snd (sendMessage config net)))
        /\ (forall j, 1 <= j < k -> goes_on (makeRequest (net j)) = true)
        /\ (k < maxRetries config -> goes_on (makeRequest (net k)) = false)).
Proof.
  split.
  - intros H0. unfold sendMessage. rewrite H0. reflexivity.
  - intros Hmax. unfold sendMessage.
    destruct (@attempts_shape config net (maxRetries config) 1 None
                ltac:(lia) Hmax) as (k & Hk & Heq & Hbefore & Hstop).
    exists k. replace (1 + k - 1) with k in * by lia.
    rewrite Heq. cbn [snd]. unfold schedule.
    split; [exact Hk|]. split; [reflexivity|].
    split; [apply attempts_made_schedule|]. split.
    + destruct k as [|k]; [lia|]. rewrite waits_schedule.
      rewrite length_map, length_seq. lia.
    + split; [apply waits_bounded; lia|]. split.
      * intros j Hj. destruct j as [|j]; [lia|].
        replace (S j) with (1 + j) by lia. apply Hbefore. lia.
      * exact Hstop.
Qed.

Lemma sendMessage_bounded_witness :
  sendMessage three_attempts (fun _ => NetTimeout)
  = (makeRequest NetTimeout,
     [Attempt 1; Wait 1000; Attempt 2; Wait 2000; Attempt 3]).
Proof.
  destruct (sendMessage_bounded three_attempts (fun _ => NetTimeout))
    as [_ H].
  destruct (H ltac:(cbn; lia)) as (k & Hk & Heq & _ & _ & _ & Hbefore & Hstop).
  cbn [three_attempts maxRetries] in Hk, Hstop.
  assert (k = 3) as ->.
  { destruct (Nat.eq_dec k 3) as [E|E]; [exact E|].
    assert (Hlt : k < 3) by lia. apply Hstop in Hlt.
    vm_compute in Hlt. discriminate. }
  rewrite Heq. vm_compute. reflexivity.
Defined.

(** X16: when the first requests fail in a way that is retried (a timeout, a
    network error, a status of 500 or more) and the next one is answered
    with a valid body, [sendMessage] returns that body, having made exactly
    that many requests and waited after each of the failed ones. *)
Theorem sendMessage_recovers (config : ChatAPIConfig) (net : nat -> net_result)
    (k : nat) (data : json) :
  1 <= k <= maxRetries config ->
  (forall n, 1 <= n < k -> transient (net n) = true) ->
  makeRequest (net k) = Returned data ->
  sendMessage config net = (Returned data, schedule k)
  /\ waits (schedule k) = map backoff (seq 1 (k - 1)).
Proof.
  intros Hk Hbefore Hret. unfold sendMessage, schedule.
  destruct k as [|k]; [lia|]. split.
  - rewrite (@attempts_spec config net k (maxRetries config) 1 None).
    + cbn [Nat.add]. now rewrite Hret.
    + lia.
    + lia.
    + intros j Hj. apply transient_goes_on, Hbefore. lia.
    + left. cbn [Nat.add]. now rewrite Hret.
  - rewrite waits_schedule. now replace (S k - 1) with k by lia.
Qed.

Lemma sendMessage_recovers_witness :
  exists data,
    sendMessage three_attempts
      (fun n => match n with 1 => unavailable | _ => Lifecycle.reply "Bonjour" end)
    = (Returned data, [Attempt 1; Wait 1000; Attempt 2]).
Proof.
  eexists.
  apply (@sendMessage_recovers three_attempts
           (fun n => match n with 1 => unavailable | _ => Lifecycle.reply "Bonjour" end)
           2).
  - cbn. lia.
  - intros n Hn. assert (n = 1) as -> by lia. vm_compute. reflexivity.
  - vm_compute. reflexivity.
Defined.

End RetryFacts.

(* ================================================================== *)
(** * The storage manager: saving, loading back, housekeeping *)
(* ================================================================== *)

Module StoreFacts.
Import StorageManager Loading Persistence.
Local Open Scope js_scope.

(** [state.lastActivity < limit] for the number [lastActivity] is typed as
    ([true] and [false] count as 1 and 0, [null] as 0; a string would first
    be converted to a number, which is not modelled: such a value compares
    as [false] here). *)
Definition number_lt (v : json) (limit : Z) : bool :=
  match v with
  | JNum z => (z <? limit)%Z
  | JBool true => (1 <? limit)%Z
  | JBool false | JNull => (0 <? limit)%Z
  | _ => false
  end.

Definition thirtyDays : Z := 30 * 24 * 60 * 60 * 1000.

(** [cleanupOldSessions] *)
Definition cleanupOldSessions : M unit :=
  state <- loadChat ;;
  match state with
  | None => ret tt
  | Some st =>
      now <- Date_now ;;
      if number_lt (lastActivity st) (now - thirtyDays) then clearChat else ret tt
  end.

(** [{ ...a, ...b }] *)
Definition merge (a b : json) : json :=
  JObj (fold_left (fun acc (kv : jsstring * json) => assign (fst kv) (snd kv) acc)
                  (spread b) (spread a)).

(** [updatePreferences] *)
Definition updatePreferences `{DOMPurify} (preferences : json) : M bool :=
  currentState <- loadChat ;;
  match currentState with
  | None => ret false
  | Some st =>
      saveChat {| messages := messages st; sessionId := sessionId st;
                  lastActivity := lastActivity st; version := version st;
                  userPreferences := merge (userPreferences st) preferences |}
  end.

Section WithPurifier.
Context {P : DOMPurify}.

(** X17: [saveChat] touches nothing but the stored record, and that all or
    nothing: when it answers [false] the world is as it was, the record of
    before included; when it answers [true] the store holds the text of one
    record, a text the store had room for, and nothing else has changed. *)
Theorem saveChat_all_or_nothing (state : ChatState) (w : World) :
  (fst (saveChat state w) = false -> snd (saveChat state w) = w)
  /\ (fst (saveChat state w) = true ->
      exists data,
        snd (saveChat state w) = with_storage (Some (stringify data)) w
        /\ (N.of_nat (length (JSON_stringify data)) <= quota w)%N).
Proof.
  unfold saveChat, getStoredData, bind, getItem, ret, Date_now, setItem.
  cbv beta iota zeta.
  destruct (build_record _ _ _) as [data|]; [|split; [reflexivity | discriminate]].
  destruct (sanitizeStorageData data) as [sd|];
    [|split; [reflexivity | discriminate]].
  destruct (exceeds sd).
  - destruct (cleanOldMessages sd) as [cl|];
      [|split; [reflexivity | discriminate]].
    cbn [stringify item_text].
    destruct (N.leb_spec (N.of_nat (length (JSON_stringify cl))) (quota w));
      cbn [fst snd]; split; try discriminate; try reflexivity.
    intros _. exists cl. auto.
  - cbn [stringify item_text].
    destruct (N.leb_spec (N.of_nat (length (JSON_stringify sd))) (quota w));
      cbn [fst snd]; split; try discriminate; try reflexivity.
    intros _. exists sd. auto.
Qed.

Lemma truthy_or_else (v d : json) : truthy v = true -> or_else (Some v) d = v.
Proof. intros H. unfold or_else. now rewrite H. Qed.

(** Loading a record of the current version whose fields are there. *)
Lemma loadChat_exact (w : World) (s c l p md : json) (ms : list json) :
  storage w = Some (stringify (record (JStr currentVersion) s c l (JArr ms) p md)) ->
  forallb message_ok ms = true ->
  truthy s = true -> truthy l = true -> truthy p = true ->
  loadChat w
  = (Some {| messages := ms; sessionId := s; lastActivity := l;
             version := currentVersion; userPreferences := p |}, w).
Proof.
  intros Hs Hms Ts Tl Tp. unfold loadChat. unfold bind at 1. unfold getItem.
  rewrite Hs.
  pose proof (@stringify_object_text
                [(lit "version", JStr currentVersion); (lit "sessionId", s);
                 (lit "created", c); (lit "lastModified", l);
                 (lit "messages", JArr ms); (lit "userPreferences", p);
                 (lit "metadata", md)]) as Hne.
  fold (record (JStr currentVersion) s c l (JArr ms) p md) in Hne.
  destruct (item_text (stringify (record (JStr currentVersion) s c l (JArr ms) p md)))
    eqn:Et; [congruence|].
  cbn [stringify parsed]. rewrite validate_record, Hms. cbn [negb].
  unfold bind at 1. rewrite migrateData_current by (vm_compute; reflexivity).
  unfold bind at 1. rewrite or_compute_spec.
  unfold bind at 1. rewrite or_compute_spec.
  unfold bind at 1. rewrite or_compute_spec.
  rewrite get_record_sessionId, get_record_lastModified,
    get_record_userPreferences.
  cbn [truthy_opt]. rewrite Ts, Tl, Tp.
  rewrite !truthy_or_else by assumption.
  unfold ret, messages_of. rewrite get_record_messages. reflexivity.
Qed.

Lemma save_then_load_exact (state : ChatState) (w : World) :
  forallb message_ok (messages state) = true ->
  truthy (sessionId state) = true ->
  truthy (userPreferences state) = true ->
  clock w <> 0%Z ->
  exceeds (saved_record state w) = false ->
  (N.of_nat (length (JSON_stringify (saved_record state w))) <= quota w)%N ->
  fst (saveChat state w) = true
  /\ loadChat (snd (saveChat state w))
     = (Some {| messages := map clean_message (messages state);
                sessionId := sessionId state;
                lastActivity := JNum (clock w);
                version := currentVersion;
                userPreferences := userPreferences state |},
        snd (saveChat state w)).
Proof.
  intros Hok Ts Tp Hclock Hex Hq.
  rewrite (saveChat_writes Hok Hex Hq). cbn [fst snd]. split; [reflexivity|].
  unfold saved_record.
  eapply loadChat_exact.
  - cbn [with_storage storage]. reflexivity.
  - now apply forallb_clean.
  - exact Ts.
  - cbn [truthy]. now apply negb_true_iff, Z.eqb_neq.
  - exact Tp.
Qed.

(** X18: saving a session and loading it back gives the session again: the
    same [sessionId] and preferences, the current version, the time of the
    save as last activity, and the messages as [sanitizeStorageData] left
    them; loading changes nothing in the store.  (The session has a
    [sessionId] and preferences, its messages are well formed, the clock is
    not at 0, nothing is evicted and the store takes the record.) *)
Theorem save_then_load_session (state : ChatState) (w : World) :
  forallb message_ok (messages state) = true ->
  truthy (sessionId state) = true ->
  truthy (userPreferences state) = true ->
  clock w <> 0%Z ->
  exceeds (saved_record state w) = false ->
  (N.of_nat (length (JSON_stringify (saved_record state w))) <= quota w)%N ->
  fst (saveChat state w) = true
  /\ loadChat (snd (saveChat state w))
     = (Some {| messages := map clean_message (messages state);
                sessionId := sessionId state;
                lastActivity := JNum (clock w);
                version := currentVersion;
                userPreferences := userPreferences state |},
        snd (saveChat state w)).
Proof. apply save_then_load_exact. Qed.

End WithPurifier.

Lemma save_then_load_session_witness :
  loadChat (snd (@saveChat escaping (session_of greeting) (world_with None)))
  = (Some {| messages := map (@clean_message escaping)
                             (messages (session_of greeting));
             sessionId := JStr (lit "s-1");
             lastActivity := JNum 1700000000000;
             version := currentVersion;
             userPreferences := default_preferences false |},
     snd (@saveChat escaping (session_of greeting) (world_with None))).
Proof.
  apply (@save_then_load_session escaping (session_of greeting) (world_with None)).
  - apply forallb_message_json. repeat constructor; vm_compute; discriminate.
  - reflexivity.
  - reflexivity.
  - vm_compute. discriminate.
  - vm_compute. reflexivity.
  - apply N.leb_le. vm_compute. reflexivity.
Defined.

Section Housekeeping.
Context {P : DOMPurify}.

Lemma get_record_created (v s c l m p md : json) :
  get "created" (record v s c l m p md) = Some c.
Proof. vm_compute. reflexivity. Qed.

(** X19: the record [saveChat] writes carries the time of the save as
    [lastModified], and as [created] the [created] of the record that was
    stored before, when there was one with a [created] that counts as true,
    and the time of the save when nothing was stored.  The time of creation
    so survives every later save. *)
Theorem created_is_kept (state : ChatState) (w : World) :
  forallb message_ok (messages state) = true ->
  exceeds (saved_record state w) = false ->
  (N.of_nat (length (JSON_stringify (saved_record state w))) <= quota w)%N ->
  exists written,
    storage (snd (saveChat state w)) = Some (stringify written)
    /\ get "lastModified" written = Some (JNum (clock w))
    /\ (forall it before c,
          storage w = Some it -> item_text it <> [] ->
          parsed it = Some before ->
          get "created" before = Some c -> truthy c = true ->
          get "created" written = Some c)
    /\ (storage w = None -> get "created" written = Some (JNum (clock w))).
Proof.
  intros Hok Hex Hq. rewrite (saveChat_writes Hok Hex Hq).
  exists (saved_record state w). cbn [snd with_storage storage].
  split; [reflexivity|]. unfold saved_record.
  rewrite get_record_lastModified, get_record_created.
  split; [reflexivity|].
  unfold getStoredData, bind, getItem, ret. cbn [fst]. split.
  - intros it before c Hs Ht Hp Hc Tc. rewrite Hs.
    destruct (item_text it); [congruence|]. rewrite Hp.
    unfold created_or. rewrite Hc. now rewrite truthy_or_else.
  - intros Hs. now rewrite Hs.
Qed.

(** X20: [cleanupOldSessions] does nothing when nothing is stored; a stored
    session (of the current version, well formed) is removed exactly when
    it was last modified more than thirty days before now, and is left as
    it is otherwise. *)
Theorem cleanupOldSessions_spec (w : World) (s c p md : json) (l : Z)
    (ms : list json) :
  (storage w = None -> cleanupOldSessions w = (tt, w))
  /\ (storage w
      = Some (stringify (record (JStr currentVersion) s c (JNum l) (JArr ms) p md)) ->
      forallb message_ok ms = true ->
      truthy s = true -> l <> 0%Z -> truthy p = true ->
      cleanupOldSessions w
      = (tt, if (l <? clock w - 2592000000)%Z then with_storage None w else w)).
Proof.
  split.
  - intros Hs. unfold cleanupOldSessions. unfold bind at 1.
    now rewrite (loadChat_absent w Hs).
  - intros Hs Hms Ts Hl Tp. unfold cleanupOldSessions. unfold bind at 1.
    rewrite (loadChat_exact w Hs Hms Ts
               ltac:(cbn [truthy]; now apply negb_true_iff, Z.eqb_neq) Tp).
    unfold bind, Date_now. cbn [lastActivity number_lt].
    change (clock w - thirtyDays)%Z with (clock w - 2592000000)%Z.
    destruct (l <? clock w - 2592000000)%Z; reflexivity.
Qed.

End Housekeeping.

Definition kept_session (last : Z) : World :=
  world_with
    (Some (stringify (record (JStr currentVersion) (JStr (lit "s-1"))
                        (JNum last) (JNum last) (JArr [])
                        (default_preferences false) (JObj [])))).

Lemma cleanupOldSessions_spec_witness :
  cleanupOldSessions (kept_session 1699999000000)
  = (tt, kept_session 1699999000000)
  /\ cleanupOldSessions (kept_session 1600000000000) = (tt, world_with None).
Proof.
  split.
  - destruct (cleanupOldSessions_spec (kept_session 1699999000000)
                (JStr (lit "s-1")) (JNum 1699999000000)
                (default_preferences false) (JObj []) 1699999000000 [])
      as [_ H].
    rewrite H; try reflexivity. discriminate.
  - destruct (cleanupOldSessions_spec (kept_session 1600000000000)
                (JStr (lit "s-1")) (JNum 1600000000000)
                (default_preferences false) (JObj []) 1600000000000 [])
      as [_ H].
    rewrite H; try reflexivity. discriminate.
Defined.

Lemma created_is_kept_witness :
  exists written,
    storage (snd (@saveChat escaping (session_of greeting)
                    (kept_session 1699999000000)))
    = Some (stringify written)
    /\ get "created" written = Some (JNum 1699999000000)
    /\ get "lastModified" written = Some (JNum 1700000000000).
Proof.
  destruct (@created_is_kept escaping (session_of greeting)
              (kept_session 1699999000000))
    as (written & Hs & Hl & Hc & _).
  - apply forallb_message_json. repeat constructor; vm_compute; discriminate.
  - vm_compute. reflexivity.
  - apply N.leb_le. vm_compute. reflexivity.
  - exists written. split; [exact Hs|]. split; [|exact Hl].
    eapply Hc.
    + reflexivity.
    + vm_compute. discriminate.
    + reflexivity.
    + vm_compute. reflexivity.
    + reflexivity.
Defined.

(** ** The average response time and the eviction of old messages *)

Lemma responseTimes_range (msgs : list json) :
  Forall (fun t => (0 < t < 60000)%Z) (responseTimes msgs).
Proof.
  induction msgs as [|m msgs IH]; [constructor|].
  destruct msgs as [|m' msgs]; [constructor|].
  change (responseTimes (m :: m' :: msgs))
    with ((if role_is m user && role_is m' assistant then
             match timestamp_of m', timestamp_of m with
             | Some c, Some p =>
                 if ((0 <? c - p) && (c - p <? 60000))%Z then [(c - p)%Z] else []
             | _, _ => []
             end
           else []) ++ responseTimes (m' :: msgs)).
  apply Forall_app. split; [|exact IH].
  destruct (role_is m user && role_is m' assistant); [|constructor].
  destruct (timestamp_of m') as [c|]; [|constructor].
  destruct (timestamp_of m) as [p|]; [|constructor].
  destruct ((0 <? c - p) && (c - p <? 60000))%Z eqn:E; [|constructor].
  apply andb_true_iff in E as [E1 E2]. apply Z.ltb_lt in E1, E2.
  repeat constructor; lia.
Qed.

Lemma sum_range (l : list Z) :
  Forall (fun t => (0 < t < 60000)%Z) l ->
  forall acc,
    (acc + Z.of_nat (length l) <= fold_left Z.add l acc
     <= acc + 59999 * Z.of_nat (length l))%Z.
Proof.
  induction 1 as [|x l Hx _ IH]; intros acc; cbn [fold_left length].
  - lia.
  - specialize (IH (acc + x)%Z). lia.
Qed.

(** X21: the average response time [saveChat] records (its integer part) is
    0 when no message of the user is directly followed by an answer that
    came between 0 and 60 seconds later, and lies from 1 to 59999
    milliseconds otherwise: answers that took a minute or more, or that
    carry an earlier time than the question, never enter it. *)
Theorem averageResponseTime_range (msgs : list json) :
  (responseTimes msgs = [] -> calculateAverageResponseTime msgs = 0%Z)
  /\ (responseTimes msgs <> [] ->
      (1 <= calculateAverageResponseTime msgs <= 59999)%Z)
  /\ Forall (fun t => (0 < t < 60000)%Z) (responseTimes msgs).
Proof.
  pose proof (responseTimes_range msgs) as Hr.
  split; [|split; [|exact Hr]].
  - intros H. unfold calculateAverageResponseTime. now rewrite H.
  - intros Hne. unfold calculateAverageResponseTime.
    destruct (responseTimes msgs) as [|t times] eqn:E; [congruence|].
    pose proof (sum_range Hr 0) as Hs.
    set (n := Z.of_nat (length (t :: times))) in *.
    assert (Hn : (0 < n)%Z) by (unfold n; cbn [length]; lia).
    split.
    + apply Z.div_le_lower_bound; lia.
    + apply Z.div_le_upper_bound; lia.
Qed.

Lemma averageResponseTime_range_witness :
  responseTimes (messages (session_of greeting)) = [800%Z]
  /\ (1 <= calculateAverageResponseTime (messages (session_of greeting))
       <= 59999)%Z.
Proof.
  split; [vm_compute; reflexivity|].
  destruct (averageResponseTime_range (messages (session_of greeting)))
    as (_ & H & _).
  apply H. vm_compute. discriminate.
Defined.

(** X23: when [cleanOldMessages] has run, the record holds the last 50 of
    its messages (all of them when there were no more), in their order; its
    summary counts these messages and their characters again; every other
    field is as it was. *)
Theorem cleanOldMessages_spec (data data' : json) :
  cleanOldMessages data = Some data' ->
  let kept := slice_last 50 (messages_of data) in
  get "messages" data' = Some (JArr kept)
  /\ length kept = Nat.min 50 (length (messages_of data))
  /\ (exists dropped, messages_of data = dropped ++ kept)
  /\ (exists summary chars,
        get "metadata" data' = Some (JObj summary)
        /\ lookup (lit "totalMessages") summary
           = Some (JNum (Z.of_nat (length kept)))
        /\ totalCharacters kept = Some chars
        /\ lookup (lit "totalCharacters") summary = Some (JNum chars))
  /\ (forall k : string,
        str_eqb (lit k) (lit "messages") = false ->
        str_eqb (lit k) (lit "metadata") = false ->
        get k data' = get k data).
Proof.
  unfold cleanOldMessages. destruct data as [| | | | |fields]; try discriminate.
  set (ms := messages_of (JObj fields)).
  assert (Hkept : (if (50 <? length ms)%nat then slice_last 50 ms else ms)
                  = slice_last 50 ms).
  { destruct (Nat.ltb_spec 50 (length ms)); [reflexivity|].
    symmetry. now apply ErrorFacts.slice_last_all. }
  cbv zeta. rewrite Hkept.
  destruct (totalCharacters (slice_last 50 ms)) as [chars|] eqn:Ec;
    [|discriminate].
  destruct (lookup (lit "metadata") fields) as [[| | | | |md]|] eqn:Em;
    try discriminate.
  intros H. injection H as <-. unfold get.
  split; [|split; [|split; [|split]]].
  - rewrite lookup_assign_other by (vm_compute; reflexivity).
    apply lookup_assign_same.
  - apply ErrorLog.slice_last_length.
  - eexists. symmetry. apply ErrorLog.slice_last_suffix.
  - eexists _, chars. rewrite lookup_assign_same.
    split; [reflexivity|]. split; [|split; [reflexivity|]].
    + rewrite lookup_assign_other by (vm_compute; reflexivity).
      apply lookup_assign_same.
    + apply lookup_assign_same.
  - intros k Hk1 Hk2. now rewrite !lookup_assign_other.
Qed.

Definition two_messages : json :=
  record (JStr currentVersion) (JStr (lit "s-1")) (JNum 1) (JNum 1)
    (JArr (messages (session_of greeting))) (default_preferences false)
    (JObj []).

Lemma cleanOldMessages_spec_witness :
  exists data',
    cleanOldMessages two_messages = Some data'
    /\ get "messages" data' = Some (JArr (messages (session_of greeting))).
Proof.
  destruct (cleanOldMessages two_messages) as [data'|] eqn:E;
    [|vm_compute in E; discriminate].
  exists data'. split; [reflexivity|].
  destruct (cleanOldMessages_spec _ E) as [H _]. rewrite H.
  vm_compute. reflexivity.
Defined.

(** ** Preferences *)

Lemma lookup_fold_other (k : jsstring) (b a : list (jsstring * json)) :
  forallb (fun kv : jsstring * json => negb (str_eqb k (fst kv))) b = true ->
  lookup k (fold_left (fun acc (kv : jsstring * json) =>
                         assign (fst kv) (snd kv) acc) b a)
  = lookup k a.
Proof.
  revert a. induction b as [|[k' v'] b IH]; intros a Hb; [reflexivity|].
  cbn [forallb fst] in Hb. apply andb_true_iff in Hb as [Hk Hb].
  cbn [fold_left fst snd]. rewrite IH by exact Hb.
  apply lookup_assign_other. now apply negb_true_iff in Hk.
Qed.

Lemma lookup_fold_last (k : jsstring) (v : json)
    (b1 b2 a : list (jsstring * json)) :
  forallb (fun kv : jsstring * json => negb (str_eqb k (fst kv))) b2 = true ->
  lookup k (fold_left (fun acc (kv : jsstring * json) =>
                         assign (fst kv) (snd kv) acc) (b1 ++ (k, v) :: b2) a)
  = Some v.
Proof.
  intros Hb2. rewrite fold_left_app. cbn [fold_left fst snd].
  rewrite lookup_fold_other by exact Hb2. apply lookup_assign_same.
Qed.

Section Preferences.
Context {P : DOMPurify}.

(** X22: [updatePreferences] answers [false] and changes nothing when no
    session is stored.  On a stored session it saves the session again with
    the given preferences laid over the stored ones: a preference that is
    given takes the given value (the last one, if it is given twice), every
    other preference keeps its value; the session loaded afterwards has
    these preferences. *)
Theorem updatePreferences_spec (preferences : json) (w : World)
    (s c p md : json) (l : Z) (ms : list json) :
  (storage w = None -> updatePreferences preferences w = (false, w))
  /\ (forall k v b1 b2,
        spread preferences = b1 ++ (k, v) :: b2 ->
        forallb (fun kv : jsstring * json => negb (str_eqb k (fst kv))) b2 = true ->
        match merge p preferences with
        | JObj fields => lookup k fields = Some v
        | _ => False
        end)
  /\ (forall k,
        forallb (fun kv : jsstring * json => negb (str_eqb k (fst kv)))
                (spread preferences) = true ->
        match merge p preferences with
        | JObj fields => lookup k fields = lookup k (spread p)
        | _ => False
        end)
  /\ (let updated :=
        {| messages := ms; sessionId := s; lastActivity := JNum l;
           version := currentVersion;
           userPreferences := merge p preferences |} in
      storage w
      = Some (stringify (record (JStr currentVersion) s c (JNum l) (JArr ms) p md)) ->
      forallb message_ok ms = true ->
      truthy s = true -> l <> 0%Z -> truthy p = true -> clock w <> 0%Z ->
      exceeds (saved_record updated w) = false ->
      (N.of_nat (length (JSON_stringify (saved_record updated w))) <= quota w)%N ->
      fst (updatePreferences preferences w) = true
      /\ exists w',
           loadChat (snd (updatePreferences preferences w))
           = (Some {| messages := map clean_message ms; sessionId := s;
                      lastActivity := JNum (clock w);
                      version := currentVersion;
                      userPreferences := merge p preferences |}, w')).
Proof.
  split; [|split; [|split]].
  - intros Hs. unfold updatePreferences. unfold bind at 1.
    now rewrite (loadChat_absent w Hs).
  - intros k v b1 b2 Hsp Hb2. unfold merge. rewrite Hsp.
    now apply lookup_fold_last.
  - intros k Hk. unfold merge. now apply lookup_fold_other.
  - cbv zeta. intros Hs Hms Ts Hl Tp Hclock Hex Hq.
    assert (Hup : updatePreferences preferences w
                  = saveChat {| messages := ms; sessionId := s;
                                lastActivity := JNum l;
                                version := currentVersion;
                                userPreferences := merge p preferences |} w).
    { unfold updatePreferences. unfold bind at 1.
      now rewrite (loadChat_exact w Hs Hms Ts
                     ltac:(cbn [truthy]; now apply negb_true_iff, Z.eqb_neq) Tp). }
    rewrite Hup.
    destruct (@save_then_load_exact P
                {| messages := ms; sessionId := s; lastActivity := JNum l;
                   version := currentVersion;
                   userPreferences := merge p preferences |}
                w Hms Ts ltac:(reflexivity) Hclock Hex Hq) as [Hsave Hload].
    cbn [messages sessionId userPreferences] in Hload.
    split; [exact Hsave|]. eexists. exact Hload.
Qed.

End Preferences.

(** A store that holds a session of two messages with the default
    preferences, and the preferences a user sets: a dark theme, no sound. *)
Definition talked : World :=
  world_with
    (Some (stringify (record (JStr currentVersion) (JStr (lit "s-1"))
                        (JNum 1699999000000) (JNum 1699999000000)
                        (JArr (map message_json greeting))
                        (default_preferences false) (JObj [])))).

Definition chosen : json :=
  JObj [(lit "theme", JStr (lit "dark")); (lit "soundEnabled", JBool false)].

Lemma updatePreferences_spec_witness :
  @updatePreferences escaping chosen (world_with None) = (false, world_with None)
  /\ fst (@updatePreferences escaping chosen talked) = true
  /\ (exists w',
        loadChat (snd (@updatePreferences escaping chosen talked))
        = (Some {| messages := map (@clean_message escaping)
                                   (map message_json greeting);
                   sessionId := JStr (lit "s-1");
                   lastActivity := JNum 1700000000000;
                   version := currentVersion;
                   userPreferences := merge (default_preferences false) chosen |},
           w'))
  /\ get "theme" (merge (default_preferences false) chosen)
     = Some (JStr (lit "dark"))
  /\ get "language" (merge (default_preferences false) chosen)
     = get "language" (default_preferences false).
Proof.
  destruct (@updatePreferences_spec escaping chosen (world_with None)
              JNull JNull (default_preferences false) JNull 0 [])
    as (Hnone & _).
  destruct (@updatePreferences_spec escaping chosen talked
              (JStr (lit "s-1")) (JNum 1699999000000)
              (default_preferences false) (JObj []) 1699999000000
              (map message_json greeting))
    as (_ & Hgiven & Hkept & Hsaved).
  split; [apply Hnone; reflexivity|].
  assert (Hrun : fst (@updatePreferences escaping chosen talked) = true
                 /\ exists w',
                      loadChat (snd (@updatePreferences escaping chosen talked))
                      = (Some {| messages := map (@clean_message escaping)
                                                 (map message_json greeting);
                                 sessionId := JStr (lit "s-1");
                                 lastActivity := JNum (clock talked);
                                 version := currentVersion;
                                 userPreferences :=
                                   merge (default_preferences false) chosen |},
                         w')).
  { apply Hsaved.
    - reflexivity.
    - apply forallb_message_json. repeat constructor; vm_compute; discriminate.
    - reflexivity.
    - discriminate.
    - reflexivity.
    - vm_compute. discriminate.
    - vm_compute. reflexivity.
    - apply N.leb_le. vm_compute. reflexivity. }
  destruct Hrun as [Htrue Hload].
  split; [exact Htrue|]. split; [exact Hload|]. split.
  - specialize (Hgiven (lit "theme") (JStr (lit "dark")) []
                  [(lit "soundEnabled", JBool false)]
                  ltac:(reflexivity) ltac:(vm_compute; reflexivity)).
    unfold get. destruct (merge (default_preferences false) chosen);
      [contradiction.. | exact Hgiven].
  - specialize (Hkept (lit "language") ltac:(vm_compute; reflexivity)).
    unfold get at 1. destruct (merge (default_preferences false) chosen);
      [contradiction.. | exact Hkept].
Defined.

End StoreFacts.

(* ================================================================== *)
(** * The container: what every run keeps *)
(* ================================================================== *)

Module ContainerFacts.
Import InputValidator ChatAPI StorageManager ChatbotContainer.
Import Loading Persistence Lifecycle Whitespace Feedback.

(** [c'] is [c] with messages added at the end, in the session and on the
    screen alike, under the same [sessionId]. *)
Definition grows (c c' : Container) : Prop :=
  exists extra,
    messages (chatState c') = messages (chatState c) ++ extra
    /\ shown c' = shown c ++ extra
    /\ sessionId (chatState c') = sessionId (chatState c).

Lemma grows_refl (c : Container) : grows c c.
Proof. exists []. now rewrite !app_nil_r. Qed.

Lemma grows_trans (a b c : Container) : grows a b -> grows b c -> grows a c.
Proof.
  intros (x & Hm & Hs & Hi) (y & Hm' & Hs' & Hi').
  exists (x ++ y). rewrite Hm', Hs', Hi', Hm, Hs, Hi, !app_assoc. auto.
Qed.

Section WithPurifier.
Context {P : DOMPurify}.

Lemma addMessage_grows (m : json) (c : Container) (w : World) :
  grows c (fst (addMessage m c w)).
Proof.
  destruct (addMessage_spec m c w) as [s ->]. exists [m]. now cbn.
Qed.

Lemma resume_grows (r : result json) (c : Container) (w : World) :
  grows c (fst (resume r c w)).
Proof.
  unfold resume. destruct r as [response|e].
  - unfold bind at 1. unfold bind at 1. rewrite new_message_spec.
    match goal with
    | |- context [addMessage ?m ?c0 ?w0] =>
        destruct (addMessage_spec m c0 w0) as [s ->]
    end.
    unfold bind, ret. cbn [fst]. eexists [_]. now cbn.
  - unfold bind at 1. unfold bind at 1. unfold Date_now at 1.
    destruct (Errors.handleChatError _ _ _) as [msg h].
    unfold showSystemMessage. unfold bind at 1. rewrite new_message_spec.
    match goal with
    | |- context [addMessage ?m ?c0 ?w0] =>
        destruct (addMessage_spec m c0 w0) as [s ->]
    end.
    unfold bind, ret. cbn [fst]. eexists [_]. now cbn.
Qed.

Definition clears (ev : event) : bool :=
  match ev with
  | ClearChat true => true
  | _ => false
  end.

Lemma step_grows (ev : event) (c : Container) (w : World) :
  clears ev = false -> grows c (fst (step ev c w)).
Proof.
  intros Hev. destruct ev as [text|n net|confirmed|now]; cbn [step].
  - unfold handleUserMessage. destruct (trim text) as [|x xs] eqn:Et;
      [apply grows_refl|].
    destruct (isLoading c) eqn:El; [apply grows_refl|].
    unfold bind at 1. rewrite new_message_spec. unfold bind at 1.
    match goal with
    | |- context [addMessage ?m ?c0 ?w0] =>
        destruct (addMessage_spec m c0 w0) as [s ->]
    end.
    unfold bind, ret, Date_now, navigator_userAgent. cbn [fst].
    eexists [_]. now cbn.
  - unfold settle. destruct (nth_error (inflight c) n) as [p|];
      [|apply grows_refl].
    eapply grows_trans; [|apply resume_grows].
    exists []. now rewrite !app_nil_r.
  - destruct confirmed; [discriminate | apply grows_refl].
  - apply grows_refl.
Qed.

(** X24: as long as the user does not confirm a clearing, whatever is
    submitted, whatever replies or failures arrive and however time passes,
    the conversation only grows: the messages of before stay where they
    are, new ones are added after them, the screen shows the same additions
    and the [sessionId] stays the same. *)
Theorem run_only_appends (evs : list event) (c : Container) (w : World) :
  forallb (fun ev => negb (clears ev)) evs = true ->
  grows c (fst (run evs c w)).
Proof.
  revert c w. induction evs as [|ev evs IH]; intros c w H; cbn [run].
  - apply grows_refl.
  - cbn [forallb] in H. apply andb_true_iff in H as [Hev H].
    apply negb_true_iff in Hev. unfold bind.
    pose proof (step_grows ev c w Hev) as Hs.
    destruct (step ev c w) as [c' w']. cbn [fst] in Hs.
    eapply grows_trans; [exact Hs | now apply IH].
Qed.

(** The conversation of a container that has been initialised. *)
Definition settled (c : Container) : Prop :=
  at_most_one c
  /\ shown c = messages (chatState c)
  /\ messages (chatState c) <> [].

Lemma step_settled (ev : event) (c : Container) (w : World) :
  settled c -> settled (fst (step ev c w)).
Proof.
  intros (Hone & Hshown & Hne).
  split; [now apply step_at_most_one|].
  destruct (clears ev) eqn:Hev.
  - destruct ev as [| |[|]|]; try discriminate. cbn [step].
    destruct (handleClearChat_spec c w) as [s ->]. cbn. split; [reflexivity|].
    discriminate.
  - destruct (step_grows ev c w Hev) as (extra & Hm & Hs & _).
    rewrite Hm, Hs, Hshown. split; [reflexivity|].
    intros E. apply app_eq_nil in E. now destruct E.
Qed.

Lemma initialize_settled (c : Container) (w : World) :
  isLoading c = false -> inflight c = [] -> shown c = [] ->
  settled (fst (initialize c w)).
Proof.
  intros Hl Hi Hs. unfold initialize. cbv zeta. cbn [chatState].
  destruct (messages (chatState c)) as [|m ms] eqn:Em.
  - unfold showWelcomeMessage. unfold bind at 1. rewrite new_message_spec.
    match goal with
    | |- context [addMessage ?m ?c0 ?w0] =>
        destruct (addMessage_spec m c0 w0) as [s ->]
    end.
    unfold settled, at_most_one, appended.
    cbn [fst chatState messages shown isLoading inflight].
    rewrite Hs, Em, Hl, Hi. cbn [app].
    split; [left; now split|]. split; [reflexivity | discriminate].
  - unfold ret, settled, at_most_one.
    cbn [fst chatState messages shown isLoading inflight].
    rewrite Hs, Em, Hl, Hi. cbn [app].
    split; [left; now split|]. split; [reflexivity | discriminate].
Qed.

(** X25: from the moment the container is created and initialised, and
    through every sequence of submits, replies, failures, clearings and
    ticks: at most one request is outstanding ([isLoading] says whether one
    is), the screen shows exactly the messages of the session, and the
    conversation is never empty (a new or cleared session starts with the
    welcome message). *)
Theorem reachable_settled (apiUrl : jsstring) (maxRetries : nat)
    (requestTimeout : Z) (evs : list event) (w : World) :
  let c0 := fst (create apiUrl maxRetries requestTimeout w) in
  let w0 := snd (create apiUrl maxRetries requestTimeout w) in
  let c1 := fst (initialize c0 w0) in
  let w1 := snd (initialize c0 w0) in
  settled (fst (run evs c1 w1)).
Proof.
  cbv zeta.
  assert (H0 : settled (fst (initialize
                               (fst (create apiUrl maxRetries requestTimeout w))
                               (snd (create apiUrl maxRetries requestTimeout w))))).
  { apply initialize_settled; unfold create, bind, ret;
      destruct (loadInitialState w); reflexivity. }
  generalize dependent (fst (initialize
                               (fst (create apiUrl maxRetries requestTimeout w))
                               (snd (create apiUrl maxRetries requestTimeout w)))).
  generalize (snd (initialize
                     (fst (create apiUrl maxRetries requestTimeout w))
                     (snd (create apiUrl maxRetries requestTimeout w)))).
  induction evs as [|ev evs IH]; intros w1 c1 H1; cbn [run]; [exact H1|].
  unfold bind. pose proof (step_settled ev w1 H1) as Hs.
  destruct (step ev c1 w1) as [c' w']. now apply IH.
Qed.

Lemma request_fields (trimmed : jsstring) (c : Container) (now : Z)
    (agent : jsstring) :
  get "message" (build_request trimmed c now agent) = Some (JStr trimmed)
  /\ get "sessionId" (build_request trimmed c now agent)
     = Some (sessionId (chatState c))
  /\ get "context" (build_request trimmed c now agent)
     = Some (JObj [(lit "userType", JStr (lit "business"));
                   (lit "previousMessages", JArr (getRecentMessages 5 c));
                   (lit "language", JStr (lit "fr"))]).
Proof.
  unfold build_request. generalize (getRecentMessages 5 c) as recent.
  generalize (sessionId (chatState c)) as sid. intros sid recent.
  repeat split; vm_compute; reflexivity.
Qed.

Lemma context_previous (recent : list json) :
  get "previousMessages"
    (JObj [(lit "userType", JStr (lit "business"));
           (lit "previousMessages", JArr recent);
           (lit "language", JStr (lit "fr"))])
  = Some (JArr recent).
Proof. vm_compute. reflexivity. Qed.

Lemma message_role (w : World) (r : MessageRole) (text : jsstring)
    (md : option json) :
  get "role" (message_in w r text md) = Some (JStr (role_name r)).
Proof.
  unfold message_in, message_json. cbn [id timestamp role content metadata].
  generalize (uuids w (uuid_next w)) as i. generalize (clock w) as t.
  generalize (role_name r) as rn. intros rn t i.
  destruct md; vm_compute; reflexivity.
Qed.

(** X26: a submit is acted on exactly when the text is not blank and no
    request is outstanding; it is ignored otherwise.  When acted on, one
    message of the user is appended, with the trimmed text as content, the
    next identifier and the time of the call; loading starts; and the one
    request sent carries the trimmed text, the [sessionId] of the session
    and, as previous messages, the last five of the conversation, the new
    message included. *)
Theorem handleUserMessage_spec (text : jsstring) (c : Container) (w : World) :
  (trim text = [] \/ isLoading c = true -> handleUserMessage text c w = (c, w))
  /\ (trim text <> [] -> isLoading c = false -> inflight c = [] ->
      let sent := message_in w user (trim text) None in
      let c' := fst (handleUserMessage text c w) in
      messages (chatState c') = messages (chatState c) ++ [sent]
      /\ shown c' = shown c ++ [sent]
      /\ isLoading c' = true
      /\ exists req,
           inflight c' = [{| request := req; aborted := false |}]
           /\ get "message" req = Some (JStr (trim text))
           /\ get "sessionId" req = Some (sessionId (chatState c))
           /\ (exists context,
                 get "context" req = Some context
                 /\ get "previousMessages" context
                    = Some (JArr (slice_last 5
                                    (messages (chatState c) ++ [sent]))))).
Proof.
  split.
  - intros [H|H].
    + unfold handleUserMessage. now rewrite H.
    + now apply handleUserMessage_loading.
  - intros Ht Hl Hi. cbv zeta.
    destruct (handleUserMessage_idle text c w Hl Ht) as [s ->].
    cbn [fst]. unfold submitted. cbv zeta.
    cbn [chatState messages shown isLoading inflight appended].
    rewrite Hi. cbn [map app].
    split; [reflexivity|]. split; [reflexivity|]. split; [reflexivity|].
    eexists. split; [reflexivity|].
    match goal with
    | |- context [build_request ?t0 ?c0 ?n0 ?a0] =>
        destruct (request_fields t0 c0 n0 a0) as (Hm & Hsid & Hctx)
    end.
    split; [exact Hm|]. split; [exact Hsid|].
    eexists. split; [exact Hctx|]. apply context_previous.
Qed.

(** A failure of the outstanding request. *)
Lemma settle_thrown (net : nat -> net_result) (e : Errors.JsError)
    (c : Container) (w : World) (p : Pending) :
  inflight c = [p] -> aborted p = false ->
  fst (sendMessage (api_config c) net) = Thrown e ->
  let st := Errors.createErrorState (clock w) (Errors.ErrorObject e) in
  exists s,
    settle 0 net c w
    = (setLoading false
         (appended (message_in w error (Errors.getUserFriendlyMessage st) None)
                   (clock w)
                   {| chatState := chatState c; isLoading := isLoading c;
                      shown := shown c; inflight := [];
                      errorHandler := Errors.logError st (errorHandler c);
                      api_config := api_config c |}),
       with_storage s (drawn 1 w)).
Proof.
  intros Hin Hab Hr. cbv zeta. unfold settle. rewrite Hin.
  cbn [nth_error remove_nth]. rewrite Hab, Hr. unfold resume.
  unfold bind at 1. unfold bind at 1. unfold Date_now at 1.
  unfold Errors.handleChatError. cbv zeta.
  unfold showSystemMessage. unfold bind at 1. rewrite new_message_spec.
  match goal with
  | |- context [addMessage ?m ?c0 ?w0] =>
      destruct (addMessage_spec m c0 w0) as [s Hs]; rewrite Hs
  end.
  exists s. reflexivity.
Qed.

(** X27: when the outstanding request fails, exactly one message is added
    to the conversation and to the screen: a message of role [error] whose
    text is the handler's text for that failure; the failure is entered in
    the error log; loading ends and no request is outstanding.  The message
    of the user stays in the conversation. *)
Theorem failed_request_is_reported (net : nat -> net_result)
    (e : Errors.JsError) (c : Container) (w : World) (p : Pending) :
  inflight c = [p] -> aborted p = false ->
  fst (sendMessage (api_config c) net) = Thrown e ->
  let st := Errors.createErrorState (clock w) (Errors.ErrorObject e) in
  let reported := message_in w error (Errors.getUserFriendlyMessage st) None in
  let c' := fst (settle 0 net c w) in
  messages (chatState c') = messages (chatState c) ++ [reported]
  /\ shown c' = shown c ++ [reported]
  /\ get "role" reported = Some (JStr (lit "error"))
  /\ Errors.errorLog (errorHandler c')
     = Errors.errorLog (Errors.logError st (errorHandler c))
  /\ isLoading c' = false
  /\ inflight c' = [].
Proof.
  intros Hin Hab Hr. cbv zeta.
  destruct (settle_thrown net c w Hin Hab Hr) as [s ->].
  cbn [fst setLoading appended chatState messages shown isLoading inflight
       errorHandler].
  split; [reflexivity|]. split; [reflexivity|].
  split; [apply message_role|]. repeat split.
Qed.

(** X28: from the input field to the conversation, when a send handler has
    been set on the field through [onSend]: the send action calls that
    handler, and only when the trimmed value passes validation, and then
    clears the field; the text it hands on is the prepared form of the
    trimmed value, is at most the maximum long and has no white space at
    either end, so that [handleUserMessage], when the container is idle,
    records it as it is as the content of the user's message. *)
Theorem sent_text_is_recorded (Handler : Type)
    (f f' : InputField.Field Handler) (h : Handler) (text : jsstring)
    (c : Container) (w : World) :
  InputField.handleSend f = (Some (h, text), f') ->
  InputField.onSendHandler f = Some h
  /\ f' = InputField.clear f
  /\ canSendInput (InputField.validator f) (trim (InputField.currentValue f))
     = true
  /\ text = prepareInput (InputField.validator f)
              (trim (InputField.currentValue f))
  /\ length text <= maxLength (InputField.validator f)
  /\ trim text = text
  /\ (text <> [] -> isLoading c = false ->
      messages (chatState (fst (handleUserMessage text c w)))
      = messages (chatState c) ++ [message_in w user text None]).
Proof.
  unfold InputField.handleSend. cbv zeta.
  set (v := InputField.validator f). set (value := InputField.currentValue f).
  destruct (canSendInput v (trim value)) eqn:Ecan; cbn [negb]; [|discriminate].
  destruct (InputField.onSendHandler f) as [h0|]; cbn [InputField.call_of];
    [|discriminate].
  intros H. injection H as <- <- <-.
  assert (Htrim : trim (prepareInput v (trim value)) = prepareInput v (trim value)).
  { unfold prepareInput. destruct (trim value) as [|x xs]; [reflexivity|].
    cbv zeta. destruct (_ <? _)%nat.
    - apply trim_idem.
    - unfold normalizeWhitespace. apply trim_idem. }
  repeat split.
  - apply Preparation.prepareInput_length.
  - exact Htrim.
  - intros Hne Hl.
    destruct (@handleUserMessage_idle P (prepareInput v (trim value)) c w Hl)
      as [s Hs]; [now rewrite Htrim|].
    rewrite Hs, Htrim. reflexivity.
Qed.

End WithPurifier.

Lemma run_only_appends_witness :
  grows idle
    (fst (@run escaping
            [Submit (lit "hi"); Submit (lit "hello");
             Settle 0 (fun _ => reply "Bonjour"); Tick 1700000001000]
            idle (world_with None))).
Proof.
  apply (@run_only_appends escaping). reflexivity.
Defined.

Lemma failed_request_is_reported_witness :
  isLoading (fst (@settle escaping 0 (fun _ => Retry.not_found) busy
                    (world_with None))) = false
  /\ length (messages (chatState (fst (@settle escaping 0
                                         (fun _ => Retry.not_found) busy
                                         (world_with None)))))
     = 3.
Proof.
  destruct (@failed_request_is_reported escaping (fun _ => Retry.not_found)
              {| Errors.name := lit "Error";
                 Errors.message := lit "No such route";
                 Errors.status := Some 404%Z |}
              busy (world_with None)
              {| request := JObj [(lit "message", JStr (lit "hi"))];
                 aborted := false |})
    as (Hm & _ & _ & _ & Hl & _).
  - reflexivity.
  - reflexivity.
  - vm_compute. reflexivity.
  - split; [exact Hl|]. rewrite Hm. rewrite length_app. reflexivity.
Defined.

(** A field on which the container's [handleUserMessage] has been set
    through [onSend], and in which a greeting has been typed. *)
Definition wired : InputField.Field (jsstring -> Container -> M Container) :=
  InputField.setValue (lit "  Bonjour  ")
    (InputField.onSend (@handleUserMessage escaping)
       (InputField.create
          {| InputField.Config.maxLength := 4000;
             InputField.Config.placeholder := [];
             InputField.Config.onSend := @handleUserMessage escaping;
             InputField.Config.onInput := fun _ c => ret c |})).

Lemma sent_text_is_recorded_witness :
  @InputField.handleSend escaping _ wired
  = (Some (@handleUserMessage escaping, lit "Bonjour"), InputField.clear wired)
  /\ messages (chatState (fst (@handleUserMessage escaping (lit "Bonjour")
                                 idle (world_with None))))
     = messages (chatState idle)
       ++ [message_in (world_with None) user (lit "Bonjour") None].
Proof.
  assert (Hcan : canSendInput default (trim (lit "  Bonjour  ")) = true)
    by (vm_compute; reflexivity).
  assert (Hprep : @prepareInput escaping default (trim (lit "  Bonjour  "))
                  = lit "Bonjour")
    by (vm_compute; reflexivity).
  assert (H : @InputField.handleSend escaping _ wired
              = (Some (@handleUserMessage escaping, lit "Bonjour"),
                 InputField.clear wired)).
  { unfold InputField.handleSend. cbv zeta.
    change (InputField.validator wired) with default.
    change (InputField.currentValue wired) with (lit "  Bonjour  ").
    rewrite Hcan, Hprep. reflexivity. }
  split; [exact H|].
  destruct (@sent_text_is_recorded escaping _ _ _ _ _ idle (world_with None) H)
    as (_ & _ & _ & _ & _ & _ & Hrec).
  apply Hrec; [vm_compute; discriminate | reflexivity].
Defined.

Lemma handleUserMessage_spec_witness :
  @handleUserMessage escaping (lit "   ") idle (world_with None)
  = (idle, world_with None)
  /\ isLoading (fst (@handleUserMessage escaping (lit " hi ") idle
                       (world_with None))) = true.
Proof.
  destruct (@handleUserMessage_spec escaping (lit "   ") idle (world_with None))
    as [Hblank _].
  destruct (@handleUserMessage_spec escaping (lit " hi ") idle (world_with None))
    as [_ Hsent].
  split.
  - apply Hblank. left. vm_compute. reflexivity.
  - apply Hsent; [vm_compute; discriminate | reflexivity | reflexivity].
Defined.

End ContainerFacts.

(* ================================================================== *)
(** * [normalizeWhitespace]: no tab, no run of spaces *)
(* ================================================================== *)

Module Tidy.
Import InputValidator Preparation Whitespace Detection.

(** No tab, and no space directly after a space. *)
Fixpoint tidy (s : jsstring) : bool :=
  match s with
  | [] => true
  | c :: t =>
      negb (c =? 9)%N
      && negb ((c =? 32)%N && match t with
                              | d :: _ => (d =? 32)%N
                              | [] => false
                              end)
      && tidy t
  end.

Definition starts_with_space (s : jsstring) : bool :=
  match s with
  | c :: _ => (c =? 32)%N
  | [] => false
  end.

Lemma tidy_cons (c : N) (t : jsstring) :
  tidy (c :: t)
  = negb (c =? 9)%N && negb ((c =? 32)%N && starts_with_space t) && tidy t.
Proof. reflexivity. Qed.

Lemma tidy_app_r (a b : jsstring) : tidy (a ++ b) = true -> tidy b = true.
Proof.
  induction a as [|c a IH]; intros H; [exact H|].
  cbn [app] in H. rewrite tidy_cons in H.
  apply andb_true_iff in H as [_ H]. now apply IH.
Qed.

Lemma tidy_app_l (a b : jsstring) : tidy (a ++ b) = true -> tidy a = true.
Proof.
  induction a as [|c a IH]; intros H; [reflexivity|].
  cbn [app] in H. rewrite tidy_cons in *.
  apply andb_true_iff in H as [H Ht]. apply andb_true_iff in H as [H9 H32].
  rewrite H9, (IH Ht), andb_true_r. cbn [andb].
  destruct (c =? 32)%N; [|reflexivity]. cbn [andb negb] in *.
  destruct a as [|d a]; [reflexivity|]. exact H32.
Qed.

Lemma tidy_sep (a b : jsstring) :
  tidy a = true -> tidy b = true -> tidy (a ++ 10%N :: b) = true.
Proof.
  intros Ha Hb. induction a as [|c a IH].
  - cbn [app]. rewrite tidy_cons, Hb. reflexivity.
  - cbn [app]. rewrite tidy_cons in *.
    apply andb_true_iff in Ha as [H Ht]. apply andb_true_iff in H as [H9 H32].
    rewrite H9, (IH Ht), andb_true_r. cbn [andb].
    destruct (c =? 32)%N; [|reflexivity]. cbn [andb negb] in *.
    destruct a as [|d a]; [reflexivity|]. exact H32.
Qed.

Lemma tidy_trim (s : jsstring) : tidy s = true -> tidy (trim s) = true.
Proof.
  intros H. unfold trim, trimStart.
  destruct (dropWhile_split is_space s) as (m & Hs & _).
  assert (H1 : tidy (dropWhile is_space s) = true)
    by (rewrite Hs in H; now apply tidy_app_r in H).
  revert H1. generalize (dropWhile is_space s) as z. intros z Hz.
  unfold trimEnd.
  destruct (dropWhile_split is_space (rev z)) as (m' & Hz' & _).
  assert (E : z = rev (dropWhile is_space (rev z)) ++ rev m').
  { rewrite <- rev_app_distr, <- Hz'. now rewrite rev_involutive. }
  rewrite E in Hz. now apply tidy_app_l in Hz.
Qed.

(** ** The first replacement: runs of blanks *)

Lemma blanks_match (prev : option N) (x : N) (s1 : jsstring) :
  is_blank x = true ->
  exists p',
    match_here false (Plus (Cls is_blank)) prev (x :: s1)
    = Some (p', dropWhile is_blank s1).
Proof.
  intros Hx. unfold match_here, Plus. rewrite rx_seq, rx_cls, Hx.
  destruct (dropWhile_split is_blank s1) as (m & Hs & Hm).
  assert (Hstop : stops is_blank (dropWhile is_blank s1)).
  { destruct (dropWhile_head is_blank s1) as [-> | (c & t & -> & Hc)];
      [exact I | exact Hc]. }
  remember (dropWhile is_blank s1) as d eqn:Ed. clear Ed.
  subst s1. eexists.
  apply rx_star_cls; [exact Hm | exact Hstop | reflexivity].
Qed.

Lemma blanks_no_match (prev : option N) (s : jsstring) :
  match s with
  | [] => True
  | x :: _ => is_blank x = false
  end ->
  match_here false (Plus (Cls is_blank)) prev s = None.
Proof.
  intros H. unfold match_here, Plus. rewrite rx_seq, rx_cls.
  destruct s as [|x s1]; [reflexivity|]. now rewrite H.
Qed.

Lemma dropWhile_length_le (p : N -> bool) (s : jsstring) :
  length (dropWhile p s) <= length s.
Proof. apply dropWhile_length. Qed.

Lemma collapse_tidy (fuel : nat) :
  forall prev s,
    length s < fuel ->
    let out := replace_loop fuel false (Plus (Cls is_blank)) [32%N] prev s in
    tidy out = true
    /\ (starts_with_space out = true ->
        exists x t, s = x :: t /\ is_blank x = true).
Proof.
  induction fuel as [|fuel IH]; intros prev s Hlen; [lia|].
  cbv zeta. cbn [replace_loop].
  destruct s as [|x s1].
  - rewrite blanks_no_match by exact I. split; [reflexivity | discriminate].
  - destruct (is_blank x) eqn:Ex.
    + destruct (@blanks_match prev x s1 Ex) as [p' ->].
      pose proof (dropWhile_length_le is_blank s1) as Hd.
      replace (length (dropWhile is_blank s1) <? length (x :: s1)) with true
        by (symmetry; apply Nat.ltb_lt; cbn [length]; lia).
      cbn [length] in Hlen.
      destruct (IH p' (dropWhile is_blank s1) ltac:(lia)) as [Ht Hsp].
      cbn [app]. rewrite tidy_cons, Ht. split; [|eauto].
      destruct (starts_with_space _) eqn:E; [|reflexivity].
      destruct (Hsp eq_refl) as (y & t & Hy & Hb).
      destruct (dropWhile_head is_blank s1) as [E0 | (c & t' & E1 & Hc)].
      * rewrite E0 in Hy. discriminate.
      * rewrite E1 in Hy. injection Hy as -> ->. congruence.
    + rewrite blanks_no_match by exact Ex.
      cbn [length] in Hlen.
      destruct (IH (Some x) s1 ltac:(lia)) as [Ht Hsp].
      rewrite tidy_cons, Ht.
      assert (H9 : (x =? 9)%N = false /\ (x =? 32)%N = false).
      { unfold is_blank in Ex. apply orb_false_iff in Ex as [E32 E9]. auto. }
      destruct H9 as [-> H32]. cbn [starts_with_space]. rewrite H32.
      cbn. split; [reflexivity | discriminate].
Qed.

(** ** The second replacement: runs of line breaks *)

Lemma newline_run (m : jsstring) :
  forallb (consumes false (AtLeast 3 (Chr 10))) m = true ->
  forallb (N.eqb 10) m = true.
Proof.
  intros H. apply forallb_forall. intros c Hc.
  rewrite forallb_forall in H. specialize (H c Hc).
  revert H. cbn [consumes AtLeast Rep]. unfold unit_eqb.
  rewrite !orb_false_r, !orb_diag. now intros ->.
Qed.

Lemma tidy_newline (t : jsstring) : tidy (10%N :: t) = tidy t.
Proof. reflexivity. Qed.

Lemma squeeze_tidy (fuel : nat) :
  forall prev s,
    tidy s = true ->
    let out := replace_loop fuel false (AtLeast 3 (Chr 10)) [10; 10]%N prev s in
    tidy out = true
    /\ (starts_with_space out = true -> starts_with_space s = true).
Proof.
  induction fuel as [|fuel IH]; intros prev s Hs; cbv zeta; [auto|].
  cbn [replace_loop].
  assert (Hstep : forall c t,
             tidy (c :: t) = true ->
             forall p0,
               tidy (c :: replace_loop fuel false (AtLeast 3 (Chr 10))
                            [10; 10]%N p0 t) = true).
  { intros c t Hct p0. rewrite tidy_cons in Hct.
    apply andb_true_iff in Hct as [H Ht]. apply andb_true_iff in H as [H9 H32].
    destruct (IH p0 t Ht) as [Ho Hsp].
    rewrite tidy_cons, H9, Ho, andb_true_r. cbn [andb].
    destruct (c =? 32)%N; [|reflexivity]. cbn [andb negb] in *.
    destruct (starts_with_space (replace_loop _ _ _ _ _ t)) eqn:E;
      [|reflexivity].
    rewrite (Hsp eq_refl) in H32. discriminate. }
  destruct (match_here false (AtLeast 3 (Chr 10)) prev s) as [[p' s']|] eqn:E.
  - unfold match_here in E.
    apply rx_prefix in E as (m & p1 & s1 & Hsplit & Hm & E).
    injection E as <- <-.
    destruct (length s1 <? length s).
    + cbn [app]. assert (Hs1 : tidy s1 = true)
        by (rewrite Hsplit in Hs; now apply tidy_app_r in Hs).
      destruct (IH p1 s1 Hs1) as [Ho _].
      rewrite !tidy_newline, Ho. split; [reflexivity | discriminate].
    + destruct s as [|c t]; [split; [reflexivity | discriminate]|].
      cbn [app]. rewrite !tidy_newline.
      rewrite (Hstep c t Hs (Some c)). split; [reflexivity | discriminate].
  - destruct s as [|c t]; [split; [reflexivity | discriminate]|].
    split; [now apply Hstep|]. cbn [starts_with_space]. auto.
Qed.

(** ** The lines *)

Lemma tidy_lines (ls : list jsstring) :
  tidy (join [10%N] ls) = true -> tidy (join [10%N] (map trim ls)) = true.
Proof.
  induction ls as [|l ls IH]; [auto|].
  destruct ls as [|l' ls].
  - cbn [join map]. apply tidy_trim.
  - intros H. rewrite (@join_cons l (l' :: ls)) in H by discriminate.
    change (map trim (l :: l' :: ls)) with (trim l :: map trim (l' :: ls)).
    rewrite (@join_cons (trim l) (map trim (l' :: ls)))
      by (cbn [map]; discriminate).
    apply tidy_sep.
    + apply tidy_trim. now apply tidy_app_l in H.
    + apply IH. apply tidy_app_r in H. now rewrite tidy_newline in H.
Qed.

(** X29: whatever the input, the text [normalizeWhitespace] returns holds no
    tab and no two spaces in a row: every run of spaces and tabs has become
    one space. *)
Theorem normalizeWhitespace_tidy (s : jsstring) :
  tidy (normalizeWhitespace s) = true
  /\ existsb (N.eqb 9) (normalizeWhitespace s) = false.
Proof.
  assert (H : tidy (normalizeWhitespace s) = true).
  { unfold normalizeWhitespace. apply tidy_trim, tidy_lines.
    rewrite join_split. unfold replace_all.
    apply squeeze_tidy. apply collapse_tidy. lia. }
  split; [exact H|].
  revert H. generalize (normalizeWhitespace s) as t. clear.
  induction t as [|c t IH]; [reflexivity|].
  rewrite tidy_cons. intros H.
  apply andb_true_iff in H as [H Ht]. apply andb_true_iff in H as [H9 _].
  cbn [existsb]. rewrite (IH Ht), orb_false_r.
  rewrite N.eqb_sym. now apply negb_true_iff in H9.
Qed.

End Tidy.
